(** * Authorization, session lifecycle, file storage and user management
      of the dashboard backend

    A shallow embedding of [app/core/permissions.py], [app/api/v1/files.py],
    [app/core/security.py], [app/services/auth_service.py], the handlers
    of [app/api/v1/auth.py], [app/core/s3_client.py],
    [app/services/file_service.py], [app/services/user_service.py], the
    handlers of [app/api/v1/users.py] that create, read and update a
    user, [app/services/analytics_service.py], [get_stats] of
    [app/api/v1/analytics.py] and [app/api/v1/websocket.py], followed by
    the properties of role permissions, path scoping, refresh-token
    sessions, the requests sent to S3, user management, the statistics
    and the live connection.

    Conventions of the embedding:
    - a Python [str] is a [string]; its characters are read as code points
      below 256;
    - an instant is a [Z], the number of microseconds since the epoch;
      the server clock is UTC and its readings lie before the year 2514
      (2^34 s), as long as a [float] holds a timestamp to the
      microsecond; one request reads the clock once, and that reading is
      the argument [now] of every operation that calls
      [datetime.utcnow()]; a [datetime] is an instant together with
      whether the value is naive or aware, which decides whether two of
      them can be compared;
    - a [dict] with string keys is a [gmap string _];
    - the relational store is a record of tables (lists of rows) and
      the sequence of [sessions.id]; it is the store of the configured
      [DATABASE_URL], PostgreSQL through asyncpg: a column declared
      [DateTime(timezone=True)] is loaded as an aware [datetime], and a
      value drawn from a sequence is not given back when the
      transaction is rolled back; a database operation is a function
      from the store to an outcome and the store as committed
      afterwards;
    - code that talks to S3 is a tree of calls: at each call the
      computation goes on from the reply, which is the value [boto3]
      returns or a [ClientError]; a property of such code is stated for
      every reply;
    - what the code draws from outside is an argument of the operation
      that draws it: the clock, the salt of the password hasher, the id
      that the sequence of [users.id] hands out, and the replies of
      Redis. *)

From Stdlib Require Import ZArith String Ascii.
From stdpp Require Import base decidable option list gmap strings pretty.

Open Scope Z_scope.
Open Scope string_scope.

(** ** Python string methods *)

Module Py.

(** [str.isspace] on one character (code points below 256). *)
Definition isspace (c : ascii) : bool :=
  let n := N_of_ascii c in
  ((9 <=? n) && (n <=? 13) || (28 <=? n) && (n <=? 32)
   || (n =? 133) || (n =? 160))%N.

Fixpoint mem (c : ascii) (chars : string) : bool :=
  match chars with
  | EmptyString => false
  | String d chars' => if Ascii.eqb c d then true else mem c chars'
  end.

Fixpoint lstrip_with (p : ascii -> bool) (s : string) : string :=
  match s with
  | EmptyString => EmptyString
  | String c s' => if p c then lstrip_with p s' else s
  end.

Fixpoint rstrip_with (p : ascii -> bool) (s : string) : string :=
  match s with
  | EmptyString => EmptyString
  | String c s' =>
      match rstrip_with p s' with
      | EmptyString => if p c then EmptyString else String c EmptyString
      | r => String c r
      end
  end.

(** [s.strip()] *)
Definition strip (s : string) : string :=
  lstrip_with isspace (rstrip_with isspace s).

(** [s.rstrip(chars)] *)
Definition rstrip (chars : string) (s : string) : string :=
  rstrip_with (fun c => mem c chars) s.

(** [s.startswith(p)] *)
Definition startswith (s p : string) : bool := String.prefix p s.

(** Truth value of a [str]: the empty string is false. *)
Definition truthy (s : string) : bool := negb (String.eqb s "").

(** [x or str()] for an optional string [x]: [None] and the empty string
    both give the empty string. *)
Definition or_empty (x : option string) : string :=
  match x with
  | Some s => s
  | None => EmptyString
  end.

(** A decimal digit. *)
Definition digit (c : ascii) : option Z :=
  let n := Z.of_N (N_of_ascii c) in
  if (48 <=? n)%Z && (n <=? 57)%Z then Some (n - 48)%Z else None.

(** The digits after the first one: single underscores may separate
    digits. *)
Fixpoint int_digits (acc : Z) (s : string) : option Z :=
  match s with
  | EmptyString => Some acc
  | String c s' =>
      match digit c with
      | Some d => int_digits (10 * acc + d)%Z s'
      | None =>
          if Ascii.eqb c "_"
          then match s' with
               | String c' s'' =>
                   match digit c' with
                   | Some d => int_digits (10 * acc + d)%Z s''
                   | None => None
                   end
               | EmptyString => None
               end
          else None
      end
  end.

Definition int_unsigned (s : string) : option Z :=
  match s with
  | String c s' =>
      match digit c with
      | Some d => int_digits d s'
      | None => None
      end
  | EmptyString => None
  end.

Fixpoint count_digits (s : string) : Z :=
  match s with
  | EmptyString => 0
  | String c s' =>
      (match digit c with Some _ => 1 | None => 0 end + count_digits s')%Z
  end.

(** [sys.get_int_max_str_digits()], at its default. *)
Definition int_max_str_digits : Z := 4300.

(** [int(s)] for a [str]: surrounding blanks, an optional sign, decimal
    digits, no more of them than the interpreter converts.  [None]
    stands for a raised [ValueError]. *)
Definition int (s : string) : option Z :=
  if (int_max_str_digits <? count_digits s)%Z then None
  else
    match strip s with
    | String c s' =>
        if Ascii.eqb c "+" then int_unsigned s'
        else if Ascii.eqb c "-" then Z.opp <$> int_unsigned s'
        else int_unsigned (String c s')
    | EmptyString => None
    end.

End Py.

(** ** Exceptions and outcomes *)

Inductive exn : Type :=
| HTTPException (status_code : Z) (detail : string)
                (headers : list (string * string))
| MultipleResultsFound
| IntegrityError
| TypeError.

Inductive outcome (A : Type) : Type :=
| Return (a : A)
| Raise (e : exn).
Arguments Return {A} a.
Arguments Raise {A} e.

Definition HTTP_400_BAD_REQUEST : Z := 400.
Definition HTTP_401_UNAUTHORIZED : Z := 401.
Definition HTTP_403_FORBIDDEN : Z := 403.

(** ** [app/models/user.py] *)

Inductive UserRole : Type := ADMIN | EDITOR | VIEWER | EXTERNAL_VIEWER.

(** [UserRole] is a [str] enumeration: a member hashes and compares as
    its value. *)
Definition value (r : UserRole) : string :=
  match r with
  | ADMIN => "admin"
  | EDITOR => "editor"
  | VIEWER => "viewer"
  | EXTERNAL_VIEWER => "external_viewer"
  end.

Module User.
Record t : Type := mk {
  id : Z;
  email : string;
  hashed_password : string;
  full_name : option string;
  role : UserRole;
  is_active : bool;
  allowed_path_prefix : option string;
  last_login_at : option Z
}.
End User.

(** ** [app/core/permissions.py] *)

Definition ROLE_PERMISSIONS : gmap string (list string) :=
  <["admin" := ["*"]]>
  (<["editor" := ["files:read"; "files:write"; "files:delete";
                  "analytics:read"]]>
  (<["viewer" := ["files:read"; "analytics:read"]]>
  (<["external_viewer" := ["files:read"]]> ∅))).

(** The body of [has_permission], on the key that [user.role] is for the
    dictionary. *)
Definition has_permission_role (role : string) (permission : string) : bool :=
  let user_permissions := default [] (ROLE_PERMISSIONS !! role) in
  if bool_decide ("*" ∈ user_permissions) then true
  else bool_decide (permission ∈ user_permissions).

Definition has_permission (user : User.t) (permission : string) : bool :=
  has_permission_role (value (User.role user)) permission.

Definition user_can_access_path (user : User.t) (path_prefix : string) : bool :=
  (* [getattr(user.role, "value", None)]: no value of a role is empty *)
  let role_value := value (User.role user) in
  if String.eqb role_value "admin" then true
  else
    let allowed := Py.strip (Py.or_empty (User.allowed_path_prefix user)) in
    if negb (Py.truthy allowed) then true
    else
      let path := Py.rstrip "/" (Py.strip path_prefix) ++ "/" in
      let base := Py.rstrip "/" allowed ++ "/" in
      String.eqb path base || Py.startswith path base.

(** ** [app/api/v1/files.py] *)

Definition access_denied : exn :=
  HTTPException HTTP_403_FORBIDDEN "Access denied to this path" [].

Definition _effective_prefix (current_user : User.t) (prefix : string)
  : outcome string :=
  let allowed := Py.strip (Py.or_empty (User.allowed_path_prefix current_user)) in
  if negb (Py.truthy allowed) then Return prefix
  else
    let prefix_norm := Py.rstrip "/" (Py.strip prefix) in
    if Py.truthy prefix_norm
       && negb (Py.startswith (prefix_norm ++ "/") (Py.rstrip "/" allowed ++ "/"))
    then Raise access_denied
    else if negb (Py.truthy prefix_norm)
    then Return (if Py.truthy allowed then Py.rstrip "/" allowed ++ "/" else "")
    else Return prefix.

Definition _check_path_access (current_user : User.t) (key : string)
  : outcome unit :=
  if negb (user_can_access_path current_user key) then Raise access_denied
  else Return tt.

(** ** [app/config.py] *)

Module Settings.
Record t : Type := mk {
  SECRET_KEY : string;
  ALGORITHM : string;
  ACCESS_TOKEN_EXPIRE_MINUTES : Z;
  REFRESH_TOKEN_EXPIRE_DAYS : Z
}.

(** The values of the class body, in force when the environment sets
    none. *)
Definition defaults : t :=
  mk "your-secret-key-change-in-production" "HS256" 30 7.
End Settings.

(** ** Time *)

Definition timedelta_minutes (m : Z) : Z := m * 60000000.
Definition timedelta_days (d : Z) : Z := d * 86400000000.

(** [calendar.timegm(t.utctimetuple())], whole seconds since the epoch
    rounded down: what [jwt.encode] makes of a [datetime] claim, and the
    clock of [jwt.decode]. *)
Definition timegm (t : Z) : Z := t / 1000000.

(** [int(t.timestamp())]: the seconds as a [float], truncated toward
    zero. *)
Definition timestamp (t : Z) : Z := Z.quot t 1000000.

(** A [datetime] value is naive or aware. *)
Inductive datetime : Type :=
| Naive (t : Z)
| Aware (t : Z).

(** [datetime.utcnow()] is naive. *)
Definition utcnow (now : Z) : datetime := Naive now.

(** [a < b]: a naive and an aware value cannot be compared. *)
Definition datetime_lt (a b : datetime) : outcome bool :=
  match a, b with
  | Naive x, Naive y => Return (x <? y)%Z
  | Aware x, Aware y => Return (x <? y)%Z
  | _, _ => Raise TypeError
  end.

(** ** JSON Web Tokens ([jose.jwt]) *)

(** The value of a claim: a string or an integer. *)
Inductive json : Type :=
| JStr (s : string)
| JInt (n : Z).

#[global] Instance json_eq_dec : EqDecision json.
Proof. solve_decision. Defined.

(** A token string is the compact serialization of a payload signed under
    a key with an algorithm, or any other string.  HMAC signing is
    deterministic: equal header, key and payload give the same string. *)
Inductive token : Type :=
| JWT (alg : string) (key : string) (payload : gmap string json)
| Opaque (raw : string).

#[global] Instance token_eq_dec : EqDecision token.
Proof. solve_decision. Defined.

Module jwt.

Definition encode (claims : gmap string json) (key algorithm : string) : token :=
  JWT algorithm key claims.

(** [int(claims[name])] *)
Definition as_int (v : json) : option Z :=
  match v with
  | JInt n => Some n
  | JStr s => Py.int s
  end.

(** The validators of [jwt.decode] under its default options, with no
    audience, issuer, subject or access token passed, as
    [decode_token] calls it.  A claim that is absent passes. *)

(** [iat] converts to an integer. *)
Definition _validate_iat (claims : gmap string json) : bool :=
  match claims !! "iat" with
  | None => true
  | Some v => bool_decide (is_Some (as_int v))
  end.

(** [nbf] converts to an integer that is not after the clock. *)
Definition _validate_nbf (claims : gmap string json) (now : Z) : bool :=
  match claims !! "nbf" with
  | None => true
  | Some v =>
      match as_int v with
      | Some nbf => negb (timegm now <? nbf)%Z
      | None => false
      end
  end.

(** [exp] converts to an integer that is not before the clock. *)
Definition _validate_exp (claims : gmap string json) (now : Z) : bool :=
  match claims !! "exp" with
  | None => true
  | Some v =>
      match as_int v with
      | Some exp => negb (exp <? timegm now)%Z
      | None => false
      end
  end.

(** An [aud] claim never names the audience [None]. *)
Definition _validate_aud (claims : gmap string json) : bool :=
  match claims !! "aud" with
  | None => true
  | Some _ => false
  end.

(** [iss] is compared with the issuer passed to [decode] only, and none
    is passed. *)
Definition _validate_iss (claims : gmap string json) : bool := true.

(** [sub] and [jti] are strings. *)
Definition _validate_sub (claims : gmap string json) : bool :=
  match claims !! "sub" with
  | Some (JInt _) => false
  | _ => true
  end.

Definition _validate_jti (claims : gmap string json) : bool :=
  match claims !! "jti" with
  | Some (JInt _) => false
  | _ => true
  end.

(** An [at_hash] claim needs an access token to compare with. *)
Definition _validate_at_hash (claims : gmap string json) : bool :=
  match claims !! "at_hash" with
  | None => true
  | Some _ => false
  end.

Definition validate_claims (claims : gmap string json) (now : Z) : bool :=
  _validate_iat claims && _validate_nbf claims now
  && _validate_exp claims now && _validate_aud claims
  && _validate_iss claims && _validate_sub claims
  && _validate_jti claims && _validate_at_hash claims.

(** [None] stands for a raised [JWTError]. *)
Definition decode (tok : token) (key : string) (algorithms : list string)
           (now : Z) : option (gmap string json) :=
  match tok with
  | JWT alg k payload =>
      if bool_decide (alg ∈ algorithms) && bool_decide (k = key)
         && validate_claims payload now
      then Some payload else None
  | Opaque _ => None
  end.

End jwt.

(** ** [app/core/security.py] *)

Module Security.
Section WithSettings.
Variable settings : Settings.t.

(** [to_encode["sub"] = str(to_encode["sub"])] when the key is present. *)
Definition normalize_sub (to_encode : gmap string json) : gmap string json :=
  match to_encode !! "sub" with
  | Some (JInt n) => <["sub" := JStr (pretty n)]> to_encode
  | Some (JStr s) => <["sub" := JStr s]> to_encode
  | None => to_encode
  end.

Definition create_access_token (data : gmap string json)
           (expires_delta : option Z) (now : Z) : token :=
  let to_encode := normalize_sub data in
  let expire :=
    match expires_delta with
    | Some delta =>
        (* a zero [timedelta] is false *)
        if (delta =? 0)%Z
        then now + timedelta_minutes (Settings.ACCESS_TOKEN_EXPIRE_MINUTES settings)
        else now + delta
    | None =>
        now + timedelta_minutes (Settings.ACCESS_TOKEN_EXPIRE_MINUTES settings)
    end in
  let to_encode :=
    <["iat" := JInt (timestamp now)]>
      (<["exp" := JInt (timegm expire)]> to_encode) in
  jwt.encode to_encode (Settings.SECRET_KEY settings) (Settings.ALGORITHM settings).

Definition create_refresh_token (data : gmap string json) (now : Z) : token :=
  let to_encode := normalize_sub data in
  let expire := now + timedelta_days (Settings.REFRESH_TOKEN_EXPIRE_DAYS settings) in
  let to_encode :=
    <["type" := JStr "refresh"]>
      (<["iat" := JInt (timestamp now)]>
         (<["exp" := JInt (timegm expire)]> to_encode)) in
  jwt.encode to_encode (Settings.SECRET_KEY settings) (Settings.ALGORITHM settings).

Definition decode_token (tok : token) (now : Z) : option (gmap string json) :=
  jwt.decode tok (Settings.SECRET_KEY settings) [Settings.ALGORITHM settings] now.

End WithSettings.
End Security.

(** ** [app/models/session.py] and the store *)

Module Session.
Record t : Type := mk {
  id : Z;
  user_id : Z;
  refresh_token : token;
  expires_at : Z;
  created_at : Z
}.

(** The attribute [expires_at] of a row loaded from the store: the
    column is [DateTime(timezone=True)], which the driver returns as an
    aware value. *)
Definition loaded_expires_at (s : t) : datetime := Aware (expires_at s).
End Session.

Record Db : Type := mkDb {
  users : list User.t;
  sessions : list Session.t;
  sessions_id_seq : Z
}.

(** An operation on the store: its outcome and the store afterwards. *)
Definition DbOp (A : Type) : Type := Db -> outcome A * Db.

#[global] Instance DbOp_ret : MRet DbOp := fun A a db => (Return a, db).
#[global] Instance DbOp_bind : MBind DbOp := fun A B k m db =>
  match m db with
  | (Return a, db') => k a db'
  | (Raise e, db') => (Raise e, db')
  end.

Definition raise {A : Type} (e : exn) : DbOp A := fun db => (Raise e, db).

(** A computation that does not touch the store. *)
Definition lift {A : Type} (o : outcome A) : DbOp A := fun db => (o, db).

(** [Result.scalar_one_or_none()] *)
Definition scalar_one_or_none {A : Type} (rows : list A) : outcome (option A) :=
  match rows with
  | [] => Return None
  | [r] => Return (Some r)
  | _ :: _ :: _ => Raise MultipleResultsFound
  end.

(** [select(User).where(User.email == email)] and the like. *)
Definition select_user_by_email (email : string) : DbOp (option User.t) :=
  fun db =>
    (scalar_one_or_none (filter (fun u => User.email u = email) (users db)), db).

Definition select_user_by_id (user_id : Z) : DbOp (option User.t) :=
  fun db =>
    (scalar_one_or_none (filter (fun u => User.id u = user_id) (users db)), db).

Definition select_session_by_token (refresh_token : token)
  : DbOp (option Session.t) :=
  fun db =>
    (scalar_one_or_none
       (filter (fun s => Session.refresh_token s = refresh_token) (sessions db)),
     db).

(** The column [sessions.refresh_token] is unique: a flush that would give
    two rows the same token fails, and the transaction is rolled back.
    The id that the refused row drew from the sequence stays drawn. *)
Definition token_taken (self_id : Z) (tok : token) (db : Db) : bool :=
  bool_decide (Exists (fun s => Session.id s <> self_id
                                /\ Session.refresh_token s = tok) (sessions db)).

(** Commit of a new session row together with the row of [user]. *)
Definition commit_new_session (user : User.t) (user_id : Z) (tok : token)
           (expires_at now : Z) : DbOp Session.t :=
  fun db =>
    let new_id := sessions_id_seq db + 1 in
    if token_taken new_id tok db
    then (Raise IntegrityError, mkDb (users db) (sessions db) new_id)
    else
      let session := Session.mk new_id user_id tok expires_at now in
      (Return session,
       mkDb (map (fun u => if bool_decide (User.id u = User.id user)
                           then user else u) (users db))
            (sessions db ++ [session])
            new_id).

(** Commit of a changed session row. *)
Definition commit_session (session : Session.t) : DbOp unit :=
  fun db =>
    if token_taken (Session.id session) (Session.refresh_token session) db
    then (Raise IntegrityError, db)
    else
      (Return tt,
       mkDb (users db)
            (map (fun s => if bool_decide (Session.id s = Session.id session)
                           then session else s) (sessions db))
            (sessions_id_seq db)).

(** [db.delete(session)] and commit. *)
Definition commit_delete_session (session : Session.t) : DbOp unit :=
  fun db =>
    (Return tt,
     mkDb (users db)
          (filter (fun s => Session.id s <> Session.id session) (sessions db))
          (sessions_id_seq db)).

(** ** [app/services/auth_service.py] *)

(** The dictionary of a token pair: [access_token], [refresh_token],
    [token_type]; also the response schema [Token]. *)
Module Tokens.
Record t : Type := mk {
  access_token : token;
  refresh_token : token;
  token_type : string
}.
End Tokens.

Module AuthService.
Section WithApp.
Variable settings : Settings.t.
(** [pwd_context.verify] *)
Variable verify_password : string -> string -> bool.

Definition authenticate_user (email password : string)
  : DbOp (option User.t) :=
  user ← select_user_by_email email;
  match user with
  | None => mret None
  | Some user =>
      if negb (verify_password password (User.hashed_password user))
      then mret None
      else if negb (User.is_active user) then mret None
      else mret (Some user)
  end.

(** [{"sub": user.id, "email": user.email, "role": user.role.value}] *)
Definition token_data (user : User.t) : gmap string json :=
  <["role" := JStr (value (User.role user))]>
    (<["email" := JStr (User.email user)]>
       (<["sub" := JInt (User.id user)]> ∅)).

Definition create_session (user : User.t) (now : Z) : DbOp Session.t :=
  let refresh_token :=
    Security.create_refresh_token settings (token_data user) now in
  let expires_at :=
    now + timedelta_days (Settings.REFRESH_TOKEN_EXPIRE_DAYS settings) in
  commit_new_session user (User.id user) refresh_token expires_at now.

Definition get_session_by_token (refresh_token : token)
  : DbOp (option Session.t) :=
  select_session_by_token refresh_token.

Definition delete_session (session : Session.t) : DbOp unit :=
  commit_delete_session session.

Definition create_tokens (user : User.t) (now : Z) : Tokens.t :=
  let access_token :=
    Security.create_access_token settings (token_data user) None now in
  let refresh_token :=
    Security.create_refresh_token settings (token_data user) now in
  Tokens.mk access_token refresh_token "bearer".

Definition refresh_access_token (refresh_token : token) (now : Z)
  : DbOp (option Tokens.t) :=
  (* Verify refresh token *)
  let payload := Security.decode_token settings refresh_token now in
  if bool_decide (payload = None \/ payload = Some ∅
                  \/ (payload ≫= lookup "type") <> Some (JStr "refresh"))
  then mret None
  else
    (* Get session *)
    session ← get_session_by_token refresh_token;
    match session with
    | None => mret None
    | Some session =>
        (* Check if session expired *)
        expired ← lift (datetime_lt (Session.loaded_expires_at session)
                                    (utcnow now));
        if (expired : bool)
        then delete_session session;; mret None
        else
          (* Get user *)
          user ← select_user_by_id (Session.user_id session);
          match user with
          | None => mret None
          | Some user =>
              if negb (User.is_active user) then mret None
              else
                (* Rotate refresh token + create new access token *)
                let access_token :=
                  Security.create_access_token settings (token_data user)
                                               None now in
                let new_refresh_token :=
                  Security.create_refresh_token settings (token_data user)
                                                now in
                let session :=
                  Session.mk (Session.id session) (Session.user_id session)
                    new_refresh_token
                    (now + timedelta_days
                             (Settings.REFRESH_TOKEN_EXPIRE_DAYS settings))
                    (Session.created_at session) in
                commit_session session;;
                mret (Some (Tokens.mk access_token new_refresh_token "bearer"))
          end
    end.

Definition logout (refresh_token : token) : DbOp bool :=
  session ← get_session_by_token refresh_token;
  match session with
  | None => mret false
  | Some session => delete_session session;; mret true
  end.

End WithApp.
End AuthService.

(** ** [app/api/v1/auth.py] *)

Module auth.
Section WithApp.
Variable settings : Settings.t.
Variable verify_password : string -> string -> bool.

Definition invalid_credentials : exn :=
  HTTPException HTTP_401_UNAUTHORIZED "Incorrect email or password"
                [("WWW-Authenticate", "Bearer")].

Definition invalid_refresh_token : exn :=
  HTTPException HTTP_401_UNAUTHORIZED "Invalid or expired refresh token"
                [("WWW-Authenticate", "Bearer")].

Definition login (email password : string) (now : Z) : DbOp Tokens.t :=
  user ← AuthService.authenticate_user verify_password email password;
  match user with
  | None => raise invalid_credentials
  | Some user =>
      (* Update last login (persisted when create_session commits) *)
      let user :=
        User.mk (User.id user) (User.email user) (User.hashed_password user)
                (User.full_name user) (User.role user) (User.is_active user)
                (User.allowed_path_prefix user) (Some now) in
      session ← AuthService.create_session settings user now;
      let access_token :=
        Security.create_access_token settings (AuthService.token_data user)
                                     None now in
      mret (Tokens.mk access_token (Session.refresh_token session) "bearer")
  end.

Definition refresh_token (refresh_token : token) (now : Z) : DbOp Tokens.t :=
  tokens ← AuthService.refresh_access_token settings refresh_token now;
  match tokens with
  | None => raise invalid_refresh_token
  | Some tokens =>
      mret (Tokens.mk (Tokens.access_token tokens)
                      (Tokens.refresh_token tokens) "bearer")
  end.

Definition logout (refresh_token : token) : DbOp string :=
  success ← AuthService.logout refresh_token;
  if negb success
  then raise (HTTPException HTTP_400_BAD_REQUEST "Invalid refresh token" [])
  else mret "Logged out successfully".

End WithApp.
End auth.

(** ** Decidable equality of rows, stores and outcomes *)

#[global] Instance UserRole_eq_dec : EqDecision UserRole.
Proof. solve_decision. Defined.
#[global] Instance User_eq_dec : EqDecision User.t.
Proof. solve_decision. Defined.
#[global] Instance Session_eq_dec : EqDecision Session.t.
Proof. solve_decision. Defined.
#[global] Instance Tokens_eq_dec : EqDecision Tokens.t.
Proof. solve_decision. Defined.
#[global] Instance Db_eq_dec : EqDecision Db.
Proof. solve_decision. Defined.
#[global] Instance exn_eq_dec : EqDecision exn.
Proof. solve_decision. Defined.
#[global] Instance outcome_eq_dec {A : Type} `{EqDecision A} :
  EqDecision (outcome A).
Proof. solve_decision. Defined.

(** ** Vocabulary of the properties *)

(** The three ways a login attempt fails. *)
Inductive login_failure (verify_password : string -> string -> bool)
          (db : Db) (email password : string) : Prop :=
| no_such_user :
    filter (fun u => User.email u = email) (users db) = [] ->
    login_failure verify_password db email password
| password_mismatch (user : User.t) :
    filter (fun u => User.email u = email) (users db) = [user] ->
    verify_password password (User.hashed_password user) = false ->
    login_failure verify_password db email password
| user_inactive (user : User.t) :
    filter (fun u => User.email u = email) (users db) = [user] ->
    verify_password password (User.hashed_password user) = true ->
    User.is_active user = false ->
    login_failure verify_password db email password.

(** A token verifies with type refresh at an instant. *)
Definition verifies_as_refresh (settings : Settings.t) (tok : token) (now : Z)
  : Prop :=
  exists payload,
    Security.decode_token settings tok now = Some payload
    /\ payload !! "type" = Some (JStr "refresh").

(** The token matches the session row [s], and no other. *)
Definition matches_row (tok : token) (s : Session.t) (db : Db) : Prop :=
  filter (fun r => Session.refresh_token r = tok) (sessions db) = [s].

(** The store without the row of primary key [Session.id s]. *)
Definition without_session (s : Session.t) (db : Db) : Db :=
  mkDb (users db)
       (filter (fun r => Session.id r <> Session.id s) (sessions db))
       (sessions_id_seq db).

(** *** The scoping rules in the words of the specification *)

(** The canonical base of a restriction: trailing separators stripped,
    exactly one separator appended. *)
Definition canonical_base (R : string) : string := Py.rstrip "/" R ++ "/".

(** A key or requested prefix, normalized: surrounding blanks and trailing
    separators stripped. *)
Definition normalized (K : string) : string := Py.rstrip "/" (Py.strip K).

(** The static permission table. *)
Inductive grant : Type := All | Only (operations : list string).

Definition static_table (role : string) : option grant :=
  if String.eqb role "admin" then Some All
  else if String.eqb role "editor"
  then Some (Only ["files:read"; "files:write"; "files:delete"; "analytics:read"])
  else if String.eqb role "viewer"
  then Some (Only ["files:read"; "analytics:read"])
  else if String.eqb role "external_viewer"
  then Some (Only ["files:read"])
  else None.

Definition permitted (role operation : string) : Prop :=
  match static_table role with
  | Some All => True
  | Some (Only operations) => operation ∈ operations
  | None => False
  end.

(** *** The users, the store and the requests of the examples *)
Definition restricted_to (r : UserRole) (R : option string) : User.t :=
  User.mk 7 "u@x.com" "$2b$12$hash" None r true R None.


Module Demo.

Definition cfg : Settings.t := Settings.defaults.

(** A stand-in for the password hasher: the digest is the plaintext. *)
Definition verify (plain hashed : string) : bool := String.eqb plain hashed.

Definition alice : User.t :=
  User.mk 1 "a@x.com" "secret" None VIEWER true None None.

Definition bob : User.t :=
  User.mk 2 "b@x.com" "hunter2" None EDITOR false None None.

Definition db0 : Db := mkDb [alice; bob] [] 0.

(** 2023-11-14 22:13:20 UTC, and 0.2 s, 0.5 s and 5 s later. *)
Definition t0 : Z := 1700000000000000.
Definition t1 : Z := 1700000000200000.
Definition t2 : Z := 1700000000500000.
Definition t4 : Z := 1700000005000000.

(** The refresh token minted for alice at an instant. *)
Definition T (now : Z) : token :=
  Security.create_refresh_token cfg (AuthService.token_data alice) now.

(** The access token minted for alice at an instant. *)
Definition A (now : Z) : token :=
  Security.create_access_token cfg (AuthService.token_data alice) None now.

(** The store after alice logged in at [t1]. *)
Definition db1 : Db := (auth.login cfg verify "a@x.com" "secret" t1 db0).2.

(** Seven days and 0.5 s after [t0]: the session of [db1] has expired
    0.3 s ago, within the last second of its token. *)
Definition t5 : Z := 1700604800500000.

(** [db1] after alice was deactivated, and after she was removed. *)
Definition db1_deactivated : Db :=
  mkDb [User.mk 1 "a@x.com" "secret" None VIEWER false None (Some t1); bob]
       (sessions db1) (sessions_id_seq db1).

Definition db1_removed : Db :=
  mkDb [bob] (sessions db1) (sessions_id_seq db1).

(** A store whose only session row holds a string that is no token and
    an expiry long past. *)
Definition db_stale : Db :=
  mkDb [alice; bob] [Session.mk 4 1 (Opaque "never-signed") 1000000 0] 4.

End Demo.

(** *** Tokens and the store: further vocabulary *)

(** The instant that the [exp] of a refresh token and the [expires_at]
    of its session are computed from. *)
Definition refresh_expiry (settings : Settings.t) (issued : Z) : Z :=
  issued + timedelta_days (Settings.REFRESH_TOKEN_EXPIRE_DAYS settings).

(** The constraints of the schema on the two tables, and the sequence of
    session ids ahead of every id handed out: primary keys and emails of
    users are unique, primary keys and tokens of sessions are unique. *)
Record store_ok (db : Db) : Prop := {
  user_ids_unique : NoDup (User.id <$> users db);
  emails_unique : NoDup (User.email <$> users db);
  session_ids_unique : NoDup (Session.id <$> sessions db);
  tokens_unique : NoDup (Session.refresh_token <$> sessions db);
  session_ids_issued :
    Forall (fun s => Session.id s <= sessions_id_seq db) (sessions db)
}.

(** ** Guards of [app/core/permissions.py] *)

Definition HTTP_404_NOT_FOUND : Z := 404.
Definition HTTP_409_CONFLICT : Z := 409.
Definition HTTP_415_UNSUPPORTED_MEDIA_TYPE : Z := 415.
Definition HTTP_500_INTERNAL_SERVER_ERROR : Z := 500.
Definition HTTP_503_SERVICE_UNAVAILABLE : Z := 503.

(** [', '.join(roles)] *)
Fixpoint join (sep : string) (parts : list string) : string :=
  match parts with
  | [] => EmptyString
  | [p] => p
  | p :: rest => p ++ sep ++ join sep rest
  end.

(** The checks of the wrapper that [require_permission(permission)] puts
    around a handler: the handler runs, with the user of the keyword
    argument [current_user], when the outcome is a return. *)
Definition require_permission (permission : string)
           (current_user : option User.t) : outcome User.t :=
  match current_user with
  | None =>
      Raise (HTTPException HTTP_401_UNAUTHORIZED "Authentication required" [])
  | Some user =>
      if negb (has_permission user permission)
      then Raise (HTTPException HTTP_403_FORBIDDEN
                                ("Permission denied: " ++ permission) [])
      else Return user
  end.

(** The checks of the wrapper of [require_role(roles)]. *)
Definition require_role (roles : list string)
           (current_user : option User.t) : outcome User.t :=
  match current_user with
  | None =>
      Raise (HTTPException HTTP_401_UNAUTHORIZED "Authentication required" [])
  | Some user =>
      let role_value := value (User.role user) in
      if negb (bool_decide (role_value ∈ roles))
      then Raise (HTTPException HTTP_403_FORBIDDEN
                                ("Role required: " ++ join ", " roles) [])
      else Return user
  end.

(** ** More Python string methods *)

Module PyMore.

(** [s.endswith(suffix)] *)
Fixpoint endswith (s suffix : string) : bool :=
  if String.eqb s suffix then true
  else match s with
       | EmptyString => false
       | String _ s' => endswith s' suffix
       end.

(** [s.split(sep)] for a separator of one character. *)
Fixpoint split (sep : ascii) (s : string) : list string :=
  match s with
  | EmptyString => [EmptyString]
  | String c s' =>
      if Ascii.eqb c sep then EmptyString :: split sep s'
      else match split sep s' with
           | part :: parts => String c part :: parts
           | [] => [String c EmptyString]
           end
  end.

(** [parts[-1]] of a list that is not empty. *)
Definition last_of (parts : list string) : string :=
  List.last parts EmptyString.

(** [s.strip(chars)] *)
Definition strip_chars (chars : string) (s : string) : string :=
  Py.lstrip_with (fun c => Py.mem c chars)
                 (Py.rstrip_with (fun c => Py.mem c chars) s).

End PyMore.

(** ** The storage settings of [app/config.py] *)

Module StorageSettings.
Record t : Type := mk {
  AWS_ACCESS_KEY_ID : string;
  AWS_SECRET_ACCESS_KEY : string;
  AWS_REGION : string;
  S3_BUCKET_NAME : string;
  ALLOWED_FILE_TYPES : list string
}.
End StorageSettings.

(** ** The requests to S3 ([boto3]) *)

Module boto3.

(** The calls the application makes on its client.  The body of an
    upload is left out. *)
Inductive call : Type :=
| upload_fileobj (Bucket Key : string) (ContentType : option string)
| delete_object (Bucket Key : string)
| put_object (Bucket Key : string)
| list_objects_v2 (Bucket Prefix : string) (Delimiter : option string)
                  (MaxKeys : Z) (ContinuationToken : option string)
| generate_presigned_url (Bucket Key : string) (ExpiresIn : Z)
| generate_presigned_post (Bucket Key : string) (ExpiresIn : Z).

(** An entry of [Contents]; [LastModified] stands for its [isoformat()]. *)
Record object_summary : Type := mk_object {
  Key : string;
  Size : Z;
  LastModified : string;
  ETag : string
}.

Record listing : Type := mk_listing {
  Contents : option (list object_summary);
  CommonPrefixes : option (list string);
  NextContinuationToken : option string
}.

Record presigned_post : Type := mk_post {
  url : string;
  fields : list (string * string)
}.

Definition reply (c : call) : Type :=
  match c with
  | upload_fileobj _ _ _ => unit
  | delete_object _ _ => unit
  | put_object _ _ => unit
  | list_objects_v2 _ _ _ _ _ => listing
  | generate_presigned_url _ _ _ => string
  | generate_presigned_post _ _ _ => presigned_post
  end.

(** The bucket and the key or prefix a call names. *)
Definition bucket_of (c : call) : string :=
  match c with
  | upload_fileobj b _ _ | delete_object b _ | put_object b _
  | list_objects_v2 b _ _ _ _ | generate_presigned_url b _ _
  | generate_presigned_post b _ _ => b
  end.

Definition target_of (c : call) : string :=
  match c with
  | upload_fileobj _ k _ | delete_object _ k | put_object _ k
  | list_objects_v2 _ k _ _ _ | generate_presigned_url _ k _
  | generate_presigned_post _ k _ => k
  end.

End boto3.

(** A computation that talks to S3: it is done, or it makes a call and
    goes on from the reply, which is a [ClientError] with its message
    ([inl]) or the value returned ([inr]). *)
Inductive S3 (A : Type) : Type :=
| Done (a : A)
| Ask (c : boto3.call) (k : string + boto3.reply c -> S3 A).
Arguments Done {A} a.
Arguments Ask {A} c k.

Fixpoint S3_then {A B : Type} (k : A -> S3 B) (m : S3 A) : S3 B :=
  match m with
  | Done a => k a
  | Ask c k' => Ask c (fun r => S3_then k (k' r))
  end.

#[global] Instance S3_ret : MRet S3 := fun A a => Done a.
#[global] Instance S3_bind : MBind S3 := fun A B k m => S3_then k m.

(** What a handler of the files API ends in: a response, an
    [HTTPException], or a [ValueError] that nothing catches. *)
Inductive response (A : Type) : Type :=
| Respond (a : A)
| Fail (e : exn)
| Crash (message : string).
Arguments Respond {A} a.
Arguments Fail {A} e.
Arguments Crash {A} message.

(** ** [app/core/s3_client.py] *)

(** [get_s3_client()]: the message of the [ValueError] of
    [S3Client.__init__], or the client, which is its bucket name. *)
Definition get_s3_client (cfg : StorageSettings.t) : string + string :=
  if negb (Py.truthy (StorageSettings.AWS_REGION cfg))
     || negb (Py.truthy (StorageSettings.S3_BUCKET_NAME cfg))
  then inl "S3 is not configured: missing AWS_REGION or S3_BUCKET_NAME"
  else if negb (Py.truthy (StorageSettings.AWS_ACCESS_KEY_ID cfg))
          || negb (Py.truthy (StorageSettings.AWS_SECRET_ACCESS_KEY cfg))
  then inl "S3 is not configured: missing AWS credentials"
  else inr (StorageSettings.S3_BUCKET_NAME cfg).

Module S3Client.

Record file_entry : Type := mk_file {
  key : string;
  size : Z;
  last_modified : string;
  etag : string
}.

Record folder : Type := mk_folder {
  folder_key : string;
  name : string
}.

Record tree_file : Type := mk_tree_file {
  file_key : string;
  filename : string;
  file_size : Z;
  file_last_modified : string;
  file_etag : string
}.

Record tree : Type := mk_tree {
  folders : list folder;
  files : list tree_file;
  prefix : option string
}.

(** The double quote. *)
Definition quote : string := String (ascii_of_nat 34) EmptyString.

(** [prefix or None] *)
Definition or_none (s : string) : option string :=
  if Py.truthy s then Some s else None.

Definition upload_file (bucket_name key : string) (content_type : option string)
  : S3 bool :=
  let extra_args :=
    match content_type with
    | Some ct => if Py.truthy ct then Some ct else None
    | None => None
    end in
  Ask (boto3.upload_fileobj bucket_name key extra_args)
      (fun r => match r with
                | inr _ => Done true
                | inl _ => Done false
                end).

Definition delete_file (bucket_name key : string) : S3 bool :=
  Ask (boto3.delete_object bucket_name key)
      (fun r => match r with
                | inr _ => Done true
                | inl _ => Done false
                end).

Definition entry_of (obj : boto3.object_summary) : file_entry :=
  mk_file (boto3.Key obj) (boto3.Size obj) (boto3.LastModified obj)
          (PyMore.strip_chars quote (boto3.ETag obj)).

Definition list_files (bucket_name prefix : string) (max_keys : Z)
  : S3 (list file_entry) :=
  Ask (boto3.list_objects_v2 bucket_name prefix None max_keys None)
      (fun r => match r with
                | inr response =>
                    Done (match boto3.Contents response with
                          | Some contents => map entry_of contents
                          | None => []
                          end)
                | inl _ => Done []
                end).

Definition folder_of (folder_key : string) : folder :=
  let folder_name :=
    if Py.truthy folder_key
    then PyMore.last_of (PyMore.split "/" (Py.rstrip "/" folder_key))
    else EmptyString in
  mk_folder folder_key (if Py.truthy folder_name then folder_name else folder_key).

Definition tree_file_of (obj : boto3.object_summary) : tree_file :=
  mk_tree_file (boto3.Key obj)
               (PyMore.last_of (PyMore.split "/" (boto3.Key obj)))
               (boto3.Size obj) (boto3.LastModified obj)
               (PyMore.strip_chars quote (boto3.ETag obj)).

Definition max_pages (max_keys : Z) : Z :=
  Z.max 1 (Z.min 50 ((max_keys + 999) / 1000)).

(** The loop [for _ in range(max_pages)], from the page at hand: [None]
    stands for a [ClientError] raised inside it. *)
Fixpoint list_pages (pages : nat) (bucket_name list_prefix : string)
         (continuation_token : option string)
         (folders : list folder) (files : list tree_file)
  : S3 (option (list folder * list tree_file)) :=
  match pages with
  | O => Done (Some (folders, files))
  | S pages' =>
      Ask (boto3.list_objects_v2 bucket_name list_prefix (Some "/") 1000
                                 continuation_token)
          (fun r =>
             match r with
             | inl _ => Done None
             | inr response =>
                 let folders :=
                   match boto3.CommonPrefixes response with
                   | Some cps => (folders ++ map folder_of cps)%list
                   | None => folders
                   end in
                 let files :=
                   match boto3.Contents response with
                   | Some contents =>
                       (files
                          ++ map tree_file_of
                               (filter (fun obj =>
                                          PyMore.endswith (boto3.Key obj) "/" = false)
                                       contents))%list
                   | None => files
                   end in
                 match boto3.NextContinuationToken response with
                 | Some token =>
                     if Py.truthy token
                     then list_pages pages' bucket_name list_prefix (Some token)
                                     folders files
                     else Done (Some (folders, files))
                 | None => Done (Some (folders, files))
                 end
             end)
  end.

Definition list_prefix_of (prefix : string) : string :=
  if Py.truthy prefix && negb (PyMore.endswith prefix "/")
  then Py.rstrip "/" prefix ++ "/"
  else prefix.

Definition list_with_folders (bucket_name prefix : string) (max_keys : Z)
  : S3 tree :=
  result ← list_pages (Z.to_nat (max_pages max_keys)) bucket_name
                      (list_prefix_of prefix) None [] [];
  match result with
  | Some (folders, files) => mret (mk_tree folders files (or_none prefix))
  | None => mret (mk_tree [] [] (or_none prefix))
  end.

Definition get_presigned_url (bucket_name key : string) (expires_in : Z)
  : S3 (option string) :=
  Ask (boto3.generate_presigned_url bucket_name key expires_in)
      (fun r => match r with
                | inr url => Done (Some url)
                | inl _ => Done None
                end).

Definition get_presigned_post_url (bucket_name key : string) (expires_in : Z)
  : S3 (option boto3.presigned_post) :=
  Ask (boto3.generate_presigned_post bucket_name key expires_in)
      (fun r => match r with
                | inr post => Done (Some post)
                | inl _ => Done None
                end).

End S3Client.

(** ** [app/services/file_service.py] *)

Module FileService.
Section WithStorage.
Variable cfg : StorageSettings.t.

Definition unavailable {A : Type} (message : string) : S3 (response A) :=
  Done (Fail (HTTPException HTTP_503_SERVICE_UNAVAILABLE message [])).

Definition list_files (prefix : string) (max_keys : Z)
  : S3 (response (list S3Client.file_entry)) :=
  match get_s3_client cfg with
  | inl message => unavailable message
  | inr bucket_name =>
      files ← S3Client.list_files bucket_name prefix max_keys;
      mret (Respond files)
  end.

Definition list_with_folders (prefix : string) (max_keys : Z)
  : S3 (response S3Client.tree) :=
  match get_s3_client cfg with
  | inl message => unavailable message
  | inr bucket_name =>
      result ← S3Client.list_with_folders bucket_name prefix max_keys;
      mret (Respond result)
  end.

Definition delete_file (key : string) : S3 (response bool) :=
  if negb (Py.truthy key)
  then Done (Fail (HTTPException HTTP_400_BAD_REQUEST "Missing key" []))
  else
    match get_s3_client cfg with
    | inl message => unavailable message
    | inr bucket_name =>
        deleted ← S3Client.delete_file bucket_name key;
        mret (Respond deleted)
    end.

Definition get_download_url (key : string) (expires_in : Z)
  : S3 (response string) :=
  match get_s3_client cfg with
  | inl message => unavailable message
  | inr bucket_name =>
      url ← S3Client.get_presigned_url bucket_name key expires_in;
      match url with
      | Some url =>
          if negb (Py.truthy url)
          then mret (Fail (HTTPException HTTP_404_NOT_FOUND "File not found" []))
          else mret (Respond url)
      | None =>
          mret (Fail (HTTPException HTTP_404_NOT_FOUND "File not found" []))
      end
  end.

Definition get_presigned_upload (key : string) (expires_in : Z)
  : S3 (response boto3.presigned_post) :=
  match get_s3_client cfg with
  | inl message => unavailable message
  | inr bucket_name =>
      post ← S3Client.get_presigned_post_url bucket_name key expires_in;
      match post with
      | Some post => mret (Respond post)
      | None =>
          mret (Fail (HTTPException HTTP_400_BAD_REQUEST
                                    "Could not create presigned upload" []))
      end
  end.

End WithStorage.
End FileService.

(** ** The handlers of [app/api/v1/files.py] *)

Module files.

Record file_info : Type := mk_info {
  key : string;
  filename : string;
  size : Z;
  file_type : option string;
  last_modified : string;
  etag : string
}.

Record tree_response : Type := mk_tree_response {
  tree_folders : list S3Client.folder;
  tree_files : list file_info;
  tree_prefix : option string
}.

Record list_response : Type := mk_list_response {
  listed : list file_info;
  total : nat;
  listed_prefix : option string
}.

Record upload_response : Type := mk_upload_response {
  uploaded_key : string;
  uploaded_filename : string;
  uploaded_size : Z;
  presigned_url : option string
}.

(** What the handlers read of an [UploadFile]. *)
Record upload : Type := mk_upload {
  upload_filename : string;
  content_type : option string
}.

Section WithStorage.
Variable cfg : StorageSettings.t.

(** A handler under a guard: the guard's exception, or the handler on the
    user. *)
Definition guarded {A : Type} (guard : outcome User.t)
           (handler : User.t -> S3 (response A)) : S3 (response A) :=
  match guard with
  | Return user => handler user
  | Raise e => Done (Fail e)
  end.

(** The rest of a handler after a check that raises or returns. *)
Definition checked {A B : Type} (check : outcome A)
           (rest : A -> S3 (response B)) : S3 (response B) :=
  match check with
  | Return a => rest a
  | Raise e => Done (Fail e)
  end.

(** The rest of a handler after a service call. *)
Definition served {A B : Type} (call : S3 (response A))
           (rest : A -> S3 (response B)) : S3 (response B) :=
  r ← call;
  match r with
  | Respond a => rest a
  | Fail e => mret (Fail e)
  | Crash message => mret (Crash message)
  end.

Definition list_files_with_folders (prefix : string) (max_keys : Z)
           (current_user : option User.t) : S3 (response tree_response) :=
  guarded (require_permission "files:read" current_user) (fun current_user =>
    checked (_effective_prefix current_user prefix) (fun effective =>
      served (FileService.list_with_folders cfg effective max_keys) (fun result =>
        let folders := S3Client.folders result in
        let files :=
          map (fun f => mk_info (S3Client.file_key f) (S3Client.filename f)
                                (S3Client.file_size f) None
                                (S3Client.file_last_modified f)
                                (S3Client.file_etag f))
              (S3Client.files result) in
        mret (Respond (mk_tree_response folders files (S3Client.prefix result)))))).

Definition list_files (prefix : string) (max_keys : Z)
           (current_user : option User.t) : S3 (response list_response) :=
  guarded (require_permission "files:read" current_user) (fun current_user =>
    checked (_effective_prefix current_user prefix) (fun effective =>
      served (FileService.list_files cfg effective max_keys) (fun files =>
        let mapped :=
          map (fun f => mk_info (S3Client.key f)
                                (PyMore.last_of (PyMore.split "/" (S3Client.key f)))
                                (S3Client.size f) None
                                (S3Client.last_modified f) (S3Client.etag f))
              files in
        mret (Respond (mk_list_response mapped (length mapped)
                                        (S3Client.or_none prefix)))))).

(** The key an upload goes to. *)
Definition upload_key (current_user : User.t) (path : option string)
           (filename : string) : string :=
  let allowed := Py.strip (Py.or_empty (User.allowed_path_prefix current_user)) in
  if Py.truthy (Py.or_empty path)
  then Py.rstrip "/" (Py.strip (Py.or_empty path)) ++ "/" ++ filename
  else if Py.truthy allowed
  then Py.rstrip "/" allowed ++ "/" ++ filename
  else pretty (User.id current_user) ++ "/" ++ filename.

Definition upload_file (file : upload) (path : option string)
           (current_user : option User.t) : S3 (response upload_response) :=
  guarded (require_permission "files:write" current_user) (fun current_user =>
    if match content_type file with
       | Some ct =>
           Py.truthy ct
           && negb (bool_decide (ct ∈ StorageSettings.ALLOWED_FILE_TYPES cfg))
       | None => false
       end
    then Done (Fail (HTTPException HTTP_415_UNSUPPORTED_MEDIA_TYPE
                                   "File type not allowed" []))
    else
      let key := upload_key current_user path (upload_filename file) in
      checked (_check_path_access current_user key) (fun _ =>
        match get_s3_client cfg with
        | inl message => Done (Crash message)
        | inr bucket_name =>
            ok ← S3Client.upload_file bucket_name key (content_type file);
            if negb ok
            then mret (Fail (HTTPException HTTP_500_INTERNAL_SERVER_ERROR
                                           "Upload failed" []))
            else mret (Respond (mk_upload_response key (upload_filename file)
                                                   0 None))
        end)).

Definition download_file (key : string) (expires_in : Z)
           (current_user : option User.t) : S3 (response (string * Z)) :=
  guarded (require_permission "files:read" current_user) (fun current_user =>
    checked (_check_path_access current_user key) (fun _ =>
      served (FileService.get_download_url cfg key expires_in) (fun url =>
        mret (Respond (url, expires_in))))).

Definition delete_file (key : string) (current_user : option User.t)
  : S3 (response (string * bool)) :=
  guarded (require_permission "files:delete" current_user) (fun current_user =>
    checked (_check_path_access current_user key) (fun _ =>
      served (FileService.delete_file cfg key) (fun deleted =>
        mret (Respond (key, deleted))))).

Definition presigned_upload (key : string) (expires_in : Z)
           (current_user : option User.t) : S3 (response boto3.presigned_post) :=
  guarded (require_permission "files:write" current_user) (fun current_user =>
    checked (_check_path_access current_user key) (fun _ =>
      FileService.get_presigned_upload cfg key expires_in)).

Definition create_folder (path : string) (current_user : option User.t)
  : S3 (response (string * string)) :=
  guarded (require_permission "files:write" current_user) (fun current_user =>
    (* Ensure path ends with / *)
    let folder_path := Py.rstrip "/" (Py.strip path) ++ "/" in
    (* Check permissions *)
    let allowed :=
      Py.strip (Py.or_empty (User.allowed_path_prefix current_user)) in
    if Py.truthy allowed
       && negb (Py.startswith folder_path (Py.rstrip "/" allowed ++ "/"))
    then Done (Fail access_denied)
    else
      (* Create empty object (folder placeholder in S3) *)
      match get_s3_client cfg with
      | inl message =>
          Done (Fail (HTTPException HTTP_500_INTERNAL_SERVER_ERROR
                                    ("Failed to create folder: " ++ message) []))
      | inr bucket_name =>
          Ask (boto3.put_object bucket_name folder_path)
              (fun r =>
                 match r with
                 | inl message =>
                     Done (Fail (HTTPException
                                   HTTP_500_INTERNAL_SERVER_ERROR
                                   ("Failed to create folder: " ++ message) []))
                 | inr _ => Done (Respond (folder_path, "Folder created"))
                 end)
      end).

End WithStorage.
End files.

(** *** Vocabulary for computations that talk to S3 *)

(** Every call the computation can make, whatever the replies, satisfies
    [P]. *)
Inductive every_call {A : Type} (P : boto3.call -> Prop) : S3 A -> Prop :=
| every_call_done (a : A) : every_call P (Done a)
| every_call_ask (c : boto3.call) (k : string + boto3.reply c -> S3 A) :
    P c -> (forall r, every_call P (k r)) -> every_call P (Ask c k).

(** Every value the computation can end in, whatever the replies,
    satisfies [Q]. *)
Inductive every_result {A : Type} (Q : A -> Prop) : S3 A -> Prop :=
| every_result_done (a : A) : Q a -> every_result Q (Done a)
| every_result_ask (c : boto3.call) (k : string + boto3.reply c -> S3 A) :
    (forall r, every_result Q (k r)) -> every_result Q (Ask c k).

(** The computation makes at most [n] calls, whatever the replies. *)
Fixpoint at_most_calls {A : Type} (n : nat) (m : S3 A) {struct m} : Prop :=
  match m with
  | Done _ => True
  | Ask c k =>
      match n with
      | O => False
      | S n' => forall r, at_most_calls n' (k r)
      end
  end.


(** The call is on the configured bucket, for the key [key], which the
    user may access, by a user who holds [permission]. *)
Definition names (cfg : StorageSettings.t) (u : User.t) (permission : string)
           (key : string) (c : boto3.call) : Prop :=
  boto3.bucket_of c = StorageSettings.S3_BUCKET_NAME cfg
  /\ boto3.target_of c = key
  /\ has_permission u permission = true
  /\ user_can_access_path u key = true.

Definition permission_denied (permission : string) : exn :=
  HTTPException HTTP_403_FORBIDDEN ("Permission denied: " ++ permission) [].

Definition unauthenticated : exn :=
  HTTPException HTTP_401_UNAUTHORIZED "Authentication required" [].



(** Example users and storage settings. *)
Module DemoFiles.

Definition storage : StorageSettings.t :=
  StorageSettings.mk "AKIAEXAMPLE" "secret" "eu-west-1" "maxon-files"
                     ["application/pdf"; "image/png"].


Definition viewer : User.t := restricted_to VIEWER (Some "team/alpha").
Definition admin : User.t := restricted_to ADMIN (Some "team/alpha").
Definition report : files.upload := files.mk_upload "q3.pdf" (Some "application/pdf").

(** The store of [Demo.db1] after alice logged out. *)
Definition db1_out : Db := (AuthService.logout (Demo.T Demo.t1) Demo.db1).2.

End DemoFiles.


(** A file of a listing with folders: its key does not end in the
    separator, and its name is the end of the key after the last
    separator. *)
Definition file_of_tree (f : S3Client.tree_file) : Prop :=
  PyMore.endswith (S3Client.file_key f) "/" = false
  /\ Py.mem "/" (S3Client.filename f) = false
  /\ PyMore.endswith (S3Client.file_key f) (S3Client.filename f) = true
  /\ (S3Client.file_key f <> "" -> S3Client.filename f <> "").

(** A page of a listing with folders: up to 1000 keys under the listing
    prefix, grouped at the separator, from the start or from a
    continuation token that is not empty. *)
Definition page_of (bucket_name list_prefix : string) (c : boto3.call) : Prop :=
  exists token,
    c = boto3.list_objects_v2 bucket_name list_prefix (Some "/") 1000 token
    /\ token <> Some "".

(** ** [app/schemas/user.py] and [app/schemas/auth.py] *)

Module UserCreate.
Record t : Type := mk {
  email : string;
  full_name : option string;
  role : UserRole;
  is_active : bool;
  allowed_path_prefix : option string;
  password : string
}.
End UserCreate.

Module UserUpdate.
Record t : Type := mk {
  email : option string;
  full_name : option string;
  role : option UserRole;
  is_active : option bool;
  password : option string;
  allowed_path_prefix : option string;
  (** ["allowed_path_prefix" in user_in.model_fields_set]: the request
      gave the field, be it [null]. *)
  allowed_path_prefix_set : bool
}.
End UserUpdate.

Module SignupRequest.
Record t : Type := mk {
  email : string;
  password : string;
  full_name : option string
}.
End SignupRequest.

(** ** The users table *)

(** The column [users.email] is unique: a flush that would give two rows
    the same email fails.  [users.id] is the primary key. *)
Definition email_taken (self_id : Z) (email : string) (db : Db) : bool :=
  bool_decide (Exists (fun u => User.id u <> self_id /\ User.email u = email)
                      (users db)).

Definition id_taken (user_id : Z) (db : Db) : bool :=
  bool_decide (Exists (fun u => User.id u = user_id) (users db)).

(** Commit of a new user row.  Its [id] is the value that the sequence of
    the column hands out, an input of the operation like the clock. *)
Definition commit_new_user (user : User.t) : DbOp User.t :=
  fun db =>
    if id_taken (User.id user) db || email_taken (User.id user) (User.email user) db
    then (Raise IntegrityError, db)
    else (Return user,
          mkDb (users db ++ [user])%list (sessions db) (sessions_id_seq db)).

(** Commit of a changed user row. *)
Definition commit_user (user : User.t) : DbOp User.t :=
  fun db =>
    if email_taken (User.id user) (User.email user) db
    then (Raise IntegrityError, db)
    else (Return user,
          mkDb (map (fun u => if bool_decide (User.id u = User.id user)
                              then user else u) (users db))
               (sessions db) (sessions_id_seq db)).

(** ** [app/services/user_service.py] *)

Definition email_registered : exn :=
  HTTPException HTTP_409_CONFLICT "Email already registered" [].

Module UserService.
Section WithHasher.
(** [get_password_hash], from the salt that the hasher draws and the
    password. *)
Variable get_password_hash : string -> string -> string.

Definition get_user_by_id (user_id : Z) : DbOp (option User.t) :=
  select_user_by_id user_id.

Definition get_user_by_email (email : string) : DbOp (option User.t) :=
  select_user_by_email email.

Definition create_user (user_in : UserCreate.t) (salt : string) (new_id : Z)
  : DbOp User.t :=
  existing ← get_user_by_email (UserCreate.email user_in);
  match existing with
  | Some _ => raise email_registered
  | None =>
      let user :=
        User.mk new_id
                (UserCreate.email user_in)
                (get_password_hash salt (UserCreate.password user_in))
                (UserCreate.full_name user_in)
                (UserCreate.role user_in)
                (UserCreate.is_active user_in)
                (UserCreate.allowed_path_prefix user_in)
                None in
      commit_new_user user
  end.

(** [(user_in.allowed_path_prefix or "").strip() or None] *)
Definition stored_prefix (given : option string) : option string :=
  let stripped := Py.strip (Py.or_empty given) in
  if Py.truthy stripped then Some stripped else None.

(** The assignments of [update_user] after the one of the email. *)
Definition updated (user : User.t) (email : string) (user_in : UserUpdate.t)
           (salt : string) : User.t :=
  User.mk (User.id user)
          email
          (match UserUpdate.password user_in with
           | Some password => get_password_hash salt password
           | None => User.hashed_password user
           end)
          (match UserUpdate.full_name user_in with
           | Some full_name => Some full_name
           | None => User.full_name user
           end)
          (match UserUpdate.role user_in with
           | Some role => role
           | None => User.role user
           end)
          (match UserUpdate.is_active user_in with
           | Some is_active => is_active
           | None => User.is_active user
           end)
          (if UserUpdate.allowed_path_prefix_set user_in
           then stored_prefix (UserUpdate.allowed_path_prefix user_in)
           else User.allowed_path_prefix user)
          (User.last_login_at user).

Definition update_user (user : User.t) (user_in : UserUpdate.t) (salt : string)
  : DbOp User.t :=
  email ←
    match UserUpdate.email user_in with
    | Some email =>
        if negb (String.eqb email (User.email user))
        then
          existing ← get_user_by_email email;
          match existing with
          | Some existing =>
              if negb (User.id existing =? User.id user)%Z
              then raise email_registered
              else mret email
          | None => mret email
          end
        else mret (User.email user)
    | None => mret (User.email user)
    end;
  commit_user (updated user email user_in salt).

End WithHasher.
End UserService.

(** ** [signup] of [app/api/v1/auth.py] and [app/api/v1/users.py] *)

Module registration.
Section WithHasher.
Variable get_password_hash : string -> string -> string.

(** Public signup.  Role is always VIEWER (backend enforced). *)
Definition signup (signup_data : SignupRequest.t) (salt : string) (new_id : Z)
  : DbOp User.t :=
  UserService.create_user
    get_password_hash
    (UserCreate.mk (SignupRequest.email signup_data)
                   (SignupRequest.full_name signup_data)
                   VIEWER true None
                   (SignupRequest.password signup_data))
    salt new_id.

End WithHasher.
End registration.

Definition user_not_found : exn :=
  HTTPException HTTP_404_NOT_FOUND "User not found" [].

Module users.
Section WithHasher.
Variable get_password_hash : string -> string -> string.

(** A handler under [require_role]. *)
Definition guarded {A : Type} (guard : outcome User.t)
           (handler : User.t -> DbOp A) : DbOp A :=
  match guard with
  | Return user => handler user
  | Raise e => raise e
  end.

Definition create_user (user_in : UserCreate.t) (salt : string) (new_id : Z)
           (current_user : option User.t) : DbOp User.t :=
  guarded (require_role ["admin"] current_user) (fun _ =>
    UserService.create_user get_password_hash user_in salt new_id).

Definition get_user (user_id : Z) (current_user : option User.t)
  : DbOp User.t :=
  guarded (require_role ["admin"] current_user) (fun _ =>
    user ← UserService.get_user_by_id user_id;
    match user with
    | None => raise user_not_found
    | Some user => mret user
    end).

Definition update_user (user_id : Z) (user_in : UserUpdate.t) (salt : string)
           (current_user : option User.t) : DbOp User.t :=
  guarded (require_role ["admin"] current_user) (fun _ =>
    user ← UserService.get_user_by_id user_id;
    match user with
    | None => raise user_not_found
    | Some user => UserService.update_user get_password_hash user user_in salt
    end).

End WithHasher.
End users.

Definition role_required (roles : list string) : exn :=
  HTTPException HTTP_403_FORBIDDEN ("Role required: " ++ join ", " roles) [].

(** The users table with the row of primary key [User.id user'] replaced
    by [user']. *)
Definition with_user (user' : User.t) (db : Db) : Db :=
  mkDb (map (fun u => if bool_decide (User.id u = User.id user')
                      then user' else u) (users db))
       (sessions db) (sessions_id_seq db).


Module DemoUsers.

(** A stand-in for the hasher that goes with [Demo.verify]. *)
Definition hash (salt password : string) : string := password.

Definition carol : SignupRequest.t :=
  SignupRequest.mk "c@x.com" "tr0ub4dor" (Some "Carol").

Definition root : User.t := restricted_to ADMIN None.

(** The store after carol signed up, with id 3. *)
Definition db_carol : Db := (registration.signup hash carol "salt" 3 Demo.db0).2.

(** Alice is deactivated while her session of [Demo.db1] is open. *)
Definition deactivate : UserUpdate.t :=
  UserUpdate.mk None None None (Some false) None None false.

Definition alice1 : User.t :=
  User.mk 1 "a@x.com" "secret" None VIEWER true None (Some Demo.t1).

Definition db1_off : Db :=
  (UserService.update_user hash alice1 deactivate "salt" Demo.db1).2.


End DemoUsers.

(** ** [app/services/analytics_service.py] and [get_stats] of
       [app/api/v1/analytics.py] *)

Module PyText.

(** [c in s] for a character [c] is [Py.mem c s]. *)

(** [s.rsplit(sep, 1)] for a separator of one character: the string cut
    at the last separator. *)
Fixpoint rsplit1 (sep : ascii) (s : string) : list string :=
  match s with
  | EmptyString => [EmptyString]
  | String c s' =>
      match rsplit1 sep s' with
      | [tail] =>
          if Ascii.eqb c sep then [EmptyString; tail] else [String c tail]
      | head :: rest => String c head :: rest
      | [] => [String c EmptyString]
      end
  end.

(** [c.lower()] on the code points below 256. *)
Definition lower_char (c : ascii) : ascii :=
  let n := nat_of_ascii c in
  if ((65 <=? n) && (n <=? 90) || (192 <=? n) && (n <=? 214)
      || (216 <=? n) && (n <=? 222))%nat
  then ascii_of_nat (n + 32)
  else c.

Fixpoint lower (s : string) : string :=
  match s with
  | EmptyString => EmptyString
  | String c s' => String (lower_char c) (lower s')
  end.

End PyText.

Module AnalyticsStats.
Record t : Type := mk {
  total_files : Z;
  total_bytes : Z;
  by_extension : gmap string Z;
  by_content_type : gmap string Z;
  refreshed : bool;
  cache_ttl_seconds : option Z;
  detail : option string
}.
End AnalyticsStats.

Module AnalyticsService.

Definition CACHE_KEY : string := "analytics:stats:v1".

(** A [setex]: key, time to live, value.  The value is the dictionary
    that [json.dumps] writes and [json.loads] reads back. *)
Record cache_write : Type := setex {
  written_key : string;
  written_ttl : Z;
  written_value : AnalyticsStats.t
}.

(** [key.rsplit(".", 1)[-1].lower() if "." in key else "none"] *)
Definition extension (key : string) : string :=
  if Py.mem "." key
  then PyText.lower (PyMore.last_of (PyText.rsplit1 "." key))
  else "none".

(** [by_extension[ext] += 1] on a [defaultdict(int)] *)
Definition count (by_extension : gmap string Z) (ext : string)
  : gmap string Z :=
  <[ext := default 0 (by_extension !! ext) + 1]> by_extension.

Definition sum (numbers : list Z) : Z := foldr Z.add 0 numbers.

Section WithSettings.
Variable cfg : StorageSettings.t.
(** [settings.REDIS_CACHE_TTL] *)
Variable REDIS_CACHE_TTL : Z.

(** [get_analytics], from what Redis replies: [cached] to the [get] of
    the cache key, which is asked unless [force_refresh] is set, and
    [ttl] to the [ttl] of the key, which is asked after a hit.  The
    result is the dictionary returned and the [setex] made, if any. *)
Definition get_analytics (force_refresh : bool)
           (cached : option AnalyticsStats.t) (ttl : Z)
  : S3 (AnalyticsStats.t * option cache_write) :=
  match (if negb force_refresh then cached else None) with
  | Some data =>
      mret (AnalyticsStats.mk (AnalyticsStats.total_files data)
                              (AnalyticsStats.total_bytes data)
                              (AnalyticsStats.by_extension data)
                              (AnalyticsStats.by_content_type data)
                              false (Some ttl)
                              (AnalyticsStats.detail data),
            None)
  | None =>
      match get_s3_client cfg with
      | inl message =>
          (* S3 not configured; return stable empty analytics instead of 500 *)
          mret (AnalyticsStats.mk 0 0 ∅ ∅ false None (Some message), None)
      | inr bucket_name =>
          files ← S3Client.list_files bucket_name "" 1000;
          let total_files := Z.of_nat (length files) in
          let total_bytes := sum (map S3Client.size files) in
          let by_extension :=
            foldl count ∅ (map (fun f => extension (S3Client.key f)) files) in
          let data :=
            AnalyticsStats.mk total_files total_bytes by_extension ∅
                              true (Some REDIS_CACHE_TTL) None in
          mret (data, Some (setex CACHE_KEY REDIS_CACHE_TTL data))
      end
  end.

End WithSettings.
End AnalyticsService.

Module analytics.
Section WithSettings.
Variable cfg : StorageSettings.t.
Variable REDIS_CACHE_TTL : Z.

Definition get_stats (force_refresh : bool)
           (cached : option AnalyticsStats.t) (ttl : Z)
           (current_user : option User.t)
  : S3 (response (AnalyticsStats.t * option AnalyticsService.cache_write)) :=
  files.guarded (require_permission "analytics:read" current_user) (fun _ =>
    result ← AnalyticsService.get_analytics cfg REDIS_CACHE_TTL
                                            force_refresh cached ttl;
    mret (Respond result)).

End WithSettings.
End analytics.

(** The sum of the counts of a histogram. *)
Definition counted (histogram : gmap string Z) : Z :=
  map_fold (fun _ n total => n + total) 0 histogram.

(** What a reply to [get_stats] that is computed anew looks like, with
    the cache write that goes with it. *)
Definition fresh_stats (REDIS_CACHE_TTL : Z)
           (r : AnalyticsStats.t * option AnalyticsService.cache_write) : Prop :=
  counted (AnalyticsStats.by_extension r.1) = AnalyticsStats.total_files r.1
  /\ 0 <= AnalyticsStats.total_files r.1
  /\ (forall ext, is_Some (AnalyticsStats.by_extension r.1 !! ext) ->
                  Py.mem "." ext = false)
  /\ AnalyticsStats.by_content_type r.1 = ∅
  /\ AnalyticsStats.refreshed r.1 = true
  /\ AnalyticsStats.cache_ttl_seconds r.1 = Some REDIS_CACHE_TTL
  /\ r.2 = Some (AnalyticsService.setex AnalyticsService.CACHE_KEY
                                        REDIS_CACHE_TTL r.1).

(** ** [app/api/v1/websocket.py] *)

Module websocket.

(** The text sent for a text received: one turn of the loop. *)
Definition reply (msg : string) : string :=
  if String.eqb (PyText.lower msg) "ping" then "pong" else msg.

(** The loop of [websocket_endpoint], from the texts received before the
    client disconnects: the texts sent, in order. *)
Definition websocket_endpoint (received : list string) : list string :=
  map reply received.

End websocket.

(** The text spells ping in some mix of upper and lower case. *)
Definition spells_ping (msg : string) : Prop :=
  exists p i n g,
    msg = String p (String i (String n (String g "")))
    /\ (p = "p" \/ p = "P")%char /\ (i = "i" \/ i = "I")%char
    /\ (n = "n" \/ n = "N")%char /\ (g = "g" \/ g = "G")%char.

(** * Properties *)

(** ** Strings *)

Lemma prefix_refl (s : string) : String.prefix s s = true.
Proof.
  induction s as [|c s IH]; simpl; [reflexivity|].
  destruct (ascii_dec c c); [exact IH|congruence].
Qed.

Lemma prefix_empty (s : string) : String.prefix "" s = true.
Proof. now destruct s. Qed.

Lemma append_nil (s : string) : "" ++ s = s.
Proof. reflexivity. Qed.

Lemma append_cons (c : ascii) (s1 s2 : string) :
  String c s1 ++ s2 = String c (s1 ++ s2).
Proof. reflexivity. Qed.

Lemma prefix_cons (a b : ascii) (s1 s2 : string) :
  String.prefix (String a s1) (String b s2)
  = Ascii.eqb a b && String.prefix s1 s2.
Proof.
  cbn [String.prefix].
  destruct (ascii_dec a b) as [->|Hne].
  - now rewrite Ascii.eqb_refl.
  - apply Ascii.eqb_neq in Hne. now rewrite Hne.
Qed.

Lemma eqb_or_startswith (path base : string) :
  String.eqb path base || Py.startswith path base = Py.startswith path base.
Proof.
  destruct (String.eqb_spec path base) as [->|_]; simpl; [|reflexivity].
  unfold Py.startswith. now rewrite prefix_refl.
Qed.

(** Below a separator boundary: equal, or a strict descendant. *)
Lemma startswith_boundary (a b : string) :
  Py.startswith (b ++ "/") (a ++ "/") = true
  <-> b = a \/ Py.startswith b (a ++ "/") = true.
Proof.
  unfold Py.startswith. revert b.
  induction a as [|x a IH]; intros [|y b];
    rewrite ?append_cons, ?append_nil, ?prefix_cons, ?prefix_empty,
      ?andb_true_r.
  - intuition.
  - intuition congruence.
  - destruct a; rewrite ?append_cons, ?append_nil; cbn [String.prefix];
      rewrite ?andb_false_r; intuition congruence.
  - destruct (Ascii.eqb_spec x y) as [->|Hne]; cbn [andb].
    + rewrite IH. intuition congruence.
    + intuition congruence.
Qed.

Lemma truthy_false (s : string) : Py.truthy s = false <-> s = "".
Proof.
  unfold Py.truthy. destruct (String.eqb_spec s ""); simpl; intuition congruence.
Qed.

Lemma truthy_true (s : string) : Py.truthy s = true <-> s <> "".
Proof.
  unfold Py.truthy. destruct (String.eqb_spec s ""); simpl; intuition congruence.
Qed.

Lemma strip_or_empty (R : string) : Py.strip (Py.or_empty (Some R)) = Py.strip R.
Proof. reflexivity. Qed.

(** ** Role permissions *)

Lemma value_not_admin (r : UserRole) :
  r <> ADMIN -> String.eqb (value r) "admin" = false.
Proof. destruct r; intros H; [congruence|reflexivity..]. Qed.

Lemma role_permissions_unknown (r : string) :
  (forall m : UserRole, r <> value m) -> ROLE_PERMISSIONS !! r = None.
Proof.
  intros H. unfold ROLE_PERMISSIONS.
  pose proof (H ADMIN). pose proof (H EDITOR).
  pose proof (H VIEWER). pose proof (H EXTERNAL_VIEWER). simpl in *.
  rewrite !lookup_insert_ne by congruence. apply lookup_empty.
Qed.

Lemma static_table_unknown (r : string) :
  (forall m : UserRole, r <> value m) -> static_table r = None.
Proof.
  intros H. unfold static_table.
  pose proof (H ADMIN). pose proof (H EDITOR).
  pose proof (H VIEWER). pose proof (H EXTERNAL_VIEWER). simpl in *.
  repeat match goal with
         | Hne : r <> _ |- _ => apply String.eqb_neq in Hne; rewrite Hne
         end.
  reflexivity.
Qed.

Lemma role_known_or_not (r : string) :
  (exists m : UserRole, r = value m) \/ (forall m : UserRole, r <> value m).
Proof.
  destruct (decide (r = "admin")); [left; now exists ADMIN|].
  destruct (decide (r = "editor")); [left; now exists EDITOR|].
  destruct (decide (r = "viewer")); [left; now exists VIEWER|].
  destruct (decide (r = "external_viewer")); [left; now exists EXTERNAL_VIEWER|].
  right. intros []; simpl; congruence.
Qed.

Lemma has_permission_role_permitted (r o : string) :
  has_permission_role r o = true <-> permitted r o.
Proof.
  destruct (role_known_or_not r) as [[m ->]|Hr].
  - destruct m; unfold has_permission_role, permitted; simpl;
      try (vm_compute; tauto); apply bool_decide_eq_true.
  - unfold has_permission_role, permitted.
    rewrite role_permissions_unknown, static_table_unknown by assumption.
    simpl. intuition congruence.
Qed.

(** C8. [has_permission] follows the static table: it answers true exactly
    when the role maps to the wildcard or the operation is in the role's
    set (admin: all; editor: read, write, delete, analytics read; viewer:
    read, analytics read; external viewer: read).  Admin is permitted every
    operation, and a role outside the closed set is permitted none. *)
Theorem has_permission_matches_table :
  (forall r o : string, has_permission_role r o = true <-> permitted r o)
  /\ (forall (u : User.t) (o : string),
        has_permission u o = true <-> permitted (value (User.role u)) o)
  /\ (forall o : string, has_permission_role "admin" o = true)
  /\ (forall r o : string,
        (forall m : UserRole, r <> value m) -> has_permission_role r o = false).
Proof.
  split; [exact has_permission_role_permitted|].
  split; [intros u o; apply has_permission_role_permitted|].
  split; [reflexivity|].
  intros r o Hr. unfold has_permission_role.
  now rewrite role_permissions_unknown.
Qed.

(** A role outside the closed set, and the admin wildcard. *)
Lemma has_permission_matches_table_witness :
  has_permission_role "superuser" "files:read" = false
  /\ has_permission_role "admin" "files:purge" = true.
Proof.
  split.
  - apply (proj2 (proj2 (proj2 has_permission_matches_table))).
    intros []; discriminate.
  - apply (proj1 (proj2 (proj2 has_permission_matches_table))).
Defined.

(** ** Path scoping *)

Lemma canonical_base_normalized (R : string) :
  canonical_base (Py.strip R) = normalized R ++ "/".
Proof. reflexivity. Qed.

Lemma direct_access_restricted (u : User.t) (R K : string) :
  User.role u <> ADMIN ->
  User.allowed_path_prefix u = Some R ->
  Py.strip R <> "" ->
  user_can_access_path u K
  = Py.startswith (normalized K ++ "/") (canonical_base (Py.strip R)).
Proof.
  intros Hrole HR Hne. unfold user_can_access_path.
  rewrite (value_not_admin _ Hrole), HR, strip_or_empty.
  apply truthy_true in Hne. rewrite Hne. cbn [negb].
  apply eqb_or_startswith.
Qed.

Lemma admin_direct_access (u : User.t) (K : string) :
  User.role u = ADMIN -> user_can_access_path u K = true.
Proof. intros H. unfold user_can_access_path. now rewrite H. Qed.

Lemma unrestricted_direct_access (u : User.t) (K : string) :
  Py.strip (Py.or_empty (User.allowed_path_prefix u)) = "" ->
  user_can_access_path u K = true.
Proof.
  intros H. unfold user_can_access_path. rewrite H.
  now destruct (String.eqb _ "admin").
Qed.

(** The listing scope does not look at the role. *)
Lemma effective_prefix_role_blind (u v : User.t) (P : string) :
  User.allowed_path_prefix u = User.allowed_path_prefix v ->
  _effective_prefix u P = _effective_prefix v P.
Proof. intros H. unfold _effective_prefix. now rewrite H. Qed.

(** C2, at an admin restricted to [team/alpha]: direct key access is not
    scoped, but listing is: a listing of [team/beta] is refused and a
    listing of the root is redirected to [team/alpha/], as for any other
    restricted user. *)
Theorem admin_listing_is_scoped :
  User.role (restricted_to ADMIN (Some "team/alpha")) = ADMIN
  /\ user_can_access_path (restricted_to ADMIN (Some "team/alpha")) "team/beta"
     = true
  /\ _effective_prefix (restricted_to ADMIN (Some "team/alpha")) "team/beta"
     = Raise access_denied
  /\ _effective_prefix (restricted_to ADMIN (Some "team/alpha")) ""
     = Return "team/alpha/"
  /\ _effective_prefix (restricted_to ADMIN None) "team/beta"
     = Return "team/beta".
Proof. repeat split; reflexivity. Qed.

(** C3 as written fails at a restriction of blanks only: it is not empty,
    the key [x] is not under its canonical base, and access is allowed. *)
Lemma blank_restriction_allows_any_key :
  User.role (restricted_to VIEWER (Some " ")) <> ADMIN
  /\ User.allowed_path_prefix (restricted_to VIEWER (Some " ")) = Some " "
  /\ " " <> ""
  /\ normalized "x" ++ "/" <> canonical_base " "
  /\ Py.startswith (normalized "x" ++ "/") (canonical_base " ") = false
  /\ user_can_access_path (restricted_to VIEWER (Some " ")) "x" = true.
Proof. repeat split; try reflexivity; discriminate. Qed.

(** C3, amended.  For a user who is not an admin and whose restriction [R]
    is not empty once surrounding blanks are trimmed, direct access to a
    key [K] is allowed iff the normalized key plus one separator equals or
    starts with the canonical base of the trimmed restriction; that is,
    iff the normalized key is the normalized restriction or lies strictly
    below it.  A restriction that is empty once trimmed restricts
    nothing: every key is allowed.  A restriction [a/b] allows [a/b] and
    [a/b/c] and denies [a/bc] and [a]. *)
Theorem direct_access_iff_under_base (u : User.t) (R K : string) :
  User.role u <> ADMIN ->
  User.allowed_path_prefix u = Some R ->
  (Py.strip R <> "" ->
   (user_can_access_path u K = true
    <-> normalized K ++ "/" = canonical_base (Py.strip R)
        \/ Py.startswith (normalized K ++ "/") (canonical_base (Py.strip R))
           = true)
   /\ (user_can_access_path u K = true
       <-> normalized K = normalized R
           \/ Py.startswith (normalized K) (normalized R ++ "/") = true))
  /\ (Py.strip R = "" -> user_can_access_path u K = true)
  /\ (R = "a/b" ->
      user_can_access_path u "a/b" = true
      /\ user_can_access_path u "a/b/c" = true
      /\ user_can_access_path u "a/bc" = false
      /\ user_can_access_path u "a" = false).
Proof.
  intros Hrole HR.
  pose proof (direct_access_restricted u R) as Hacc.
  split; [|split].
  - intros Hne. split.
    + rewrite Hacc by assumption. split; [now right|].
      intros [Heq|H]; [|exact H].
      rewrite Heq. apply prefix_refl.
    + rewrite Hacc, canonical_base_normalized by assumption.
      apply startswith_boundary.
  - intros Hblank. apply unrestricted_direct_access. now rewrite HR.
  - intros ->. rewrite !Hacc by (assumption || discriminate).
    repeat split; reflexivity.
Qed.

(** An editor restricted to [a/b], written with blanks and a trailing
    separator, and a key below it; a viewer whose restriction is one
    blank, and a key. *)
Lemma direct_access_iff_under_base_witness :
  (user_can_access_path (restricted_to EDITOR (Some " a/b/ ")) "a/b/c.txt" = true
   <-> normalized "a/b/c.txt" ++ "/" = canonical_base (Py.strip " a/b/ ")
       \/ Py.startswith (normalized "a/b/c.txt" ++ "/")
                        (canonical_base (Py.strip " a/b/ ")) = true)
  /\ user_can_access_path (restricted_to EDITOR (Some " a/b/ ")) "a/b/c.txt" = true
  /\ user_can_access_path (restricted_to VIEWER (Some " ")) "x" = true.
Proof.
  split; [|split; [reflexivity|]].
  - refine (proj1 (proj1 (direct_access_iff_under_base
                            (restricted_to EDITOR (Some " a/b/ ")) " a/b/ "
                            "a/b/c.txt" _ _) _));
      [discriminate|reflexivity|discriminate].
  - refine (proj1 (proj2 (direct_access_iff_under_base
                            (restricted_to VIEWER (Some " ")) " " "x" _ _)) _);
      [discriminate|reflexivity|reflexivity].
Defined.

(** C4 as written fails at the requested prefix [/]: it is not empty, and
    without its trailing separator and with one appended it does not start
    with the base, yet the listing is not refused but sent to the
    restriction root.  It fails too at a restriction of blanks only: the
    restriction is not empty, and the empty prefix is returned as it is,
    not replaced by the canonical base. *)
Lemma separator_only_prefix_not_refused :
  (User.allowed_path_prefix (restricted_to VIEWER (Some "team/alpha"))
   = Some "team/alpha"
   /\ "/" <> ""
   /\ Py.startswith (Py.rstrip "/" "/" ++ "/") (canonical_base "team/alpha")
      = false
   /\ _effective_prefix (restricted_to VIEWER (Some "team/alpha")) "/"
      = Return "team/alpha/")
  /\ (User.allowed_path_prefix (restricted_to VIEWER (Some " ")) = Some " "
      /\ " " <> ""
      /\ canonical_base " " = " /"
      /\ _effective_prefix (restricted_to VIEWER (Some " ")) "" = Return "").
Proof. repeat split; try reflexivity; discriminate. Qed.

Lemma effective_prefix_restricted (u : User.t) (R P : string) :
  User.allowed_path_prefix u = Some R ->
  Py.strip R <> "" ->
  _effective_prefix u P
  = if Py.truthy (normalized P)
       && negb (Py.startswith (normalized P ++ "/") (canonical_base (Py.strip R)))
    then Raise access_denied
    else if negb (Py.truthy (normalized P))
         then Return (canonical_base (Py.strip R))
         else Return P.
Proof.
  intros HR Hne. unfold _effective_prefix.
  rewrite HR, strip_or_empty.
  apply truthy_true in Hne. now rewrite Hne.
Qed.

(** A requested prefix at or below the base is listed as requested. *)
Lemma listing_within_base (u : User.t) (R P : string) :
  User.allowed_path_prefix u = Some R ->
  Py.strip R <> "" ->
  normalized P <> "" ->
  Py.startswith (normalized P ++ "/") (canonical_base (Py.strip R)) = true ->
  _effective_prefix u P = Return P.
Proof.
  intros HR Hne HP Hin. rewrite (effective_prefix_restricted u R P HR Hne).
  apply truthy_true in HP. now rewrite HP, Hin.
Qed.

(** C4, amended.  For a user whose restriction [R] is not empty once
    surrounding blanks are trimmed, with [B] the canonical base of the
    trimmed restriction, and a listing request for [P]: if [P] normalized
    (blanks and trailing separators stripped) is empty, the effective
    prefix is [B]; if it is not empty and with one separator appended does
    not start with [B], the request is refused with 403.  Restriction
    [team/alpha]: the empty prefix gives [team/alpha/], and [team/beta] is
    refused. *)
Theorem listing_scope (u : User.t) (R P : string) :
  User.allowed_path_prefix u = Some R ->
  Py.strip R <> "" ->
  (normalized P = "" ->
   _effective_prefix u P = Return (canonical_base (Py.strip R)))
  /\ (normalized P <> "" ->
      Py.startswith (normalized P ++ "/") (canonical_base (Py.strip R)) = false ->
      _effective_prefix u P = Raise access_denied)
  /\ (R = "team/alpha" ->
      _effective_prefix u "" = Return "team/alpha/"
      /\ _effective_prefix u "team/beta" = Raise access_denied).
Proof.
  intros HR Hne.
  pose proof (fun Q => effective_prefix_restricted u R Q HR Hne) as Hstep.
  repeat split.
  - intros HP. rewrite Hstep.
    apply truthy_false in HP. now rewrite HP.
  - intros HP Hout. rewrite Hstep.
    apply truthy_true in HP. now rewrite HP, Hout.
  - subst R. now rewrite Hstep.
  - subst R. now rewrite Hstep.
Qed.

(** A viewer restricted to [team/alpha/]: a blank root and a sibling. *)
Lemma listing_scope_witness :
  _effective_prefix (restricted_to VIEWER (Some "team/alpha/")) " / "
  = Return "team/alpha/"
  /\ _effective_prefix (restricted_to VIEWER (Some "team/alpha/")) "team/alphabet"
     = Raise access_denied.
Proof.
  assert (Hne : Py.strip "team/alpha/" <> "") by discriminate.
  pose proof (fun P => listing_scope (restricted_to VIEWER (Some "team/alpha/"))
                                     "team/alpha/" P eq_refl Hne) as H.
  split.
  - apply (proj1 (H " / ")). reflexivity.
  - apply (proj1 (proj2 (H "team/alphabet"))); [discriminate|reflexivity].
Defined.

(** ** Store operations *)

Lemma bind_run {A B : Type} (m : DbOp A) (k : A -> DbOp B) (db : Db) :
  (m ≫= k) db
  = match m db with
    | (Return a, db') => k a db'
    | (Raise e, db') => (Raise e, db')
    end.
Proof. reflexivity. Qed.

Lemma ret_run {A : Type} (a : A) (db : Db) :
  (mret a : DbOp A) db = (Return a, db).
Proof. reflexivity. Qed.

Ltac run := rewrite ?bind_run, ?ret_run.

Lemma get_session_by_token_row (tok : token) (s : Session.t) (db : Db) :
  matches_row tok s db ->
  AuthService.get_session_by_token tok db = (Return (Some s), db).
Proof.
  intros H. unfold AuthService.get_session_by_token, select_session_by_token.
  unfold matches_row in H. now rewrite H.
Qed.

Lemma get_session_by_token_none (tok : token) (db : Db) :
  Forall (fun r => Session.refresh_token r <> tok) (sessions db) ->
  AuthService.get_session_by_token tok db = (Return None, db).
Proof.
  intros H. unfold AuthService.get_session_by_token, select_session_by_token.
  destruct (filter _ (sessions db)) as [|r l] eqn:E; [reflexivity|].
  assert (Hr : r ∈ filter (fun r => Session.refresh_token r = tok) (sessions db))
    by (rewrite E; left).
  apply list_elem_of_filter in Hr as [Htok Hin].
  rewrite Forall_forall in H. now apply H in Hin.
Qed.

(** Once the matching row is deleted, no row carries the token. *)
Lemma without_session_no_match (tok : token) (s : Session.t) (db : Db) :
  matches_row tok s db ->
  Forall (fun r => Session.refresh_token r <> tok)
         (sessions (without_session s db)).
Proof.
  intros H. apply Forall_forall. intros r Hr Htok. cbn in Hr.
  apply list_elem_of_filter in Hr as [Hid Hin].
  assert (Hrs : r ∈ [s]).
  { rewrite <- H. apply list_elem_of_filter. now split. }
  apply list_elem_of_singleton in Hrs. now subst.
Qed.

(** Under the unique constraint a token matches at most one row. *)
Lemma unique_token_matches_row (tok : token) (s : Session.t) (l : list Session.t) :
  NoDup (Session.refresh_token <$> l) ->
  s ∈ l -> Session.refresh_token s = tok ->
  filter (fun r => Session.refresh_token r = tok) l = [s].
Proof.
  induction l as [|r l IH]; intros Hnd Hin Htok.
  - now apply elem_of_nil in Hin.
  - rewrite fmap_cons in Hnd. apply NoDup_cons in Hnd as [Hr Hnd].
    apply elem_of_cons in Hin as [->|Hin].
    + rewrite filter_cons_True by assumption. f_equal.
      destruct (filter _ l) as [|r' l'] eqn:E; [reflexivity|].
      assert (Hr' : r' ∈ filter (fun r => Session.refresh_token r = tok) l)
        by (rewrite E; left).
      apply list_elem_of_filter in Hr' as [Htok' Hin'].
      exfalso. apply Hr. rewrite Htok, <- Htok'.
      now apply list_elem_of_fmap_2.
    + rewrite filter_cons_False; [now apply IH|].
      intros Hrt. apply Hr. rewrite Hrt, <- Htok.
      now apply list_elem_of_fmap_2.
Qed.

Lemma refresh_guard_pass (settings : Settings.t) (tok : token) (now : Z) :
  verifies_as_refresh settings tok now ->
  let payload := Security.decode_token settings tok now in
  bool_decide (payload = None \/ payload = Some ∅
               \/ (payload ≫= lookup "type") <> Some (JStr "refresh")) = false.
Proof.
  intros (p & Hp & Htype). cbn zeta. rewrite Hp.
  apply bool_decide_eq_false. intros [H|[H|H]].
  - discriminate.
  - injection H as ->. now rewrite lookup_empty in Htype.
  - now apply H.
Qed.

Lemma refresh_guard_fail (settings : Settings.t) (tok : token) (now : Z) :
  Security.decode_token settings tok now = None
  \/ (exists payload,
        Security.decode_token settings tok now = Some payload
        /\ payload !! "type" <> Some (JStr "refresh")) ->
  let payload := Security.decode_token settings tok now in
  bool_decide (payload = None \/ payload = Some ∅
               \/ (payload ≫= lookup "type") <> Some (JStr "refresh")) = true.
Proof.
  intros H. cbn zeta. apply bool_decide_eq_true.
  destruct H as [->|(p & -> & Hp)]; [now left|]. now right; right.
Qed.

Lemma refresh_endpoint_invalid (settings : Settings.t) (tok : token) (now : Z)
      (db db' : Db) :
  AuthService.refresh_access_token settings tok now db = (Return None, db') ->
  auth.refresh_token settings tok now db
  = (Raise auth.invalid_refresh_token, db').
Proof. intros H. unfold auth.refresh_token. run. now rewrite H. Qed.

(** ** Tokens *)

Lemma normalize_sub_token_data (user : User.t) :
  Security.normalize_sub (AuthService.token_data user)
  = <["sub" := JStr (pretty (User.id user))]> (AuthService.token_data user).
Proof.
  unfold Security.normalize_sub, AuthService.token_data.
  rewrite lookup_insert_ne by discriminate.
  rewrite lookup_insert_ne by discriminate.
  now rewrite lookup_insert_eq.
Qed.

Lemma access_token_has_no_type (settings : Settings.t) (user : User.t)
      (delta : option Z) (issued : Z) :
  exists payload,
    Security.create_access_token settings (AuthService.token_data user)
                                 delta issued
    = JWT (Settings.ALGORITHM settings) (Settings.SECRET_KEY settings) payload
    /\ payload !! "type" = None.
Proof.
  eexists. split; [reflexivity|].
  rewrite normalize_sub_token_data. unfold AuthService.token_data.
  rewrite !lookup_insert_ne by discriminate. apply lookup_empty.
Qed.

Lemma decode_token_payload (settings : Settings.t) (alg key : string)
      (payload p : gmap string json) (now : Z) :
  Security.decode_token settings (JWT alg key payload) now = Some p ->
  p = payload.
Proof.
  unfold Security.decode_token, jwt.decode.
  destruct (_ && _); congruence.
Qed.

(** C6. A refresh call fails with an invalid result, and changes nothing,
    whenever the token does not verify or its claims lack type refresh; in
    particular every access token the application issues, whatever its
    lifetime and instant of issue, is rejected by refresh at any time. *)
Theorem refresh_rejects_non_refresh_tokens :
  (forall (settings : Settings.t) (tok : token) (now : Z) (db : Db),
      Security.decode_token settings tok now = None
      \/ (exists payload,
            Security.decode_token settings tok now = Some payload
            /\ payload !! "type" <> Some (JStr "refresh")) ->
      AuthService.refresh_access_token settings tok now db = (Return None, db)
      /\ auth.refresh_token settings tok now db
         = (Raise auth.invalid_refresh_token, db))
  /\ (forall (settings : Settings.t) (user : User.t) (delta : option Z)
             (issued now : Z) (db : Db),
         let tok := Security.create_access_token
                      settings (AuthService.token_data user) delta issued in
         AuthService.refresh_access_token settings tok now db = (Return None, db)
         /\ auth.refresh_token settings tok now db
            = (Raise auth.invalid_refresh_token, db)).
Proof.
  assert (Hfail : forall settings tok now db,
             Security.decode_token settings tok now = None
             \/ (exists payload,
                   Security.decode_token settings tok now = Some payload
                   /\ payload !! "type" <> Some (JStr "refresh")) ->
             AuthService.refresh_access_token settings tok now db
             = (Return None, db)).
  { intros settings tok now db H. unfold AuthService.refresh_access_token.
    now rewrite (refresh_guard_fail settings tok now H). }
  split.
  - intros settings tok now db H. split; [now apply Hfail|].
    apply refresh_endpoint_invalid. now apply Hfail.
  - intros settings user delta issued now db tok.
    assert (Hrej : AuthService.refresh_access_token settings tok now db
                   = (Return None, db)).
    { apply Hfail.
      destruct (access_token_has_no_type settings user delta issued)
        as (payload & Htok & Htype).
      fold tok in Htok.
      destruct (Security.decode_token settings tok now) as [p|] eqn:E;
        [right|now left].
      exists p. split; [reflexivity|].
      rewrite Htok in E. apply decode_token_payload in E. subst p.
      now rewrite Htype. }
    split; [exact Hrej|]. now apply refresh_endpoint_invalid.
Qed.

(** A string that is no token. *)
Lemma refresh_rejects_non_refresh_tokens_witness :
  AuthService.refresh_access_token Demo.cfg (Opaque "not-a-token") Demo.t2 Demo.db1
  = (Return None, Demo.db1).
Proof.
  apply (proj1 refresh_rejects_non_refresh_tokens
               Demo.cfg (Opaque "not-a-token") Demo.t2 Demo.db1).
  left. reflexivity.
Defined.

(** ** Refresh *)

(** The expiry of a loaded row cannot be compared with the clock. *)
Lemma expiry_check_raises (s : Session.t) (now : Z) :
  datetime_lt (Session.loaded_expires_at s) (utcnow now) = Raise TypeError.
Proof. reflexivity. Qed.

(** A refresh call runs the token check and the session lookup, and stops
    at the expiry check of the row found. *)
Lemma refresh_run (settings : Settings.t) (tok : token) (now : Z) (db : Db) :
  AuthService.refresh_access_token settings tok now db
  = (if bool_decide
          (Security.decode_token settings tok now = None
           \/ Security.decode_token settings tok now = Some ∅
           \/ (Security.decode_token settings tok now ≫= lookup "type")
              <> Some (JStr "refresh"))
     then Return None
     else
       match scalar_one_or_none
               (filter (fun r => Session.refresh_token r = tok) (sessions db)) with
       | Return None => Return None
       | Return (Some _) => Raise TypeError
       | Raise e => Raise e
       end,
     db).
Proof.
  unfold AuthService.refresh_access_token.
  destruct (bool_decide _); [reflexivity|].
  unfold AuthService.get_session_by_token, select_session_by_token.
  rewrite bind_run.
  destruct (scalar_one_or_none _) as [[s|]|e]; reflexivity.
Qed.

Lemma refresh_store_unchanged (settings : Settings.t) (tok : token) (now : Z)
      (db : Db) :
  (AuthService.refresh_access_token settings tok now db).2 = db.
Proof. now rewrite refresh_run. Qed.


Lemma refresh_endpoint_raises (settings : Settings.t) (tok : token) (now : Z)
      (db db' : Db) (e : exn) :
  AuthService.refresh_access_token settings tok now db = (Raise e, db') ->
  auth.refresh_token settings tok now db = (Raise e, db').
Proof. intros H. unfold auth.refresh_token. run. now rewrite H. Qed.

Section Refresh.
Variable settings : Settings.t.
Variables (tok : token) (now : Z) (db : Db) (s : Session.t).
Hypothesis Hverifies : verifies_as_refresh settings tok now.
Hypothesis Hrow : matches_row tok s db.

(** After the token check and the session lookup, the refresh ends in
    the error of the expiry check, whatever the row found. *)
Lemma refresh_at_row :
  AuthService.refresh_access_token settings tok now db = (Raise TypeError, db).
Proof.
  rewrite refresh_run.
  rewrite (refresh_guard_pass settings tok now Hverifies).
  unfold matches_row in Hrow. now rewrite Hrow.
Qed.

Lemma matched_row_in_store : s ∈ sessions db.
Proof.
  assert (Hin : s ∈ filter (fun r => Session.refresh_token r = tok) (sessions db))
    by (unfold matches_row in Hrow; rewrite Hrow; left).
  now apply list_elem_of_filter in Hin.
Qed.

End Refresh.

(** C5. A refresh call whose token verifies with type refresh and matches
    a session row with [expires_at] before the current time neither
    returns the invalid result nor deletes the row: comparing the
    [expires_at] loaded from the store, an aware value, with
    [datetime.utcnow()], a naive one, raises [TypeError]; the service and
    the endpoint end in that error, the store is as before, the row is
    still in it and a lookup of the token still finds it. *)
Theorem refresh_of_expired_session_raises
        (settings : Settings.t) (tok : token) (now : Z) (db : Db)
        (s : Session.t) :
  verifies_as_refresh settings tok now ->
  matches_row tok s db ->
  Session.expires_at s < now ->
  datetime_lt (Session.loaded_expires_at s) (utcnow now) = Raise TypeError
  /\ AuthService.refresh_access_token settings tok now db
     = (Raise TypeError, db)
  /\ auth.refresh_token settings tok now db = (Raise TypeError, db)
  /\ s ∈ sessions db
  /\ AuthService.get_session_by_token tok db = (Return (Some s), db).
Proof.
  intros Hv Hrow _.
  pose proof (refresh_at_row settings tok now db s Hv Hrow) as Href.
  split; [apply expiry_check_raises|]. split; [exact Href|]. split; [|split].
  - now apply refresh_endpoint_raises.
  - exact (matched_row_in_store tok db s Hrow).
  - now apply get_session_by_token_row.
Qed.

(** The session of [Demo.db1], 0.3 s after its expiry. *)
Lemma refresh_of_expired_session_raises_witness :
  AuthService.refresh_access_token Demo.cfg (Demo.T Demo.t1) Demo.t5 Demo.db1
  = (Raise TypeError, Demo.db1)
  /\ Session.mk 1 1 (Demo.T Demo.t1) 1700604800200000 Demo.t1
     ∈ sessions Demo.db1.
Proof.
  pose proof (refresh_of_expired_session_raises
                Demo.cfg (Demo.T Demo.t1) Demo.t5 Demo.db1
                (Session.mk 1 1 (Demo.T Demo.t1) 1700604800200000 Demo.t1))
    as H.
  destruct H as (_ & Href & _ & Hin & _).
  - eexists. split; vm_compute; reflexivity.
  - vm_compute. reflexivity.
  - vm_compute. reflexivity.
  - split; [exact Href|exact Hin].
Defined.

(** C9. A refresh call whose token verifies as type refresh and matches an
    unexpired session row, but whose owning user is absent from the store
    or inactive, leaves the store, and with it the session row, its token
    and its expiry, as they were, but does not return the invalid result:
    the expiry check before the user lookup raises [TypeError], and the
    service and the endpoint end in that error. *)
Theorem refresh_without_active_user_raises
        (settings : Settings.t) (tok : token) (now : Z) (db : Db)
        (s : Session.t) :
  verifies_as_refresh settings tok now ->
  matches_row tok s db ->
  ~ (Session.expires_at s < now) ->
  filter (fun u => User.id u = Session.user_id s) (users db) = []
  \/ (exists user,
        filter (fun u => User.id u = Session.user_id s) (users db) = [user]
        /\ User.is_active user = false) ->
  AuthService.refresh_access_token settings tok now db = (Raise TypeError, db)
  /\ auth.refresh_token settings tok now db = (Raise TypeError, db)
  /\ s ∈ sessions db
  /\ AuthService.get_session_by_token tok db = (Return (Some s), db).
Proof.
  intros Hv Hrow _ _.
  pose proof (refresh_at_row settings tok now db s Hv Hrow) as Href.
  split; [exact Href|]. split; [|split].
  - now apply refresh_endpoint_raises.
  - exact (matched_row_in_store tok db s Hrow).
  - now apply get_session_by_token_row.
Qed.

(** The session of [Demo.db1] after its user was deactivated, and after
    its user was removed. *)
Lemma refresh_without_active_user_raises_witness :
  AuthService.refresh_access_token Demo.cfg (Demo.T Demo.t1) Demo.t4
                                   Demo.db1_deactivated
  = (Raise TypeError, Demo.db1_deactivated)
  /\ AuthService.refresh_access_token Demo.cfg (Demo.T Demo.t1) Demo.t4
                                      Demo.db1_removed
     = (Raise TypeError, Demo.db1_removed).
Proof.
  split.
  - refine (proj1 (refresh_without_active_user_raises
                     Demo.cfg (Demo.T Demo.t1) Demo.t4 Demo.db1_deactivated
                     (Session.mk 1 1 (Demo.T Demo.t1) 1700604800200000 Demo.t1)
                     _ _ _ _)).
    + eexists. split; vm_compute; reflexivity.
    + vm_compute. reflexivity.
    + vm_compute. discriminate.
    + right. eexists. split; vm_compute; reflexivity.
  - refine (proj1 (refresh_without_active_user_raises
                     Demo.cfg (Demo.T Demo.t1) Demo.t4 Demo.db1_removed
                     (Session.mk 1 1 (Demo.T Demo.t1) 1700604800200000 Demo.t1)
                     _ _ _ _)).
    + eexists. split; vm_compute; reflexivity.
    + vm_compute. reflexivity.
    + vm_compute. discriminate.
    + left. vm_compute. reflexivity.
Defined.

(** ** Logout *)

Lemma logout_run (tok : token) (db : Db) :
  AuthService.logout tok db
  = match scalar_one_or_none
            (filter (fun r => Session.refresh_token r = tok) (sessions db)) with
    | Return None => (Return false, db)
    | Return (Some s) => (Return true, without_session s db)
    | Raise e => (Raise e, db)
    end.
Proof.
  unfold AuthService.logout, AuthService.get_session_by_token,
    select_session_by_token.
  run. now destruct (scalar_one_or_none _) as [[r|]|e].
Qed.

(** Deleting by primary key removes the row and no other. *)
Lemma without_session_rows (s : Session.t) (db : Db) :
  NoDup (Session.id <$> sessions db) ->
  s ∈ sessions db ->
  forall r, r ∈ sessions (without_session s db) <-> r ∈ sessions db /\ r <> s.
Proof.
  intros Hnd Hs r. cbn. rewrite list_elem_of_filter. split.
  - intros [Hid Hr]. split; [exact Hr|]. intros ->. now apply Hid.
  - intros [Hr Hne]. split; [|exact Hr]. intros Hid. apply Hne.
    destruct (list_elem_of_lookup_1 _ _ Hr) as [i Hi].
    destruct (list_elem_of_lookup_1 _ _ Hs) as [j Hj].
    assert (i = j) as ->.
    { eapply NoDup_lookup; [exact Hnd|..].
      - rewrite list_lookup_fmap, Hi. reflexivity.
      - rewrite list_lookup_fmap, Hj. cbn. now rewrite Hid. }
    congruence.
Qed.

(** C10. Logout decides by exact match of the presented string against
    the stored session tokens and by nothing else: the string is not
    decoded, so neither its signature, its type nor its expiry plays a
    part.  With the stored tokens unique, if a row holds exactly that
    string logout returns true and deletes the row; if none does it
    returns false and leaves the store unchanged. *)
Theorem logout_by_exact_match (tok : token) (db : Db) :
  NoDup (Session.refresh_token <$> sessions db) ->
  (forall s : Session.t,
      s ∈ sessions db -> Session.refresh_token s = tok ->
      AuthService.logout tok db = (Return true, without_session s db)
      /\ (s ∉ sessions (without_session s db))
      /\ Forall (fun r => Session.refresh_token r <> tok)
                (sessions (without_session s db))
      /\ (NoDup (Session.id <$> sessions db) ->
          forall r, r ∈ sessions (without_session s db)
                    <-> r ∈ sessions db /\ r <> s))
  /\ (Forall (fun r => Session.refresh_token r <> tok) (sessions db) ->
      AuthService.logout tok db = (Return false, db))
  /\ ((AuthService.logout tok db).1 = Return true
      <-> exists s, s ∈ sessions db /\ Session.refresh_token s = tok)
  /\ ((AuthService.logout tok db).1 = Return false
      <-> Forall (fun r => Session.refresh_token r <> tok) (sessions db)).
Proof.
  intros Hnd.
  assert (Hhit : forall s, s ∈ sessions db -> Session.refresh_token s = tok ->
                           AuthService.logout tok db
                           = (Return true, without_session s db)).
  { intros s Hin Htok. rewrite logout_run.
    now rewrite (unique_token_matches_row tok s _ Hnd Hin Htok). }
  assert (Hmiss : Forall (fun r => Session.refresh_token r <> tok) (sessions db) ->
                  AuthService.logout tok db = (Return false, db)).
  { intros Hall. rewrite logout_run.
    pose proof (get_session_by_token_none tok db Hall) as Hnone.
    unfold AuthService.get_session_by_token, select_session_by_token in Hnone.
    injection Hnone as ->. reflexivity. }
  split; [|split; [exact Hmiss|split]].
  - intros s Hin Htok.
    pose proof (unique_token_matches_row tok s _ Hnd Hin Htok) as Hrow.
    split; [now apply Hhit|]. split; [|split].
    + cbn. intros H. apply list_elem_of_filter in H as [Hid _]. now apply Hid.
    + now apply without_session_no_match.
    + intros Hpk. now apply without_session_rows.
  - split.
    + intros Htrue.
      destruct (decide (Exists (fun r => Session.refresh_token r = tok)
                               (sessions db))) as [Hex|Hnex].
      * now apply Exists_exists in Hex.
      * apply (not_Exists_Forall _) in Hnex.
        rewrite Hmiss in Htrue by exact Hnex. discriminate.
    + intros (s & Hin & Htok). now rewrite (Hhit s Hin Htok).
  - split.
    + intros Hfalse.
      destruct (decide (Exists (fun r => Session.refresh_token r = tok)
                               (sessions db))) as [Hex|Hnex].
      * apply Exists_exists in Hex as (s & Hin & Htok).
        rewrite (Hhit s Hin Htok) in Hfalse. discriminate.
      * now apply (not_Exists_Forall _) in Hnex.
    + intros Hall. now rewrite Hmiss.
Qed.

(** A stored string that was never signed and whose row expired long
    ago logs out; a well-formed token that is not stored does not. *)
Lemma logout_by_exact_match_witness :
  AuthService.logout (Opaque "never-signed") Demo.db_stale
  = (Return true, mkDb (users Demo.db_stale) [] 4)
  /\ AuthService.logout (Demo.T Demo.t1) Demo.db_stale
     = (Return false, Demo.db_stale).
Proof.
  assert (Hnd : NoDup (Session.refresh_token <$> sessions Demo.db_stale)).
  { apply NoDup_singleton. }
  pose proof (logout_by_exact_match (Opaque "never-signed") Demo.db_stale Hnd)
    as Hstale.
  pose proof (logout_by_exact_match (Demo.T Demo.t1) Demo.db_stale Hnd)
    as Hfresh.
  split.
  - apply (proj1 Hstale (Session.mk 4 1 (Opaque "never-signed") 1000000 0)).
    + left.
    + reflexivity.
  - apply (proj1 (proj2 Hfresh)).
    repeat constructor. discriminate.
Defined.

(** ** Login *)

Lemma authenticate_user_failure (verify_password : string -> string -> bool)
      (db : Db) (email password : string) :
  login_failure verify_password db email password ->
  AuthService.authenticate_user verify_password email password db
  = (Return None, db).
Proof.
  unfold AuthService.authenticate_user, select_user_by_email. run.
  intros [Hnone|user Huser Hpw|user Huser Hpw Hinactive].
  - now rewrite Hnone.
  - rewrite Huser. cbn. now rewrite Hpw.
  - rewrite Huser. cbn. now rewrite Hpw, Hinactive.
Qed.

Lemma login_failure_result (settings : Settings.t)
      (verify_password : string -> string -> bool)
      (db : Db) (email password : string) (now : Z) :
  login_failure verify_password db email password ->
  auth.login settings verify_password email password now db
  = (Raise auth.invalid_credentials, db).
Proof.
  intros H. unfold auth.login. run.
  now rewrite (authenticate_user_failure _ _ _ _ H).
Qed.

(** C7. Login failure is cause-masked: whichever of the three causes
    makes an attempt fail (unknown email, password mismatch, inactive
    user), the caller gets the same invalid-credentials failure, so any
    two failed attempts return identical results; the store is left as it
    was. *)
Theorem login_failure_is_masked (settings : Settings.t)
        (verify_password : string -> string -> bool)
        (db1 db2 : Db) (email1 password1 email2 password2 : string)
        (now1 now2 : Z) :
  login_failure verify_password db1 email1 password1 ->
  login_failure verify_password db2 email2 password2 ->
  (auth.login settings verify_password email1 password1 now1 db1).1
  = (auth.login settings verify_password email2 password2 now2 db2).1
  /\ auth.login settings verify_password email1 password1 now1 db1
     = (Raise auth.invalid_credentials, db1)
  /\ auth.login settings verify_password email2 password2 now2 db2
     = (Raise auth.invalid_credentials, db2).
Proof.
  intros H1 H2.
  rewrite (login_failure_result settings _ _ _ _ now1 H1).
  rewrite (login_failure_result settings _ _ _ _ now2 H2).
  repeat split.
Qed.

(** An unknown email and a wrong password against an inactive user. *)
Lemma login_failure_is_masked_witness :
  (auth.login Demo.cfg Demo.verify "nobody@x.com" "secret" Demo.t1 Demo.db0).1
  = (auth.login Demo.cfg Demo.verify "b@x.com" "hunter2" Demo.t4 Demo.db1).1
  /\ (auth.login Demo.cfg Demo.verify "a@x.com" "wrong" Demo.t1 Demo.db0).1
     = (auth.login Demo.cfg Demo.verify "b@x.com" "hunter2" Demo.t4 Demo.db1).1.
Proof.
  assert (Hinactive : login_failure Demo.verify Demo.db1 "b@x.com" "hunter2").
  { apply (user_inactive _ _ _ _ Demo.bob); reflexivity. }
  split.
  - apply (login_failure_is_masked Demo.cfg Demo.verify Demo.db0 Demo.db1);
      [|exact Hinactive].
    apply no_such_user. reflexivity.
  - apply (login_failure_is_masked Demo.cfg Demo.verify Demo.db0 Demo.db1);
      [|exact Hinactive].
    apply (password_mismatch _ _ _ _ Demo.alice); reflexivity.
Defined.

(** ** Refresh after a login *)

Lemma refresh_guard_inv (settings : Settings.t) (tok : token) (now : Z) :
  let payload := Security.decode_token settings tok now in
  bool_decide (payload = None \/ payload = Some ∅
               \/ (payload ≫= lookup "type") <> Some (JStr "refresh")) = false ->
  verifies_as_refresh settings tok now.
Proof.
  cbn zeta. intros H. apply bool_decide_eq_false in H.
  destruct (Security.decode_token settings tok now) as [p|] eqn:E.
  - exists p. split; [exact E|].
    destruct (decide (p !! "type" = Some (JStr "refresh"))) as [Ht|Ht];
      [exact Ht|].
    exfalso. apply H. right; right. exact Ht.
  - exfalso. apply H. now left.
Qed.

Lemma scalar_one_or_none_some {A : Type} (rows : list A) (r : A) :
  scalar_one_or_none rows = Return (Some r) -> rows = [r].
Proof. destruct rows as [|a [|b l]]; cbn; congruence. Qed.



Lemma timegm_mono (a b : Z) : a <= b -> timegm a <= timegm b.
Proof. intros H. unfold timegm. apply Z.div_le_mono; lia. Qed.

Ltac lookup_claims :=
  repeat first [ rewrite lookup_insert_eq
               | rewrite lookup_insert_ne by discriminate
               | rewrite lookup_empty ].

(** A refresh token of the application verifies, with type refresh, up to
    the instant its [exp] claim was computed from. *)
Lemma refresh_token_verifies (settings : Settings.t) (user : User.t)
      (issued later : Z) :
  later <= issued + timedelta_days (Settings.REFRESH_TOKEN_EXPIRE_DAYS settings) ->
  verifies_as_refresh
    settings
    (Security.create_refresh_token settings (AuthService.token_data user) issued)
    later.
Proof.
  intros Hlater. eexists. split.
  - unfold Security.decode_token, Security.create_refresh_token, jwt.encode,
      jwt.decode.
    rewrite bool_decide_eq_true_2 by (apply list_elem_of_singleton; reflexivity).
    rewrite bool_decide_eq_true_2 by reflexivity.
    rewrite normalize_sub_token_data.
    unfold jwt.validate_claims, jwt._validate_iat, jwt._validate_nbf,
      jwt._validate_exp, jwt._validate_aud, jwt._validate_iss,
      jwt._validate_sub, jwt._validate_jti, jwt._validate_at_hash,
      AuthService.token_data.
    lookup_claims. cbn [jwt.as_int].
    rewrite bool_decide_eq_true_2 by eauto.
    apply timegm_mono in Hlater.
    rewrite (proj2 (Z.ltb_nlt _ _)) by lia.
    reflexivity.
  - apply lookup_insert_eq.
Qed.

Lemma token_taken_false (self_id : Z) (tok : token) (db : Db) :
  token_taken self_id tok db = false ->
  Forall (fun r => Session.id r <> self_id -> Session.refresh_token r <> tok)
         (sessions db).
Proof.
  unfold token_taken. intros H. apply bool_decide_eq_false in H.
  apply Forall_forall. intros r Hr Hid Htok. apply H.
  apply Exists_exists. exists r. now repeat split.
Qed.

(** * Further properties *)

(** ** Every refresh *)

(** X1. What a refresh call does, whatever the token, the instant and
    the store.  The store is never changed.  A token that does not
    verify with type refresh, or that no session row holds, gets the
    invalid result, a 401 from the endpoint.  A token that verifies and
    is held by exactly one row ends the call in [TypeError], raised by
    the expiry check; one held by several rows ends it in
    [MultipleResultsFound], which a store that meets the unique
    constraint on tokens rules out. *)
Theorem refresh_outcomes
        (settings : Settings.t) (tok : token) (now : Z) (db : Db) :
  (AuthService.refresh_access_token settings tok now db).2 = db
  /\ (~ verifies_as_refresh settings tok now
      \/ filter (fun r => Session.refresh_token r = tok) (sessions db) = [] ->
      AuthService.refresh_access_token settings tok now db = (Return None, db)
      /\ auth.refresh_token settings tok now db
         = (Raise auth.invalid_refresh_token, db))
  /\ (verifies_as_refresh settings tok now ->
      (forall s,
          filter (fun r => Session.refresh_token r = tok) (sessions db) = [s] ->
          AuthService.refresh_access_token settings tok now db
          = (Raise TypeError, db)
          /\ auth.refresh_token settings tok now db = (Raise TypeError, db))
      /\ ((2 <= length (filter (fun r => Session.refresh_token r = tok)
                               (sessions db)))%nat ->
          AuthService.refresh_access_token settings tok now db
          = (Raise MultipleResultsFound, db)
          /\ auth.refresh_token settings tok now db
             = (Raise MultipleResultsFound, db)))
  /\ (NoDup (Session.refresh_token <$> sessions db) ->
      (length (filter (fun r => Session.refresh_token r = tok) (sessions db))
       <= 1)%nat).
Proof.
  split; [apply refresh_store_unchanged|]. split; [|split].
  - intros H.
    assert (Href : AuthService.refresh_access_token settings tok now db
                   = (Return None, db)).
    { rewrite refresh_run.
      destruct (bool_decide _) eqn:Hguard; [reflexivity|].
      apply refresh_guard_inv in Hguard.
      destruct H as [H| ->]; [contradiction|reflexivity]. }
    split; [exact Href|]. now apply refresh_endpoint_invalid.
  - intros Hv. split.
    + intros s Hrow.
      pose proof (refresh_at_row settings tok now db s Hv Hrow) as Href.
      split; [exact Href|]. now apply refresh_endpoint_raises.
    + intros Hlen.
      assert (Href : AuthService.refresh_access_token settings tok now db
                     = (Raise MultipleResultsFound, db)).
      { rewrite refresh_run, (refresh_guard_pass settings tok now Hv).
        destruct (filter _ (sessions db)) as [|a [|b l]]; cbn in Hlen;
          [lia|lia|reflexivity]. }
      split; [exact Href|]. now apply refresh_endpoint_raises.
  - intros Hnd.
    destruct (filter (fun r => Session.refresh_token r = tok) (sessions db))
      as [|a [|b l]] eqn:Hrows; cbn; [lia|lia|exfalso].
    assert (Ha : a ∈ filter (fun r => Session.refresh_token r = tok) (sessions db))
      by (rewrite Hrows; left).
    apply list_elem_of_filter in Ha as [Hat Ha].
    pose proof (unique_token_matches_row tok a (sessions db) Hnd Ha Hat) as Hone.
    rewrite Hrows in Hone. discriminate.
Qed.

(** ** The store across login, refresh and logout *)

(** [user] with its last login set, as the login handler hands it to
    [create_session]. *)
Lemma login_authenticated (settings : Settings.t)
      (verify_password : string -> string -> bool)
      (email password : string) (now : Z) (db : Db) (user : User.t) :
  filter (fun u => User.email u = email) (users db) = [user] ->
  verify_password password (User.hashed_password user) = true ->
  User.is_active user = true ->
  auth.login settings verify_password email password now db
  = let user' :=
      User.mk (User.id user) (User.email user) (User.hashed_password user)
              (User.full_name user) (User.role user) (User.is_active user)
              (User.allowed_path_prefix user) (Some now) in
    let tok :=
      Security.create_refresh_token settings (AuthService.token_data user) now in
    if token_taken (sessions_id_seq db + 1) tok db
    then (Raise IntegrityError,
          mkDb (users db) (sessions db) (sessions_id_seq db + 1))
    else
      (Return (Tokens.mk
                 (Security.create_access_token
                    settings (AuthService.token_data user) None now)
                 tok "bearer"),
       mkDb (map (fun u => if bool_decide (User.id u = User.id user)
                           then user' else u) (users db))
            (sessions db
               ++ [Session.mk (sessions_id_seq db + 1) (User.id user) tok
                              (refresh_expiry settings now) now])
            (sessions_id_seq db + 1)).
Proof.
  intros Hrow Hpw Hactive.
  unfold auth.login, AuthService.authenticate_user, select_user_by_email.
  rewrite !bind_run, Hrow. cbn [scalar_one_or_none].
  rewrite Hpw, Hactive. cbn [negb]. rewrite ret_run, bind_run.
  unfold AuthService.create_session, commit_new_session. cbn zeta.
  change (AuthService.token_data (User.mk _ _ _ _ _ _ _ _))
    with (AuthService.token_data user).
  cbn [User.id]. fold (refresh_expiry settings now).
  cbn zeta. rewrite ?Hactive.
  destruct (token_taken _ _ db); reflexivity.
Qed.

(** Every way a login ends. *)
Lemma login_cases (settings : Settings.t)
      (verify_password : string -> string -> bool)
      (email password : string) (now : Z) (db : Db) :
  auth.login settings verify_password email password now db
  = (Raise auth.invalid_credentials, db)
  \/ auth.login settings verify_password email password now db
     = (Raise MultipleResultsFound, db)
  \/ exists user,
       filter (fun u => User.email u = email) (users db) = [user]
       /\ verify_password password (User.hashed_password user) = true
       /\ User.is_active user = true.
Proof.
  destruct (filter (fun u => User.email u = email) (users db))
    as [|user [|user2 rest]] eqn:Hrows.
  - left. apply login_failure_result. now apply no_such_user.
  - destruct (verify_password password (User.hashed_password user)) eqn:Hpw.
    + destruct (User.is_active user) eqn:Hactive.
      * right; right. now exists user.
      * left. apply login_failure_result.
        now apply (user_inactive _ _ _ _ user).
    + left. apply login_failure_result.
      now apply (password_mismatch _ _ _ _ user).
  - right; left.
    unfold auth.login, AuthService.authenticate_user, select_user_by_email.
    now rewrite !bind_run, Hrows.
Qed.

Lemma logout_cases (tok : token) (db : Db) :
  AuthService.logout tok db = (Return false, db)
  \/ (exists e, AuthService.logout tok db = (Raise e, db))
  \/ (exists s, matches_row tok s db
                /\ AuthService.logout tok db = (Return true, without_session s db)).
Proof.
  rewrite logout_run.
  destruct (scalar_one_or_none _) as [[s|]|e] eqn:Hrows.
  - apply scalar_one_or_none_some in Hrows. right; right. now exists s.
  - now left.
  - right; left. now exists e.
Qed.

(** X5. A request that ends in an exception has changed no row: a login
    stores its session and the login time together or not at all, and a
    refresh or logout that raises leaves the store as it was.  The one
    trace a refused login leaves is in the sequence of session ids: the
    id drawn for a row that the unique constraint on tokens refuses
    stays drawn. *)
Theorem raising_request_changes_no_row
        (settings : Settings.t) (verify_password : string -> string -> bool)
        (db : Db) :
  (forall email password now e,
      (auth.login settings verify_password email password now db).1 = Raise e ->
      users (auth.login settings verify_password email password now db).2
      = users db
      /\ sessions (auth.login settings verify_password email password now db).2
         = sessions db
      /\ (e <> IntegrityError ->
          (auth.login settings verify_password email password now db).2 = db)
      /\ (e = IntegrityError ->
          sessions_id_seq
            (auth.login settings verify_password email password now db).2
          = sessions_id_seq db + 1))
  /\ (forall tok now e,
         (AuthService.refresh_access_token settings tok now db).1 = Raise e ->
         (AuthService.refresh_access_token settings tok now db).2 = db)
  /\ (forall tok e,
         (AuthService.logout tok db).1 = Raise e ->
         (AuthService.logout tok db).2 = db).
Proof.
  split; [|split].
  - intros email password now e.
    destruct (login_cases settings verify_password email password now db)
      as [->|[->|(user & Hrow & Hpw & Hactive)]].
    + cbn [fst snd]. intros [= <-]. repeat split. discriminate.
    + cbn [fst snd]. intros [= <-]. repeat split. discriminate.
    + rewrite (login_authenticated _ _ _ _ _ _ user Hrow Hpw Hactive). cbn zeta.
      destruct (token_taken _ _ db); [|discriminate].
      cbn [fst snd]. intros [= <-]. repeat split. now intros H.
  - intros tok now e _. apply refresh_store_unchanged.
  - intros tok e.
    destruct (logout_cases tok db) as [->|[[e' ->]|(s & _ & ->)]];
      try reflexivity; discriminate.
Qed.

Lemma NoDup_fmap_same {A B : Type} (f : A -> B) (l : list A) (x y : A) :
  NoDup (f <$> l) -> x ∈ l -> y ∈ l -> f x = f y -> x = y.
Proof.
  intros Hnd Hx Hy Hf.
  destruct (list_elem_of_lookup_1 _ _ Hx) as [i Hi].
  destruct (list_elem_of_lookup_1 _ _ Hy) as [j Hj].
  assert (i = j) as ->.
  { eapply NoDup_lookup; [exact Hnd|..].
    - rewrite list_lookup_fmap, Hi. reflexivity.
    - rewrite list_lookup_fmap, Hj. cbn. now rewrite Hf. }
  congruence.
Qed.

(** Replacing rows by rows with the same value of a column leaves the
    column as it was. *)
Lemma fmap_replace_same {A B : Type} (f : A -> B) (P : A -> Prop)
      `{forall x, Decision (P x)} (x' : A) (l : list A) :
  (forall x, x ∈ l -> P x -> f x' = f x) ->
  f <$> map (fun x => if bool_decide (P x) then x' else x) l = f <$> l.
Proof.
  induction l as [|x l IH]; intros Hsame; [reflexivity|].
  cbn [map]. rewrite !fmap_cons. f_equal.
  - case_bool_decide as HP; [|reflexivity]. apply Hsame; [left|exact HP].
  - apply IH. intros y Hy. apply Hsame. now right.
Qed.

Lemma NoDup_fmap_filter {A B : Type} (f : A -> B) (P : A -> Prop)
      `{forall x, Decision (P x)} (l : list A) :
  NoDup (f <$> l) -> NoDup (f <$> filter P l).
Proof.
  intros Hnd. eapply sublist_NoDup; [exact Hnd|].
  apply fmap_sublist. now apply sublist_filter.
Qed.

Lemma without_session_ok (s : Session.t) (db : Db) :
  store_ok db -> store_ok (without_session s db).
Proof.
  intros [Huid Hemail Hsid Htok Hseq]. split; cbn.
  - exact Huid.
  - exact Hemail.
  - now apply NoDup_fmap_filter.
  - now apply NoDup_fmap_filter.
  - apply Forall_forall. intros r Hr.
    apply list_elem_of_filter in Hr as [_ Hr].
    rewrite Forall_forall in Hseq. now apply Hseq.
Qed.

Lemma fresh_token (tok : token) (db : Db) :
  Forall (fun s => Session.id s <= sessions_id_seq db) (sessions db) ->
  token_taken (sessions_id_seq db + 1) tok db = false ->
  tok ∉ Session.refresh_token <$> sessions db.
Proof.
  intros Hseq Hfree Hin.
  apply list_elem_of_fmap in Hin as (r & -> & Hr).
  apply token_taken_false in Hfree. rewrite Forall_forall in Hseq, Hfree.
  apply (Hfree r Hr); [|reflexivity].
  specialize (Hseq r Hr). lia.
Qed.

Lemma login_keeps_store_ok
      (settings : Settings.t) (verify_password : string -> string -> bool)
      (db : Db) (email password : string) (now : Z) :
  store_ok db ->
  store_ok (auth.login settings verify_password email password now db).2.
Proof.
  intros Hok.
  destruct (login_cases settings verify_password email password now db)
    as [->|[->|(user & Hrow & Hpw & Hactive)]]; try exact Hok.
  rewrite (login_authenticated _ _ _ _ _ _ user Hrow Hpw Hactive). cbn zeta.
  destruct (token_taken _ _ db) eqn:Hfree.
  { destruct Hok as [Huid Hemail Hsid Htok Hseq]. split; cbn; try assumption.
    eapply Forall_impl; [exact Hseq|]. cbn. intros r Hr. lia. }
  destruct Hok as [Huid Hemail Hsid Htok Hseq].
  assert (Huser : user ∈ users db).
  { assert (Hin : user ∈ filter (fun u => User.email u = email) (users db))
      by (rewrite Hrow; left).
    now apply list_elem_of_filter in Hin. }
  split; cbn [snd users sessions sessions_id_seq].
  + rewrite (fmap_replace_same User.id); [exact Huid|].
    intros x _ Hx. now rewrite Hx.
  + rewrite (fmap_replace_same User.email); [exact Hemail|].
    intros x Hx Hid. cbn.
    now rewrite (NoDup_fmap_same User.id (users db) x user Huid Hx Huser Hid).
  + rewrite fmap_app. apply NoDup_app. split; [exact Hsid|]. split.
    * intros i Hi Hnew. cbn in Hnew. apply list_elem_of_singleton in Hnew.
      apply list_elem_of_fmap in Hi as (r & -> & Hr).
      rewrite Forall_forall in Hseq. specialize (Hseq r Hr). lia.
    * apply NoDup_singleton.
  + rewrite fmap_app. apply NoDup_app. split; [exact Htok|]. split.
    * intros t Ht Hnew. cbn in Hnew. apply list_elem_of_singleton in Hnew.
      subst t. now apply (fresh_token _ db Hseq Hfree).
    * apply NoDup_singleton.
  + apply Forall_app. split.
    * eapply Forall_impl; [exact Hseq|]. cbn. intros r Hr. lia.
    * repeat constructor. cbn. lia.
Qed.

Lemma refresh_keeps_store_ok (settings : Settings.t) (db : Db) (tok : token)
      (now : Z) :
  store_ok db ->
  store_ok (AuthService.refresh_access_token settings tok now db).2.
Proof. now rewrite refresh_store_unchanged. Qed.

Lemma logout_keeps_store_ok (db : Db) (tok : token) :
  store_ok db -> store_ok (AuthService.logout tok db).2.
Proof.
  intros Hok.
  destruct (logout_cases tok db) as [->|[[e ->]|(s & _ & ->)]];
    try exact Hok.
  now apply without_session_ok.
Qed.

(** X6. The schema constraints are an invariant of the session lifecycle:
    whatever the outcome of a login, a refresh or a logout, the store it
    leaves has unique user ids and emails, unique session ids and tokens,
    and no session id beyond the sequence. *)
Theorem session_lifecycle_keeps_store_ok
        (settings : Settings.t) (verify_password : string -> string -> bool)
        (db : Db) :
  store_ok db ->
  (forall email password now,
      store_ok (auth.login settings verify_password email password now db).2)
  /\ (forall tok now,
         store_ok (AuthService.refresh_access_token settings tok now db).2)
  /\ (forall tok, store_ok (AuthService.logout tok db).2).
Proof.
  intros Hok. split; [|split].
  - intros. now apply login_keeps_store_ok.
  - intros. now apply refresh_keeps_store_ok.
  - intros. now apply logout_keeps_store_ok.
Qed.

(** What a successful login has found and done. *)
Lemma login_success_inv (settings : Settings.t)
      (verify_password : string -> string -> bool)
      (email password : string) (now : Z) (db db' : Db) (tokens : Tokens.t) :
  auth.login settings verify_password email password now db
  = (Return tokens, db') ->
  exists user,
    filter (fun u => User.email u = email) (users db) = [user]
    /\ verify_password password (User.hashed_password user) = true
    /\ User.is_active user = true
    /\ tokens
       = Tokens.mk
           (Security.create_access_token settings (AuthService.token_data user)
                                         None now)
           (Security.create_refresh_token settings (AuthService.token_data user)
                                          now)
           "bearer"
    /\ token_taken (sessions_id_seq db + 1) (Tokens.refresh_token tokens) db
       = false
    /\ db'
       = mkDb (map (fun u =>
                      if bool_decide (User.id u = User.id user)
                      then User.mk (User.id user) (User.email user)
                             (User.hashed_password user) (User.full_name user)
                             (User.role user) (User.is_active user)
                             (User.allowed_path_prefix user) (Some now)
                      else u)
                   (users db))
              (sessions db
                 ++ [Session.mk (sessions_id_seq db + 1) (User.id user)
                                (Tokens.refresh_token tokens)
                                (refresh_expiry settings now) now])
              (sessions_id_seq db + 1).
Proof.
  intros H.
  destruct (login_cases settings verify_password email password now db)
    as [H'|[H'|(user & Hrow & Hpw & Hactive)]];
    [rewrite H' in H; discriminate..|].
  rewrite (login_authenticated _ _ _ _ _ _ user Hrow Hpw Hactive) in H.
  cbn zeta in H.
  destruct (token_taken _ _ db) eqn:Hfree; [discriminate|].
  injection H as <- <-. exists user. now repeat split.
Qed.

(** X7. A successful login opens exactly one session, for the user of the
    email and until the refresh lifetime from now, and hands out the
    token of that row; logging out with that token closes it again and
    leaves the sessions table as it was before the login. *)
Theorem login_then_logout_restores_sessions
        (settings : Settings.t) (verify_password : string -> string -> bool)
        (email password : string) (now : Z) (db db' : Db) (tokens : Tokens.t) :
  store_ok db ->
  auth.login settings verify_password email password now db
  = (Return tokens, db') ->
  (exists user s,
      user ∈ users db /\ User.email user = email
      /\ sessions db' = (sessions db ++ [s])%list
      /\ Session.user_id s = User.id user
      /\ Session.refresh_token s = Tokens.refresh_token tokens
      /\ Session.expires_at s = refresh_expiry settings now
      /\ AuthService.get_session_by_token (Tokens.refresh_token tokens) db'
         = (Return (Some s), db'))
  /\ exists db'',
      AuthService.logout (Tokens.refresh_token tokens) db' = (Return true, db'')
      /\ sessions db'' = sessions db
      /\ users db'' = users db'.
Proof.
  intros Hok Hlogin.
  pose proof (login_keeps_store_ok settings verify_password db
                                   email password now Hok) as Hok'.
  rewrite Hlogin in Hok'. cbn [snd] in Hok'.
  destruct (login_success_inv _ _ _ _ _ _ _ _ Hlogin)
    as (user & Hrow & _ & _ & _ & _ & Hdb').
  set (s := Session.mk (sessions_id_seq db + 1) (User.id user)
                       (Tokens.refresh_token tokens)
                       (refresh_expiry settings now) now) in *.
  assert (Hsessions : sessions db' = (sessions db ++ [s])%list) by now rewrite Hdb'.
  assert (Hs : s ∈ sessions db').
  { rewrite Hsessions. apply elem_of_app. right. left. }
  assert (Hmatch : matches_row (Tokens.refresh_token tokens) s db').
  { apply unique_token_matches_row; [apply Hok'|exact Hs|reflexivity]. }
  split.
  - exists user, s.
    assert (Hin : user ∈ filter (fun u => User.email u = email) (users db))
      by (rewrite Hrow; left).
    apply list_elem_of_filter in Hin as [Hemail Hin].
    repeat split; try assumption; try reflexivity.
    now apply get_session_by_token_row.
  - exists (without_session s db'). split; [|split].
    + rewrite logout_run. unfold matches_row in Hmatch. now rewrite Hmatch.
    + unfold without_session. cbn [sessions]. rewrite Hsessions, filter_app.
      assert (Hlast : filter (fun r => Session.id r <> Session.id s) [s] = []).
      { rewrite filter_cons_False; [reflexivity|].
        intros Hne. now apply Hne. }
      rewrite Hlast, app_nil_r.
      destruct Hok as [_ _ _ _ Hseq]. clear - Hseq.
      induction (sessions db) as [|r l IH]; [reflexivity|].
      apply Forall_cons in Hseq as [Hr Hseq].
      rewrite filter_cons_True by (cbn; lia). f_equal. now apply IH.
    + reflexivity.
Qed.

(** X8. The refresh token of a login cannot be refreshed.  On a store
    that meets the schema constraints, a refresh presenting the token of
    a successful login, at any time up to the expiry of the new session,
    passes the token check, finds the session row of the login, and ends
    in [TypeError] at the expiry check, in the service and in the
    endpoint, leaving the store as the login left it. *)
Theorem login_token_is_not_refreshable
        (settings : Settings.t) (verify_password : string -> string -> bool)
        (email password : string) (now : Z) (db db' : Db) (tokens : Tokens.t) :
  store_ok db ->
  auth.login settings verify_password email password now db
  = (Return tokens, db') ->
  forall later : Z,
    later <= refresh_expiry settings now ->
    verifies_as_refresh settings (Tokens.refresh_token tokens) later
    /\ (exists s, matches_row (Tokens.refresh_token tokens) s db')
    /\ AuthService.refresh_access_token
         settings (Tokens.refresh_token tokens) later db'
       = (Raise TypeError, db')
    /\ auth.refresh_token settings (Tokens.refresh_token tokens) later db'
       = (Raise TypeError, db').
Proof.
  intros Hok Hlogin later Hlater.
  pose proof (login_keeps_store_ok settings verify_password db
                                   email password now Hok) as Hok'.
  rewrite Hlogin in Hok'. cbn [snd] in Hok'.
  destruct (login_success_inv _ _ _ _ _ _ _ _ Hlogin)
    as (user & Hrow & _ & Hactive & Htokens & _ & Hdb').
  set (s := Session.mk (sessions_id_seq db + 1) (User.id user)
                       (Tokens.refresh_token tokens)
                       (refresh_expiry settings now) now) in *.
  assert (Hs : s ∈ sessions db').
  { rewrite Hdb'. cbn. apply elem_of_app. right. left. }
  assert (Hmatch : matches_row (Tokens.refresh_token tokens) s db').
  { apply unique_token_matches_row; [apply Hok'|exact Hs|reflexivity]. }
  assert (Hv : verifies_as_refresh settings (Tokens.refresh_token tokens) later).
  { rewrite Htokens. cbn [Tokens.refresh_token].
    now apply refresh_token_verifies. }
  pose proof (refresh_at_row settings _ later db' s Hv Hmatch) as Href.
  split; [exact Hv|]. split; [now exists s|]. split; [exact Href|].
  now apply refresh_endpoint_raises.
Qed.

Lemma other_session_kept (tok : token) (s r : Session.t) (db : Db) :
  NoDup (Session.id <$> sessions db) ->
  matches_row tok s db ->
  r ∈ sessions db -> Session.refresh_token r <> tok ->
  Session.id r <> Session.id s.
Proof.
  intros Hids Hrow Hr Htok Hid.
  assert (Hs : s ∈ filter (fun x => Session.refresh_token x = tok) (sessions db))
    by (rewrite Hrow; left).
  apply list_elem_of_filter in Hs as [Hstok Hs].
  apply Htok.
  now rewrite (NoDup_fmap_same Session.id _ r s Hids Hr Hs Hid).
Qed.

Lemma without_session_frame (tok : token) (s : Session.t) (db : Db) :
  NoDup (Session.id <$> sessions db) ->
  matches_row tok s db ->
  (forall r, r ∈ sessions db -> Session.refresh_token r <> tok ->
             r ∈ sessions (without_session s db))
  /\ (length (sessions (without_session s db)) <= length (sessions db))%nat.
Proof.
  intros Hids Hrow. split.
  - intros r Hr Htok. cbn. apply list_elem_of_filter. split; [|exact Hr].
    now apply (other_session_kept tok s r db).
  - cbn. apply length_filter.
Qed.

Lemma refresh_frame (settings : Settings.t) (tok : token) (now : Z) (db : Db) :
  NoDup (Session.id <$> sessions db) ->
  (forall r, r ∈ sessions db -> Session.refresh_token r <> tok ->
             r ∈ sessions (AuthService.refresh_access_token settings tok now db).2)
  /\ (length (sessions (AuthService.refresh_access_token settings tok now db).2)
      <= length (sessions db))%nat
  /\ users (AuthService.refresh_access_token settings tok now db).2 = users db
  /\ sessions_id_seq (AuthService.refresh_access_token settings tok now db).2
     = sessions_id_seq db.
Proof.
  intros _. rewrite refresh_store_unchanged.
  repeat split; [tauto|lia].
Qed.

Lemma logout_frame (tok : token) (db : Db) :
  NoDup (Session.id <$> sessions db) ->
  (forall r, r ∈ sessions db -> Session.refresh_token r <> tok ->
             r ∈ sessions (AuthService.logout tok db).2)
  /\ (length (sessions (AuthService.logout tok db).2) <= length (sessions db))%nat
  /\ users (AuthService.logout tok db).2 = users db
  /\ sessions_id_seq (AuthService.logout tok db).2 = sessions_id_seq db.
Proof.
  intros Hids.
  destruct (logout_cases tok db) as [Hout|[[e Hout]|(s & Hrow & Hout)]];
    rewrite Hout; cbn [snd].
  - repeat split; [tauto|lia].
  - repeat split; [tauto|lia].
  - destruct (without_session_frame tok s db Hids Hrow) as [Hkeep Hlen].
    repeat split; assumption.
Qed.

(** X9. A refresh or a logout touches no session but the one whose token is
    presented: every other row is in the store afterwards exactly as it
    was, no row is added, and the users table and the id sequence are
    left alone. *)
Theorem refresh_and_logout_touch_one_session
        (settings : Settings.t) (tok : token) (now : Z) (db : Db) :
  NoDup (Session.id <$> sessions db) ->
  ((forall r, r ∈ sessions db -> Session.refresh_token r <> tok ->
              r ∈ sessions (AuthService.refresh_access_token settings tok now db).2)
   /\ (length (sessions (AuthService.refresh_access_token settings tok now db).2)
       <= length (sessions db))%nat
   /\ users (AuthService.refresh_access_token settings tok now db).2 = users db
   /\ sessions_id_seq (AuthService.refresh_access_token settings tok now db).2
      = sessions_id_seq db)
  /\ ((forall r, r ∈ sessions db -> Session.refresh_token r <> tok ->
               r ∈ sessions (AuthService.logout tok db).2)
      /\ (length (sessions (AuthService.logout tok db).2)
          <= length (sessions db))%nat
      /\ users (AuthService.logout tok db).2 = users db
      /\ sessions_id_seq (AuthService.logout tok db).2 = sessions_id_seq db).
Proof.
  intros Hids. split.
  - now apply refresh_frame.
  - now apply logout_frame.
Qed.

(** X10. Logout retires the token: once a logout with it has succeeded, a
    second logout returns false and a refresh returns the invalid result,
    at any time, and neither changes the store. *)
Theorem logout_retires_token
        (settings : Settings.t) (tok : token) (db db' : Db) :
  AuthService.logout tok db = (Return true, db') ->
  AuthService.logout tok db' = (Return false, db')
  /\ auth.logout tok db'
     = (Raise (HTTPException HTTP_400_BAD_REQUEST "Invalid refresh token" []), db')
  /\ forall later : Z,
       AuthService.refresh_access_token settings tok later db'
       = (Return None, db')
       /\ auth.refresh_token settings tok later db'
          = (Raise auth.invalid_refresh_token, db').
Proof.
  intros Hout.
  destruct (logout_cases tok db) as [H|[[e H]|(s & Hrow & H)]];
    rewrite H in Hout; try discriminate.
  injection Hout as <-.
  pose proof (without_session_no_match tok s db Hrow) as Hgone.
  pose proof (get_session_by_token_none _ _ Hgone) as Hlookup.
  assert (Hfalse : AuthService.logout tok (without_session s db)
                   = (Return false, without_session s db)).
  { unfold AuthService.logout. now rewrite bind_run, Hlookup. }
  split; [exact Hfalse|]. split.
  - unfold auth.logout. now rewrite bind_run, Hfalse.
  - intros later.
    assert (Hrej : AuthService.refresh_access_token
                     settings tok later (without_session s db)
                   = (Return None, without_session s db)).
    { unfold AuthService.refresh_access_token.
      destruct (bool_decide _); [reflexivity|].
      now rewrite bind_run, Hlookup. }
    split; [exact Hrej|]. now apply refresh_endpoint_invalid.
Qed.

(** ** Stripping *)

Lemma append_empty_r (s : string) : s ++ "" = s.
Proof. induction s as [|c s IH]; [reflexivity|]. now rewrite append_cons, IH. Qed.

Lemma append_assoc (s t u : string) : (s ++ t) ++ u = s ++ (t ++ u).
Proof.
  induction s as [|c s IH]; [reflexivity|]. now rewrite !append_cons, IH.
Qed.

Lemma prefix_append (s t : string) : String.prefix s (s ++ t) = true.
Proof.
  induction s as [|c s IH]; [apply prefix_empty|].
  now rewrite append_cons, prefix_cons, Ascii.eqb_refl.
Qed.

Lemma rstrip_with_cons (p : ascii -> bool) (c : ascii) (s : string) :
  Py.rstrip_with p (String c s)
  = match Py.rstrip_with p s with
    | EmptyString => if p c then EmptyString else String c EmptyString
    | r => String c r
    end.
Proof. reflexivity. Qed.

Lemma rstrip_with_keep (p : ascii -> bool) (c : ascii) (s : string) :
  p c = false -> Py.rstrip_with p (String c s) = String c (Py.rstrip_with p s).
Proof.
  intros Hc. rewrite rstrip_with_cons, Hc. now destruct (Py.rstrip_with p s).
Qed.

(** Stripping the end of a concatenation. *)
Lemma rstrip_with_app (p : ascii -> bool) (s t : string) :
  Py.rstrip_with p (s ++ t)
  = match Py.rstrip_with p t with
    | EmptyString => Py.rstrip_with p s
    | r => s ++ r
    end.
Proof.
  induction s as [|c s IH].
  - rewrite append_nil. now destruct (Py.rstrip_with p t).
  - rewrite append_cons, !rstrip_with_cons, IH.
    destruct (Py.rstrip_with p t) as [|d r]; [reflexivity|].
    rewrite append_cons. destruct s; reflexivity.
Qed.

Lemma rstrip_with_idem (p : ascii -> bool) (s : string) :
  Py.rstrip_with p (Py.rstrip_with p s) = Py.rstrip_with p s.
Proof.
  induction s as [|c s IH]; [reflexivity|].
  rewrite rstrip_with_cons.
  destruct (Py.rstrip_with p s) as [|d r] eqn:E.
  - destruct (p c) eqn:Hc; [reflexivity|]. cbn. now rewrite Hc.
  - rewrite rstrip_with_cons, IH. reflexivity.
Qed.

(** What is left of a string stripped at the end starts as the string
    does. *)
Lemma rstrip_with_head (p : ascii -> bool) (s : string) (c : ascii) (r : string) :
  Py.rstrip_with p s = String c r -> exists s', s = String c s'.
Proof.
  destruct s as [|d s]; [discriminate|].
  rewrite rstrip_with_cons.
  destruct (Py.rstrip_with p s); [destruct (p d)|]; intros H;
    try discriminate; injection H as -> _; eauto.
Qed.

Lemma lstrip_with_head (p : ascii -> bool) (s : string) (c : ascii) (r : string) :
  Py.lstrip_with p s = String c r -> p c = false.
Proof.
  induction s as [|d s IH]; [discriminate|].
  cbn. destruct (p d) eqn:Hd; [exact IH|].
  intros H. injection H as <- _. exact Hd.
Qed.

Lemma lstrip_with_keep (p : ascii -> bool) (c : ascii) (s : string) :
  p c = false -> Py.lstrip_with p (String c s) = String c s.
Proof. intros Hc. cbn. now rewrite Hc. Qed.

Lemma isspace_slash : Py.isspace "/" = false.
Proof. reflexivity. Qed.

Lemma mem_slash (c : ascii) : Py.mem c "/" = Ascii.eqb c "/".
Proof. cbn. now destruct (Ascii.eqb c "/"). Qed.

(** A stripped, non-empty string does not start with a blank; neither
    does what is left of it without its trailing separators, followed by
    a separator. *)
Lemma base_head (R : string) :
  exists c rest,
    Py.rstrip "/" (Py.strip R) ++ "/" = String c rest /\ Py.isspace c = false.
Proof.
  destruct (Py.rstrip "/" (Py.strip R)) as [|c r] eqn:E.
  - exists "/"%char, "". split; reflexivity.
  - exists c, (r ++ "/"). split; [reflexivity|].
    destruct (rstrip_with_head _ _ _ _ E) as [s' Hs'].
    now apply (lstrip_with_head _ _ _ _ Hs').
Qed.

Lemma rstrip_slash_only :
  Py.rstrip_with (fun c => Py.mem c "/") "/" = "".
Proof. reflexivity. Qed.

(** Stripping blanks from a string that starts with a base ending in a
    separator, and not starting with a blank, only strips the end of what
    follows the base. *)
Lemma strip_after_base (X rest : string) (c : ascii) (b : string) :
  X ++ "/" = String c b -> Py.isspace c = false ->
  Py.strip ((X ++ "/") ++ rest)
  = (X ++ "/") ++ Py.rstrip_with Py.isspace rest.
Proof.
  intros Hb Hc. unfold Py.strip.
  assert (Hend : Py.rstrip_with Py.isspace ((X ++ "/") ++ rest)
                 = (X ++ "/") ++ Py.rstrip_with Py.isspace rest).
  { rewrite append_assoc, rstrip_with_app.
    rewrite (append_cons "/" "" rest), append_nil.
    rewrite (rstrip_with_keep _ _ _ isspace_slash).
    now rewrite append_assoc, (append_cons "/" ""), append_nil. }
  rewrite Hend, Hb, append_cons. now apply lstrip_with_keep.
Qed.

(** Stripping the separators at the end of a string below a base leaves
    the base, without its own separator, or more. *)
Lemma rstrip_slash_after_base (X r1 : string) :
  Py.rstrip "/" X = X ->
  exists tail, Py.rstrip "/" ((X ++ "/") ++ r1) ++ "/" = (X ++ "/") ++ tail.
Proof.
  intros HX. unfold Py.rstrip in *. rewrite rstrip_with_app.
  destruct (Py.rstrip_with (fun c0 => Py.mem c0 "/") r1) as [|d r2] eqn:E2.
  - exists "". rewrite rstrip_with_app, rstrip_slash_only, HX.
    now rewrite append_empty_r.
  - exists (String d r2 ++ "/"). now rewrite append_assoc.
Qed.

(** Normalizing a key below a base: the base, followed by what is left of
    the rest. *)
Lemma normalized_under_base (R rest : string) :
  exists tail,
    normalized ((Py.rstrip "/" (Py.strip R) ++ "/") ++ rest) ++ "/"
    = (Py.rstrip "/" (Py.strip R) ++ "/") ++ tail.
Proof.
  destruct (base_head R) as (c & b & Hb & Hc).
  unfold normalized. rewrite (strip_after_base _ rest c b Hb Hc).
  apply rstrip_slash_after_base. apply rstrip_with_idem.
Qed.

Lemma under_base_accessible (u : User.t) (R rest : string) :
  User.allowed_path_prefix u = Some R ->
  Py.strip R <> "" ->
  user_can_access_path u (canonical_base (Py.strip R) ++ rest) = true.
Proof.
  intros HR Hne.
  destruct (decide (User.role u = ADMIN)) as [Hadmin|Hrole];
    [now apply admin_direct_access|].
  rewrite (direct_access_restricted u R _ Hrole HR Hne).
  unfold canonical_base.
  destruct (normalized_under_base R rest) as [tail ->].
  apply prefix_append.
Qed.

(** X11. Listing and direct access agree on the prefix that is listed: the
    prefix a listing request is turned into is always one that direct
    access allows to the same user. *)
Theorem listing_prefix_is_accessible (u : User.t) (P Q : string) :
  _effective_prefix u P = Return Q -> user_can_access_path u Q = true.
Proof.
  intros H.
  destruct (Py.strip (Py.or_empty (User.allowed_path_prefix u))) as [|a A] eqn:HA.
  { now apply unrestricted_direct_access. }
  destruct (User.allowed_path_prefix u) as [R|] eqn:HR; [|discriminate].
  assert (Hne : Py.strip R <> "").
  { rewrite strip_or_empty in HA. rewrite HA. discriminate. }
  rewrite (effective_prefix_restricted u R P HR Hne) in H.
  destruct (Py.truthy (normalized P)) eqn:HP; cbn [andb negb] in H.
  - destruct (Py.startswith _ _) eqn:Hin; cbn [negb] in H; [|discriminate].
    injection H as <-.
    destruct (decide (User.role u = ADMIN)) as [Hadmin|Hrole];
      [now apply admin_direct_access|].
    now rewrite (direct_access_restricted u R _ Hrole HR Hne).
  - injection H as <-.
    rewrite <- (append_empty_r (canonical_base (Py.strip R))).
    now apply under_base_accessible.
Qed.

(** ** The files API *)

Lemma S3_bind_done {A B : Type} (a : A) (k : A -> S3 B) :
  (Done a ≫= k) = k a.
Proof. reflexivity. Qed.

Lemma S3_bind_ask {A B : Type} (c : boto3.call)
      (k' : string + boto3.reply c -> S3 A) (k : A -> S3 B) :
  (Ask c k' ≫= k) = Ask c (fun r => k' r ≫= k).
Proof. reflexivity. Qed.

Lemma every_call_bind {A B : Type} (P : boto3.call -> Prop)
      (m : S3 A) (k : A -> S3 B) :
  every_call P m -> (forall a, every_call P (k a)) -> every_call P (m ≫= k).
Proof.
  intros Hm Hk. induction Hm as [a|c k' Hc _ IH].
  - apply Hk.
  - rewrite S3_bind_ask. constructor; [exact Hc|exact IH].
Qed.

Lemma every_call_weaken {A : Type} (P Q : boto3.call -> Prop) (m : S3 A) :
  (forall c, P c -> Q c) -> every_call P m -> every_call Q m.
Proof.
  intros HPQ Hm. induction Hm as [a|c k Hc _ IH]; constructor; auto.
Qed.

Lemma require_permission_pass (u : User.t) (permission : string) :
  has_permission u permission = true ->
  require_permission permission (Some u) = Return u.
Proof. intros H. unfold require_permission. now rewrite H. Qed.

Lemma require_permission_fail (u : User.t) (permission : string) :
  has_permission u permission = false ->
  require_permission permission (Some u) = Raise (permission_denied permission).
Proof. intros H. unfold require_permission. now rewrite H. Qed.

Lemma check_path_access_pass (u : User.t) (key : string) :
  user_can_access_path u key = true -> _check_path_access u key = Return tt.
Proof. intros H. unfold _check_path_access. now rewrite H. Qed.

Lemma check_path_access_fail (u : User.t) (key : string) :
  user_can_access_path u key = false ->
  _check_path_access u key = Raise access_denied.
Proof. intros H. unfold _check_path_access. now rewrite H. Qed.

(** Every role reads files. *)
Lemma every_role_reads (u : User.t) : has_permission u "files:read" = true.
Proof. unfold has_permission. now destruct (User.role u). Qed.

Lemma read_only_roles (u : User.t) :
  User.role u = VIEWER \/ User.role u = EXTERNAL_VIEWER ->
  has_permission u "files:write" = false
  /\ has_permission u "files:delete" = false.
Proof. unfold has_permission. now intros [-> | ->]. Qed.

Lemma get_s3_client_bucket (cfg : StorageSettings.t) (bucket_name : string) :
  get_s3_client cfg = inr bucket_name ->
  bucket_name = StorageSettings.S3_BUCKET_NAME cfg.
Proof.
  unfold get_s3_client.
  repeat match goal with |- context [if ?b then _ else _] => destruct b end;
    intros H; try discriminate. now injection H as <-.
Qed.

Ltac through_guard u permission :=
  unfold files.guarded;
  destruct (has_permission u permission) eqn:Hperm;
  [rewrite (require_permission_pass _ _ Hperm)
  |rewrite (require_permission_fail _ _ Hperm); constructor].

Ltac scope u key :=
  unfold files.checked;
  destruct (user_can_access_path u key) eqn:Hscope;
  [rewrite (check_path_access_pass _ _ Hscope)
  |rewrite (check_path_access_fail _ _ Hscope); constructor].

Ltac storage cfg :=
  destruct (get_s3_client cfg) as [message|bucket_name] eqn:Hcfg;
  [|apply get_s3_client_bucket in Hcfg; subst bucket_name].

(** The default key of an upload is within the uploader's scope. *)
Lemma default_upload_key_accessible (u : User.t) (filename : string) :
  user_can_access_path u (files.upload_key u None filename) = true.
Proof.
  unfold files.upload_key. cbn [Py.or_empty].
  change (Py.truthy "") with false. cbn iota.
  destruct (Py.truthy (Py.strip (Py.or_empty (User.allowed_path_prefix u))))
    eqn:Hallowed.
  - destruct (User.allowed_path_prefix u) as [R|] eqn:HR; [|discriminate].
    cbn [Py.or_empty] in *.
    rewrite <- append_assoc.
    apply (under_base_accessible u R filename HR).
    intros E. rewrite E in Hallowed. discriminate.
  - apply unrestricted_direct_access.
    unfold Py.truthy in Hallowed. apply negb_false_iff in Hallowed.
    now apply String.eqb_eq in Hallowed.
Qed.

(** The folder key that [create_folder] writes is one the user may
    access, when the handler's own check lets it through. *)
Lemma normalized_folder_path (path : string) :
  normalized (normalized path ++ "/") = normalized path.
Proof.
  unfold normalized.
  destruct (base_head path) as (c & b & Hb & Hc).
  pose proof (strip_after_base (Py.rstrip "/" (Py.strip path)) "" c b Hb Hc) as H.
  rewrite append_empty_r in H. cbn in H. rewrite append_empty_r in H.
  rewrite H. unfold Py.rstrip. rewrite rstrip_with_app, rstrip_slash_only.
  apply rstrip_with_idem.
Qed.

Lemma folder_path_accessible (u : User.t) (path : string) :
  (Py.truthy (Py.strip (Py.or_empty (User.allowed_path_prefix u)))
   && negb (Py.startswith
              (Py.rstrip "/" (Py.strip path) ++ "/")
              (Py.rstrip "/" (Py.strip (Py.or_empty (User.allowed_path_prefix u)))
                 ++ "/"))) = false ->
  user_can_access_path u (Py.rstrip "/" (Py.strip path) ++ "/") = true.
Proof.
  intros H. unfold user_can_access_path.
  destruct (String.eqb (value (User.role u)) "admin"); [reflexivity|].
  destruct (Py.truthy (Py.strip (Py.or_empty (User.allowed_path_prefix u))));
    [|reflexivity].
  cbn [andb negb] in H |- *. cbv zeta. apply negb_false_iff in H.
  pose proof (normalized_folder_path path) as Hn. unfold normalized in Hn.
  rewrite Hn, H. apply orb_true_r.
Qed.

(** X12. Every call to S3 that the handlers taking a key can make is on the
    configured bucket, for the key of the request (for an upload, the key
    built from the path and the file name; for a new folder, the path
    with one trailing separator), by a user who holds the permission of
    the endpoint and may access that key. *)
Theorem key_requests_stay_in_scope (cfg : StorageSettings.t) (u : User.t) :
  (forall key expires_in,
      every_call (names cfg u "files:read" key)
                 (files.download_file cfg key expires_in (Some u)))
  /\ (forall key,
         every_call (names cfg u "files:delete" key)
                    (files.delete_file cfg key (Some u)))
  /\ (forall key expires_in,
         every_call (names cfg u "files:write" key)
                    (files.presigned_upload cfg key expires_in (Some u)))
  /\ (forall file path,
         every_call (names cfg u "files:write"
                           (files.upload_key u path (files.upload_filename file)))
                    (files.upload_file cfg file path (Some u)))
  /\ (forall path,
         every_call (names cfg u "files:write" (normalized path ++ "/"))
                    (files.create_folder cfg path (Some u))).
Proof.
  repeat split.
  - intros key expires_in. unfold files.download_file.
    through_guard u "files:read". scope u key.
    unfold files.served, FileService.get_download_url.
    storage cfg; [constructor|].
    constructor; [now repeat split|].
    intros [e|url]; cbn; [constructor|].
    destruct (negb (Py.truthy url)); constructor.
  - intros key. unfold files.delete_file.
    through_guard u "files:delete". scope u key.
    unfold files.served, FileService.delete_file.
    destruct (negb (Py.truthy key)); [constructor|].
    storage cfg; [constructor|].
    constructor; [now repeat split|].
    intros [e|[]]; constructor.
  - intros key expires_in. unfold files.presigned_upload.
    through_guard u "files:write". scope u key.
    unfold FileService.get_presigned_upload.
    storage cfg; [constructor|].
    constructor; [now repeat split|].
    intros [e|post]; constructor.
  - intros file path. unfold files.upload_file.
    through_guard u "files:write".
    match goal with |- context [if ?b then Done _ else _] => destruct b end;
      [constructor|].
    scope u (files.upload_key u path (files.upload_filename file)).
    storage cfg; [constructor|].
    constructor; [now repeat split|].
    intros [e|[]]; constructor.
  - intros path. unfold files.create_folder.
    through_guard u "files:write".
    match goal with |- context [if ?b then Done _ else _] =>
      destruct b eqn:Hcheck end; [constructor|].
    apply folder_path_accessible in Hcheck.
    storage cfg; [constructor|].
    constructor; [now repeat split|].
    intros [e|[]]; constructor.
Qed.


(** X13. A request that is refused reaches no storage.  With no user the
    handlers answer 401; a viewer or an external viewer gets 403
    "Permission denied" from every handler that writes or deletes,
    whatever the request and the storage settings; and a key outside the
    user's scope gets 403 "Access denied to this path" from the handlers
    that take a key, or the permission's 403 when that is missing
    too.  In each case the handler is done without a call to S3. *)
Theorem refused_requests_reach_no_storage (cfg : StorageSettings.t) (u : User.t) :
  (forall key expires_in file path prefix max_keys,
      files.download_file cfg key expires_in None = Done (Fail unauthenticated)
      /\ files.delete_file cfg key None = Done (Fail unauthenticated)
      /\ files.presigned_upload cfg key expires_in None = Done (Fail unauthenticated)
      /\ files.upload_file cfg file path None = Done (Fail unauthenticated)
      /\ files.create_folder cfg key None = Done (Fail unauthenticated)
      /\ files.list_files cfg prefix max_keys None = Done (Fail unauthenticated)
      /\ files.list_files_with_folders cfg prefix max_keys None
         = Done (Fail unauthenticated))
  /\ (User.role u = VIEWER \/ User.role u = EXTERNAL_VIEWER ->
      forall key expires_in file path,
        files.delete_file cfg key (Some u)
        = Done (Fail (permission_denied "files:delete"))
        /\ files.presigned_upload cfg key expires_in (Some u)
           = Done (Fail (permission_denied "files:write"))
        /\ files.upload_file cfg file path (Some u)
           = Done (Fail (permission_denied "files:write"))
        /\ files.create_folder cfg key (Some u)
           = Done (Fail (permission_denied "files:write")))
  /\ (forall key expires_in,
         user_can_access_path u key = false ->
         files.download_file cfg key expires_in (Some u)
         = Done (Fail access_denied)
         /\ files.delete_file cfg key (Some u)
            = Done (Fail (if has_permission u "files:delete" then access_denied
                          else permission_denied "files:delete"))
         /\ files.presigned_upload cfg key expires_in (Some u)
            = Done (Fail (if has_permission u "files:write" then access_denied
                          else permission_denied "files:write")))
  /\ (forall prefix max_keys,
         _effective_prefix u prefix = Raise access_denied ->
         files.list_files cfg prefix max_keys (Some u) = Done (Fail access_denied)
         /\ files.list_files_with_folders cfg prefix max_keys (Some u)
            = Done (Fail access_denied)).
Proof.
  split; [|split; [|split]].
  - intros. repeat split; reflexivity.
  - intros Hrole key expires_in file path.
    destruct (read_only_roles u Hrole) as [Hw Hd].
    unfold files.delete_file, files.presigned_upload, files.upload_file,
      files.create_folder, files.guarded.
    rewrite (require_permission_fail _ _ Hw), (require_permission_fail _ _ Hd).
    repeat split; reflexivity.
  - intros key expires_in Hout.
    unfold files.download_file, files.delete_file, files.presigned_upload,
      files.guarded, files.checked.
    rewrite (require_permission_pass _ _ (every_role_reads u)).
    rewrite (check_path_access_fail _ _ Hout).
    split; [reflexivity|]. split.
    + destruct (has_permission u "files:delete") eqn:Hd.
      * rewrite (require_permission_pass _ _ Hd).
        now rewrite (check_path_access_fail _ _ Hout).
      * now rewrite (require_permission_fail _ _ Hd).
    + destruct (has_permission u "files:write") eqn:Hw.
      * rewrite (require_permission_pass _ _ Hw).
        now rewrite (check_path_access_fail _ _ Hout).
      * now rewrite (require_permission_fail _ _ Hw).
  - intros prefix max_keys Hout.
    unfold files.list_files, files.list_files_with_folders,
      files.guarded, files.checked.
    rewrite (require_permission_pass _ _ (every_role_reads u)), Hout.
    split; reflexivity.
Qed.

(** A viewer restricted to [team/alpha]. *)
Lemma refused_requests_reach_no_storage_witness :
  files.upload_file DemoFiles.storage DemoFiles.report (Some "team/alpha")
                    (Some DemoFiles.viewer)
  = Done (Fail (permission_denied "files:write"))
  /\ files.download_file DemoFiles.storage "team/beta/plan.pdf" 3600
                         (Some DemoFiles.viewer)
     = Done (Fail access_denied)
  /\ files.list_files DemoFiles.storage "team/beta" 1000 (Some DemoFiles.viewer)
     = Done (Fail access_denied).
Proof.
  pose proof (refused_requests_reach_no_storage DemoFiles.storage DemoFiles.viewer)
    as (_ & Hrole & Hkey & Hlist).
  split; [|split].
  - apply (Hrole (or_introl eq_refl) "" 0 DemoFiles.report (Some "team/alpha")).
  - apply (Hkey "team/beta/plan.pdf" 3600). reflexivity.
  - apply (Hlist "team/beta" 1000). reflexivity.
Defined.





(** ** Listing with folders *)

Lemma at_most_calls_mono {A : Type} (n n' : nat) (m : S3 A) :
  (n <= n')%nat -> at_most_calls n m -> at_most_calls n' m.
Proof.
  revert n n'. induction m as [a|c k IH]; intros n n' Hle H; [exact I|].
  destruct n as [|n]; [contradiction|].
  destruct n' as [|n']; [lia|].
  cbn in *. intros r. apply (IH r n n'); [lia|apply H].
Qed.

Lemma at_most_calls_bind {A B : Type} (n : nat) (m : S3 A) (k : A -> S3 B) :
  at_most_calls n m -> (forall a, at_most_calls 0 (k a)) ->
  at_most_calls n (m ≫= k).
Proof.
  revert n. induction m as [a|c k' IH]; intros n Hm Hk.
  - rewrite S3_bind_done. apply (at_most_calls_mono 0); [lia|apply Hk].
  - rewrite S3_bind_ask. destruct n as [|n]; [contradiction|].
    cbn in *. intros r. apply IH; [apply Hm|exact Hk].
Qed.

Lemma every_result_bind {A B : Type} (P : A -> Prop) (Q : B -> Prop)
      (m : S3 A) (k : A -> S3 B) :
  every_result P m -> (forall a, P a -> every_result Q (k a)) ->
  every_result Q (m ≫= k).
Proof.
  intros Hm Hk. induction Hm as [a Ha|c k' _ IH].
  - now apply Hk.
  - rewrite S3_bind_ask. constructor. exact IH.
Qed.

Lemma max_pages_bounds (max_keys : Z) :
  1 <= S3Client.max_pages max_keys <= 50.
Proof. unfold S3Client.max_pages. lia. Qed.

(** [split] gives at least one part, and no part holds the separator. *)
Lemma split_parts (sep : ascii) (s : string) :
  exists part parts, PyMore.split sep s = part :: parts.
Proof.
  induction s as [|c s (part & parts & IH)]; cbn; [eauto|].
  destruct (Ascii.eqb c sep); [eauto|]. rewrite IH. eauto.
Qed.

Lemma split_no_sep (sep : ascii) (s : string) :
  Forall (fun part => Py.mem sep part = false) (PyMore.split sep s).
Proof.
  induction s as [|c s IH]; cbn; [now repeat constructor|].
  destruct (Ascii.eqb c sep) eqn:Hc; [now constructor|].
  destruct (PyMore.split sep s) as [|part parts].
  - repeat constructor. cbn. rewrite Ascii.eqb_sym, Hc. reflexivity.
  - inversion IH as [|? ? Hpart Hparts]; subst. constructor; [|exact Hparts].
    cbn. now rewrite Ascii.eqb_sym, Hc.
Qed.

Lemma endswith_refl (s : string) : PyMore.endswith s s = true.
Proof. destruct s; cbn [PyMore.endswith]; now rewrite String.eqb_refl. Qed.

Lemma endswith_cons (c : ascii) (s suffix : string) :
  PyMore.endswith (String c s) suffix
  = String.eqb (String c s) suffix || PyMore.endswith s suffix.
Proof. cbn [PyMore.endswith]. now destruct (String.eqb (String c s) suffix). Qed.

Lemma endswith_later (c : ascii) (s suffix : string) :
  PyMore.endswith s suffix = true -> PyMore.endswith (String c s) suffix = true.
Proof. intros H. rewrite endswith_cons, H. apply orb_true_r. Qed.

Lemma last_of_cons (part part' : string) (parts : list string) :
  PyMore.last_of (part :: part' :: parts) = PyMore.last_of (part' :: parts).
Proof. reflexivity. Qed.

Lemma split_single (sep : ascii) (s part : string) :
  PyMore.split sep s = [part] -> part = s.
Proof.
  revert part. induction s as [|c s IH]; intros part; cbn.
  - now intros [= <-].
  - destruct (Ascii.eqb c sep).
    + destruct (split_parts sep s) as (p & ps & ->). discriminate.
    + destruct (split_parts sep s) as (p & ps & E). rewrite E.
      intros [= <- ->]. now rewrite (IH p E).
Qed.

Lemma last_of_split_cons (sep c : ascii) (s : string) :
  PyMore.last_of (PyMore.split sep (String c s))
  = match PyMore.split sep s with
    | [part] => if Ascii.eqb c sep then part else String c part
    | _ => PyMore.last_of (PyMore.split sep s)
    end.
Proof.
  cbn [PyMore.split].
  destruct (split_parts sep s) as (p & ps & ->).
  destruct (Ascii.eqb c sep); destruct ps; reflexivity.
Qed.

(** The last part of a key is the end of the key. *)
Lemma last_of_split_suffix (sep : ascii) (s : string) :
  PyMore.endswith s (PyMore.last_of (PyMore.split sep s)) = true.
Proof.
  induction s as [|c s IH]; [reflexivity|].
  rewrite last_of_split_cons.
  destruct (PyMore.split sep s) as [|p [|p' ps]] eqn:E.
  - now apply endswith_later.
  - apply split_single in E. subst p.
    destruct (Ascii.eqb c sep).
    + apply endswith_later, endswith_refl.
    + apply endswith_refl.
  - now apply endswith_later.
Qed.

Lemma last_of_split_no_sep (sep : ascii) (s : string) :
  Py.mem sep (PyMore.last_of (PyMore.split sep s)) = false.
Proof.
  pose proof (split_no_sep sep s) as H.
  destruct (split_parts sep s) as (p & ps & E). rewrite E in *.
  clear E. revert p H. induction ps as [|p' ps IH]; intros p H.
  - now inversion H.
  - rewrite last_of_cons. apply IH. now inversion H.
Qed.

(** The last part is empty only for the empty key and for a key that ends
    in the separator. *)
Lemma last_of_split_empty (sep : ascii) (s : string) :
  PyMore.last_of (PyMore.split sep s) = "" ->
  s = "" \/ PyMore.endswith s (String sep "") = true.
Proof.
  induction s as [|c s IH]; [now left|].
  rewrite last_of_split_cons. intros Hlast. right. revert Hlast.
  destruct (PyMore.split sep s) as [|p [|p' ps]] eqn:E.
  - destruct (split_parts sep s) as (? & ? & E'). congruence.
  - apply split_single in E. subst p.
    destruct (Ascii.eqb c sep) eqn:Hc; [|discriminate].
    intros ->. apply Ascii.eqb_eq in Hc. subst c. apply endswith_refl.
  - intros Hlast. destruct (IH Hlast) as [-> | Hend]; [discriminate|].
    now apply endswith_later.
Qed.

Lemma tree_file_of_ok (obj : boto3.object_summary) :
  PyMore.endswith (boto3.Key obj) "/" = false ->
  file_of_tree (S3Client.tree_file_of obj).
Proof.
  intros Hend. unfold file_of_tree, S3Client.tree_file_of. cbn.
  split; [exact Hend|]. split; [apply last_of_split_no_sep|].
  split; [apply last_of_split_suffix|].
  intros Hkey Hname. apply last_of_split_empty in Hname as [E | E];
    [contradiction|congruence].
Qed.

Lemma list_pages_calls (pages : nat) (bucket_name list_prefix : string)
      (token : option string) (folders : list S3Client.folder)
      (files : list S3Client.tree_file) :
  token <> Some "" ->
  at_most_calls pages
                (S3Client.list_pages pages bucket_name list_prefix token
                                     folders files)
  /\ every_call (page_of bucket_name list_prefix)
                (S3Client.list_pages pages bucket_name list_prefix token
                                     folders files).
Proof.
  revert token folders files.
  induction pages as [|pages IH]; intros token folders files Htoken.
  - split; [exact I|constructor].
  - cbn [S3Client.list_pages]. split.
    + cbn [at_most_calls]. intros [e|page]; [exact I|].
      destruct (boto3.NextContinuationToken page) as [next|]; [|exact I].
      destruct (Py.truthy next) eqn:Hnext; [|exact I].
      apply IH. intros [= ->]. discriminate.
    + constructor; [exists token; now split|].
      intros [e|page]; [constructor|].
      destruct (boto3.NextContinuationToken page) as [next|]; [|constructor].
      destruct (Py.truthy next) eqn:Hnext; [|constructor].
      apply IH. intros [= ->]. discriminate.
Qed.

Lemma list_pages_files (pages : nat) (bucket_name list_prefix : string)
      (token : option string) (folders : list S3Client.folder)
      (files : list S3Client.tree_file) :
  Forall file_of_tree files ->
  every_result (fun result =>
                  match result with
                  | Some (_, files') => Forall file_of_tree files'
                  | None => True
                  end)
               (S3Client.list_pages pages bucket_name list_prefix token
                                    folders files).
Proof.
  revert token folders files.
  induction pages as [|pages IH]; intros token folders files Hfiles.
  - now constructor.
  - cbn [S3Client.list_pages]. constructor.
    intros [e|page]; [now constructor|].
    assert (Hnew :
              Forall file_of_tree
                     match boto3.Contents page with
                     | Some contents =>
                         (files
                            ++ map S3Client.tree_file_of
                                 (filter (fun obj =>
                                            PyMore.endswith (boto3.Key obj) "/"
                                            = false)
                                         contents))%list
                     | None => files
                     end).
    { destruct (boto3.Contents page) as [contents|]; [|exact Hfiles].
      apply Forall_app. split; [exact Hfiles|].
      apply Forall_forall. intros f Hf.
      apply list_elem_of_fmap in Hf as (obj & -> & Hobj).
      apply list_elem_of_filter in Hobj as [Hend _].
      now apply tree_file_of_ok. }
    destruct (boto3.NextContinuationToken page) as [next|]; [|now constructor].
    destruct (Py.truthy next); [|now constructor].
    now apply IH.
Qed.

(** X16. A listing with folders asks S3 for at most [max_pages] pages, which
    is between 1 and 50 whatever [max_keys] is; every page is asked for
    on the given bucket with the listing prefix, the separator as
    delimiter and 1000 keys, never [max_keys]; and in every result the
    prefix is the one requested ([None] for the empty one), no file's key
    ends in the separator, and a file's name is the part of its key after
    the last separator: free of separators, and not empty. *)
Theorem tree_listing_is_paged (bucket_name prefix : string) (max_keys : Z) :
  1 <= S3Client.max_pages max_keys <= 50
  /\ at_most_calls (Z.to_nat (S3Client.max_pages max_keys))
                   (S3Client.list_with_folders bucket_name prefix max_keys)
  /\ at_most_calls 50 (S3Client.list_with_folders bucket_name prefix max_keys)
  /\ every_call (page_of bucket_name (S3Client.list_prefix_of prefix))
                (S3Client.list_with_folders bucket_name prefix max_keys)
  /\ every_result (fun t =>
                     S3Client.prefix t = S3Client.or_none prefix
                     /\ Forall file_of_tree (S3Client.files t))
                  (S3Client.list_with_folders bucket_name prefix max_keys).
Proof.
  pose proof (max_pages_bounds max_keys) as Hb.
  assert (Hstart : (None : option string) <> Some "") by discriminate.
  destruct (list_pages_calls (Z.to_nat (S3Client.max_pages max_keys))
                             bucket_name (S3Client.list_prefix_of prefix)
                             None [] [] Hstart) as [Hn Hc].
  assert (Hpaged :
            at_most_calls (Z.to_nat (S3Client.max_pages max_keys))
                          (S3Client.list_with_folders bucket_name prefix max_keys)).
  { unfold S3Client.list_with_folders. apply at_most_calls_bind; [exact Hn|].
    intros [[folders files]|]; exact I. }
  split; [exact Hb|]. split; [exact Hpaged|]. split; [|split].
  - apply (at_most_calls_mono (Z.to_nat (S3Client.max_pages max_keys)));
      [lia|exact Hpaged].
  - unfold S3Client.list_with_folders. apply every_call_bind; [exact Hc|].
    intros [[folders files]|]; constructor.
  - unfold S3Client.list_with_folders.
    eapply every_result_bind.
    + apply list_pages_files. constructor.
    + intros [[folders files]|] H; constructor; cbn; split; auto.
Qed.

(** ** The scope of a listing *)

Lemma prefix_exists (a b : string) :
  String.prefix a b = true -> exists r, b = a ++ r.
Proof.
  revert b. induction a as [|c a IH]; intros b H; [now exists b|].
  destruct b as [|d b]; [discriminate|].
  rewrite prefix_cons in H. apply andb_true_iff in H as [Hc Hab].
  apply Ascii.eqb_eq in Hc. subst d.
  destruct (IH b Hab) as [r ->]. now exists r.
Qed.

Lemma prefix_trans (a b c : string) :
  String.prefix a b = true -> String.prefix b c = true ->
  String.prefix a c = true.
Proof.
  intros Hab Hbc.
  apply prefix_exists in Hab as [r ->]. apply prefix_exists in Hbc as [r' ->].
  rewrite append_assoc. apply prefix_append.
Qed.

(** Of two strings that start a common string, the shorter starts the
    longer. *)
Lemma prefix_of_common (a b x y : string) :
  a ++ x = b ++ y -> (String.length a <= String.length b)%nat ->
  String.prefix a b = true.
Proof.
  revert b. induction a as [|c a IH]; intros b H Hlen; [apply prefix_empty|].
  destruct b as [|d b]; [cbn in Hlen; lia|].
  rewrite !append_cons in H. injection H as -> H.
  rewrite prefix_cons, Ascii.eqb_refl. cbn in Hlen.
  apply (IH b H). lia.
Qed.

Lemma length_append (s t : string) :
  String.length (s ++ t) = (String.length s + String.length t)%nat.
Proof.
  induction s as [|c s IH]; [reflexivity|].
  rewrite append_cons. cbn. now rewrite IH.
Qed.

(** What [rstrip] takes off is at the end. *)
Lemma rstrip_with_split (p : ascii -> bool) (s : string) :
  exists t, s = Py.rstrip_with p s ++ t.
Proof.
  induction s as [|c s [t IH]]; [now exists ""|].
  rewrite rstrip_with_cons.
  destruct (Py.rstrip_with p s) as [|d r] eqn:E.
  - destruct (p c); [now exists (String c s)|].
    exists t. rewrite append_cons. cbn in IH. now rewrite <- IH.
  - exists t. rewrite append_cons. now rewrite <- IH.
Qed.

Lemma rstrip_no_slash (s : string) :
  PyMore.endswith s "/" = false -> Py.rstrip "/" s = s.
Proof.
  unfold Py.rstrip. induction s as [|c s IH]; [reflexivity|].
  rewrite endswith_cons. intros H. apply orb_false_iff in H as [Hhere Hlater].
  rewrite rstrip_with_cons, (IH Hlater).
  destruct s as [|d s]; [|reflexivity].
  rewrite mem_slash. destruct (Ascii.eqb c "/") eqn:Hc; [|reflexivity].
  apply Ascii.eqb_eq in Hc. now subst c.
Qed.

Lemma endswith_slash_rstrip (s : string) :
  PyMore.endswith s "/" = true -> exists t, s = (Py.rstrip "/" s ++ "/") ++ t.
Proof.
  unfold Py.rstrip. induction s as [|c s IH]; [discriminate|].
  rewrite endswith_cons. intros H. rewrite rstrip_with_cons.
  destruct (PyMore.endswith s "/") eqn:Hlater.
  - destruct (IH eq_refl) as [t Ht].
    destruct (Py.rstrip_with (fun c0 => Py.mem c0 "/") s) as [|d r] eqn:E.
    + rewrite mem_slash. destruct (Ascii.eqb c "/") eqn:Hc.
      * apply Ascii.eqb_eq in Hc. subst c. now exists s.
      * exists t. rewrite append_cons, append_cons. f_equal. exact Ht.
    + exists t. rewrite append_cons, append_cons. f_equal. exact Ht.
  - rewrite orb_false_r in H. apply String.eqb_eq in H. injection H as -> ->.
    now exists "".
Qed.

Lemma endswith_append (s t : string) : PyMore.endswith (s ++ t) t = true.
Proof.
  induction s as [|c s IH]; [apply endswith_refl|].
  rewrite append_cons. now apply endswith_later.
Qed.


(** The prefix that a listing with folders sends to S3 for an effective
    prefix without surrounding blanks is under the base. *)
Lemma list_prefix_under_base (u : User.t) (R prefix effective : string) :
  User.allowed_path_prefix u = Some R ->
  Py.strip R <> "" ->
  Py.strip prefix = prefix ->
  _effective_prefix u prefix = Return effective ->
  String.prefix (canonical_base (Py.strip R)) (S3Client.list_prefix_of effective)
  = true.
Proof.
  intros HR Hne Hstrip Heff.
  rewrite (effective_prefix_restricted u R prefix HR Hne) in Heff.
  unfold S3Client.list_prefix_of.
  destruct (Py.truthy (normalized prefix)) eqn:HP; cbn [andb negb] in Heff.
  - destruct (Py.startswith _ _) eqn:Hin; cbn [negb] in Heff; [|discriminate].
    injection Heff as <-.
    unfold normalized in Hin. rewrite Hstrip in Hin. unfold Py.startswith in Hin.
    destruct (PyMore.endswith prefix "/") eqn:Hend.
    + rewrite andb_false_r.
      destruct (endswith_slash_rstrip prefix Hend) as [t Ht].
      rewrite Ht. eapply prefix_trans; [exact Hin|apply prefix_append].
    + assert (Hp : Py.truthy prefix = true).
      { destruct prefix; [discriminate HP|reflexivity]. }
      rewrite Hp. exact Hin.
  - injection Heff as <-.
    unfold canonical_base.
    rewrite (endswith_append (Py.rstrip "/" (Py.strip R)) "/").
    rewrite andb_false_r. apply prefix_refl.
Qed.

Lemma list_with_folders_calls (bucket_name prefix : string) (max_keys : Z) :
  every_call (page_of bucket_name (S3Client.list_prefix_of prefix))
             (S3Client.list_with_folders bucket_name prefix max_keys).
Proof.
  unfold S3Client.list_with_folders. apply every_call_bind.
  - apply list_pages_calls. discriminate.
  - intros [[folders files]|]; constructor.
Qed.

(** X17. A listing with folders stays within the user's restriction.  For a
    user whose restriction is not blank and a requested prefix without
    surrounding blanks, every call the handler makes is on the
    configured bucket with a prefix that starts with the canonical base
    of the restriction; so every key that S3 can return for it is a key
    that direct access allows to the same user. *)
Theorem tree_listing_stays_under_base (cfg : StorageSettings.t) (u : User.t)
        (R prefix : string) (max_keys : Z) :
  User.allowed_path_prefix u = Some R ->
  Py.strip R <> "" ->
  Py.strip prefix = prefix ->
  every_call (fun c =>
                boto3.bucket_of c = StorageSettings.S3_BUCKET_NAME cfg
                /\ Py.startswith (boto3.target_of c) (canonical_base (Py.strip R))
                   = true
                /\ forall key,
                    Py.startswith key (boto3.target_of c) = true ->
                    user_can_access_path u key = true)
             (files.list_files_with_folders cfg prefix max_keys (Some u)).
Proof.
  intros HR Hne Hstrip.
  unfold files.list_files_with_folders, files.guarded, files.checked.
  rewrite (require_permission_pass _ _ (every_role_reads u)).
  destruct (_effective_prefix u prefix) as [effective|e] eqn:Heff; [|constructor].
  pose proof (list_prefix_under_base u R prefix effective HR Hne Hstrip Heff)
    as Hunder.
  unfold files.served, FileService.list_with_folders.
  storage cfg; [constructor|].
  apply every_call_bind; [|intros [t|e|m]; constructor].
  apply every_call_bind; [|intros t; constructor].
  eapply every_call_weaken; [|apply list_with_folders_calls].
  intros c (token & -> & _). cbn [boto3.bucket_of boto3.target_of].
  split; [reflexivity|]. split; [exact Hunder|].
  intros key Hkey. unfold Py.startswith in Hkey.
  pose proof (prefix_trans _ _ _ Hunder Hkey) as Hbase.
  apply prefix_exists in Hbase as [rest ->].
  now apply under_base_accessible.
Qed.

(** A viewer restricted to [team/alpha] lists the root and a folder. *)
Lemma tree_listing_stays_under_base_witness :
  every_call (fun c =>
                boto3.bucket_of c = "maxon-files"
                /\ Py.startswith (boto3.target_of c) "team/alpha/" = true
                /\ forall key,
                    Py.startswith key (boto3.target_of c) = true ->
                    user_can_access_path DemoFiles.viewer key = true)
             (files.list_files_with_folders DemoFiles.storage "team/alpha/2024"
                                            1000 (Some DemoFiles.viewer)).
Proof.
  apply (tree_listing_stays_under_base
           DemoFiles.storage DemoFiles.viewer "team/alpha" "team/alpha/2024" 1000);
    [reflexivity|discriminate|reflexivity].
Defined.

Lemma prefix_app_same (a x y : string) :
  String.prefix (a ++ x) (a ++ y) = String.prefix x y.
Proof.
  induction a as [|c a IH]; [reflexivity|].
  now rewrite !append_cons, prefix_cons, Ascii.eqb_refl.
Qed.

(** The prefix that a flat listing sends to S3 for an effective prefix
    without surrounding blanks starts with the restriction, normalized. *)
Lemma flat_prefix_bound (u : User.t) (R prefix effective : string) :
  User.allowed_path_prefix u = Some R ->
  Py.strip R <> "" ->
  Py.strip prefix = prefix ->
  _effective_prefix u prefix = Return effective ->
  String.prefix (normalized R) effective = true.
Proof.
  intros HR Hne Hstrip Heff.
  rewrite (effective_prefix_restricted u R prefix HR Hne) in Heff.
  destruct (Py.truthy (normalized prefix)) eqn:HP; cbn [andb negb] in Heff.
  - destruct (Py.startswith _ _) eqn:Hin; cbn [negb] in Heff; [|discriminate].
    injection Heff as <-.
    unfold normalized in Hin. rewrite Hstrip in Hin.
    unfold Py.startswith, canonical_base in Hin. fold (normalized R) in Hin.
    apply prefix_exists in Hin as [tail Htail].
    rewrite append_assoc in Htail.
    assert (Hlen : (String.length (normalized R)
                    <= String.length (Py.rstrip "/" prefix))%nat).
    { apply (f_equal String.length) in Htail.
      rewrite !length_append in Htail. cbn in Htail. lia. }
    symmetry in Htail.
    pose proof (prefix_of_common _ _ _ _ Htail Hlen) as Hn.
    destruct (rstrip_with_split (fun c => Py.mem c "/") prefix) as [t Ht].
    rewrite Ht. eapply prefix_trans; [exact Hn|apply prefix_append].
  - injection Heff as <-. unfold canonical_base. fold (normalized R).
    apply prefix_append.
Qed.

(** A key that continues the normalized restriction with a character that
    is neither a blank nor the separator is outside the scope. *)
Lemma sibling_key_denied (u : User.t) (R : string) (c : ascii) (s : string) :
  User.role u <> ADMIN ->
  User.allowed_path_prefix u = Some R ->
  Py.strip (normalized R) = normalized R ->
  normalized R <> "" ->
  Py.isspace c = false -> c <> "/"%char ->
  user_can_access_path u (normalized R ++ String c s) = false.
Proof.
  intros Hrole HR Hstrip HN Hspace Hsep.
  assert (Hne : Py.strip R <> "").
  { intros E. apply HN. unfold normalized. now rewrite E. }
  rewrite (direct_access_restricted u R _ Hrole HR Hne).
  unfold canonical_base. fold (normalized R).
  set (N := normalized R) in *.
  assert (Hhead : exists h N', N = String h N' /\ Py.isspace h = false).
  { destruct N as [|h N'] eqn:E; [contradiction|].
    exists h, N'. split; [reflexivity|].
    unfold Py.strip in Hstrip. now apply lstrip_with_head in Hstrip. }
  destruct Hhead as (h & N' & HNh & Hh).
  assert (Hs1 : Py.strip (N ++ String c s)
                = N ++ String c (Py.rstrip_with Py.isspace s)).
  { unfold Py.strip. rewrite rstrip_with_app, (rstrip_with_keep _ _ _ Hspace).
    rewrite HNh, append_cons. now apply lstrip_with_keep. }
  assert (Hc : Py.mem c "/" = false).
  { rewrite mem_slash. now apply Ascii.eqb_neq. }
  unfold normalized at 1. rewrite Hs1. unfold Py.rstrip.
  rewrite rstrip_with_app, (rstrip_with_keep _ _ _ Hc).
  unfold Py.startswith. rewrite append_assoc, prefix_app_same.
  rewrite append_cons, prefix_cons.
  apply Ascii.eqb_neq in Hsep. rewrite Ascii.eqb_sym, Hsep. reflexivity.
Qed.

(** X18. The scope of a flat listing.  For a user whose restriction is not
    blank, the prefix that [list_files] sends to S3 for a request without
    surrounding blanks starts with the normalized restriction, which has
    no trailing separator.  The bound is reached: asked for the
    normalized restriction itself, the handler sends it as it is, and
    that prefix is also the start of keys in sibling folders (the
    restriction followed by a character that is neither blank nor the
    separator), which direct access denies to the same user unless they
    are an admin. *)
Theorem flat_listing_reaches_siblings (cfg : StorageSettings.t)
        (bucket_name : string) (u : User.t) (R : string) (max_keys : Z) :
  get_s3_client cfg = inr bucket_name ->
  User.allowed_path_prefix u = Some R ->
  Py.strip R <> "" ->
  (forall prefix,
      Py.strip prefix = prefix ->
      every_call (fun c => Py.startswith (boto3.target_of c) (normalized R) = true)
                 (files.list_files cfg prefix max_keys (Some u)))
  /\ (Py.strip (normalized R) = normalized R ->
      normalized R <> "" ->
      (exists k,
          files.list_files cfg (normalized R) max_keys (Some u)
          = Ask (boto3.list_objects_v2 bucket_name (normalized R) None
                                       max_keys None) k)
      /\ forall c s,
          Py.isspace c = false -> c <> "/"%char ->
          Py.startswith (normalized R ++ String c s) (normalized R) = true
          /\ (User.role u <> ADMIN ->
              user_can_access_path u (normalized R ++ String c s) = false)).
Proof.
  intros Hcfg HR Hne. split.
  - intros prefix Hstrip.
    unfold files.list_files, files.guarded, files.checked.
    rewrite (require_permission_pass _ _ (every_role_reads u)).
    destruct (_effective_prefix u prefix) as [effective|e] eqn:Heff;
      [|constructor].
    pose proof (flat_prefix_bound u R prefix effective HR Hne Hstrip Heff) as Hb.
    unfold files.served, FileService.list_files. rewrite Hcfg.
    constructor; [exact Hb|].
    intros [e|page]; constructor.
  - intros Hstrip HN. split.
    + assert (Heff : _effective_prefix u (normalized R) = Return (normalized R)).
      { apply (listing_within_base u R _ HR Hne).
        - unfold normalized at 1. rewrite Hstrip. unfold normalized, Py.rstrip.
          now rewrite rstrip_with_idem.
        - unfold normalized at 1. rewrite Hstrip. unfold normalized, Py.rstrip.
          rewrite rstrip_with_idem. apply prefix_refl. }
      unfold files.list_files, files.guarded, files.checked, files.served,
        FileService.list_files.
      rewrite (require_permission_pass _ _ (every_role_reads u)), Heff, Hcfg.
      eexists. reflexivity.
    + intros c s Hspace Hsep. split; [apply prefix_append|].
      intros Hrole. now apply sibling_key_denied.
Qed.

(** A viewer restricted to [team/alpha] lists [team/alpha]; the key
    [team/alphabet/notes.txt] matches the prefix sent. *)
Lemma flat_listing_reaches_siblings_witness :
  (exists k,
      files.list_files DemoFiles.storage "team/alpha" 1000 (Some DemoFiles.viewer)
      = Ask (boto3.list_objects_v2 "maxon-files" "team/alpha" None 1000 None) k)
  /\ Py.startswith "team/alphabet/notes.txt" "team/alpha" = true
  /\ user_can_access_path DemoFiles.viewer "team/alphabet/notes.txt" = false.
Proof.
  assert (Hne : Py.strip "team/alpha" <> "") by discriminate.
  assert (HN : normalized "team/alpha" <> "") by discriminate.
  destruct (proj2 (flat_listing_reaches_siblings
                     DemoFiles.storage "maxon-files" DemoFiles.viewer
                     "team/alpha" 1000 eq_refl eq_refl Hne) eq_refl HN)
    as [Hcall Hkeys].
  split; [exact Hcall|].
  assert (Hspace : Py.isspace "b" = false) by reflexivity.
  assert (Hsep : "b"%char <> "/"%char) by discriminate.
  destruct (Hkeys "b"%char "et/notes.txt" Hspace Hsep) as [Hmatch Hdenied].
  split; [exact Hmatch|]. apply Hdenied. discriminate.
Defined.

(** X19. An upload without a path lands in the uploader's scope.  Whatever
    the user's role and restriction and whatever the file name, the key
    chosen when no path (or an empty one) is given is one the user may
    access, so such an upload is never refused with "Access denied to
    this path". *)
Theorem uploads_without_path_are_in_scope (cfg : StorageSettings.t) (u : User.t)
        (file : files.upload) :
  files.upload_key u (Some "") (files.upload_filename file)
  = files.upload_key u None (files.upload_filename file)
  /\ user_can_access_path u (files.upload_key u None (files.upload_filename file))
     = true
  /\ every_result (fun r => r <> Fail access_denied)
                  (files.upload_file cfg file None (Some u))
  /\ every_result (fun r => r <> Fail access_denied)
                  (files.upload_file cfg file (Some "") (Some u)).
Proof.
  pose proof (default_upload_key_accessible u (files.upload_filename file)) as Hin.
  assert (Hnone :
            every_result (fun r => r <> Fail access_denied)
                         (files.upload_file cfg file None (Some u))).
  { unfold files.upload_file, files.guarded.
    destruct (has_permission u "files:write") eqn:Hw.
    - rewrite (require_permission_pass _ _ Hw).
      match goal with |- context [if ?b then Done _ else _] => destruct b end;
        [now constructor|].
      unfold files.checked. rewrite (check_path_access_pass _ _ Hin).
      destruct (get_s3_client cfg); [now constructor|].
      constructor. intros [e|[]]; now constructor.
    - rewrite (require_permission_fail _ _ Hw). now constructor. }
  split; [reflexivity|]. split; [exact Hin|]. split; exact Hnone.
Qed.

Lemma create_folder_refused (cfg : StorageSettings.t) (u : User.t) (path : string) :
  has_permission u "files:write" = true ->
  files.create_folder cfg path (Some u) = Done (Fail access_denied)
  <-> (Py.truthy (Py.strip (Py.or_empty (User.allowed_path_prefix u)))
       && negb (Py.startswith
                  (Py.rstrip "/" (Py.strip path) ++ "/")
                  (Py.rstrip "/" (Py.strip (Py.or_empty (User.allowed_path_prefix u)))
                     ++ "/"))) = true.
Proof.
  intros Hw. unfold files.create_folder, files.guarded.
  rewrite (require_permission_pass _ _ Hw).
  match goal with |- context [if ?b then Done _ else _] => destruct b end.
  - split; reflexivity.
  - split; [|discriminate].
    destruct (get_s3_client cfg); discriminate.
Qed.

(** X20. [create_folder] applies the restriction to every role.  For a user
    who may write, the handler refuses with "Access denied to this path"
    exactly when the user has a restriction that is not blank and the
    normalized path with one separator does not start with its canonical
    base.  For an editor that is exactly when direct access denies the
    path; an admin with a restriction is refused in the same way,
    although direct access allows an admin every path. *)
Theorem create_folder_scope_ignores_role (cfg : StorageSettings.t) (u : User.t)
        (path : string) :
  has_permission u "files:write" = true ->
  (files.create_folder cfg path (Some u) = Done (Fail access_denied)
   <-> exists R,
      User.allowed_path_prefix u = Some R
      /\ Py.strip R <> ""
      /\ Py.startswith (normalized path ++ "/") (canonical_base (Py.strip R))
         = false)
  /\ (User.role u = EDITOR ->
      (files.create_folder cfg path (Some u) = Done (Fail access_denied)
       <-> user_can_access_path u path = false))
  /\ (User.role u = ADMIN -> user_can_access_path u path = true).
Proof.
  intros Hw.
  assert (Hiff :
            files.create_folder cfg path (Some u) = Done (Fail access_denied)
            <-> exists R,
              User.allowed_path_prefix u = Some R
              /\ Py.strip R <> ""
              /\ Py.startswith (normalized path ++ "/")
                               (canonical_base (Py.strip R)) = false).
  { rewrite (create_folder_refused cfg u path Hw).
    unfold normalized, canonical_base. split.
    - intros H. apply andb_true_iff in H as [Hallowed Hout].
      destruct (User.allowed_path_prefix u) as [R|]; [|discriminate].
      cbn [Py.or_empty] in *. exists R. split; [reflexivity|]. split.
      + intros E. rewrite E in Hallowed. discriminate.
      + now apply negb_true_iff.
    - intros (R & HR & Hne & Hout). rewrite HR. cbn [Py.or_empty].
      apply truthy_true in Hne. now rewrite Hne, Hout. }
  split; [exact Hiff|]. split.
  - intros Hrole. rewrite Hiff.
    assert (Hnot : User.role u <> ADMIN) by (rewrite Hrole; discriminate).
    split.
    + intros (R & HR & Hne & Hout).
      now rewrite (direct_access_restricted u R path Hnot HR Hne).
    + intros Hdenied.
      destruct (Py.strip (Py.or_empty (User.allowed_path_prefix u))) as [|a A]
        eqn:HA.
      { now rewrite (unrestricted_direct_access u path HA) in Hdenied. }
      destruct (User.allowed_path_prefix u) as [R|] eqn:HR; [|discriminate].
      cbn [Py.or_empty] in HA.
      assert (Hne : Py.strip R <> "") by (rewrite HA; discriminate).
      exists R. split; [reflexivity|]. split; [exact Hne|].
      now rewrite <- (direct_access_restricted u R path Hnot HR Hne).
  - apply admin_direct_access.
Qed.

(** An admin restricted to [team/alpha] asks for a folder beside it. *)
Lemma create_folder_scope_ignores_role_witness :
  files.create_folder DemoFiles.storage "team/beta" (Some DemoFiles.admin)
  = Done (Fail access_denied)
  /\ user_can_access_path DemoFiles.admin "team/beta" = true.
Proof.
  pose proof (create_folder_scope_ignores_role
                DemoFiles.storage DemoFiles.admin "team/beta" eq_refl)
    as (Hiff & _ & Hadmin).
  split; [|now apply Hadmin].
  apply Hiff. exists "team/alpha". split; [reflexivity|].
  split; [discriminate|reflexivity].
Defined.

(** ** The examples *)

Lemma demo_store_ok : store_ok Demo.db0.
Proof.
  split; cbn.
  - apply (bool_decide_unpack _). vm_compute. exact I.
  - apply (bool_decide_unpack _). vm_compute. exact I.
  - constructor.
  - constructor.
  - constructor.
Qed.

(** The store of the examples, after a login and after a refresh call. *)
Lemma session_lifecycle_keeps_store_ok_witness :
  store_ok Demo.db0 /\ store_ok Demo.db1
  /\ store_ok (AuthService.refresh_access_token
                 Demo.cfg (Demo.T Demo.t1) Demo.t2 Demo.db1).2.
Proof.
  pose proof (session_lifecycle_keeps_store_ok
                Demo.cfg Demo.verify Demo.db0 demo_store_ok) as (Hlogin & _ & _).
  pose proof (Hlogin "a@x.com" "secret" Demo.t1) as H1.
  split; [exact demo_store_ok|]. split; [exact H1|].
  exact (proj1 (proj2 (session_lifecycle_keeps_store_ok
                         Demo.cfg Demo.verify Demo.db1 H1))
               (Demo.T Demo.t1) Demo.t2).
Defined.

(** Alice logs in at [t1] and logs out. *)
Lemma login_then_logout_restores_sessions_witness :
  exists db'',
    AuthService.logout (Demo.T Demo.t1) Demo.db1 = (Return true, db'')
    /\ sessions db'' = sessions Demo.db0
    /\ users db'' = users Demo.db1.
Proof.
  refine (proj2 (login_then_logout_restores_sessions
                   Demo.cfg Demo.verify "a@x.com" "secret" Demo.t1
                   Demo.db0 Demo.db1
                   (Tokens.mk (Demo.A Demo.t1) (Demo.T Demo.t1) "bearer")
                   demo_store_ok _)).
  vm_compute. reflexivity.
Defined.

(** Alice logs in at [t1] and presents the token five seconds later. *)
Lemma login_token_is_not_refreshable_witness :
  AuthService.refresh_access_token Demo.cfg (Demo.T Demo.t1) Demo.t4 Demo.db1
  = (Raise TypeError, Demo.db1)
  /\ auth.refresh_token Demo.cfg (Demo.T Demo.t1) Demo.t4 Demo.db1
     = (Raise TypeError, Demo.db1).
Proof.
  refine (proj2 (proj2 (login_token_is_not_refreshable
            Demo.cfg Demo.verify "a@x.com" "secret" Demo.t1 Demo.db0 Demo.db1
            (Tokens.mk (Demo.A Demo.t1) (Demo.T Demo.t1) "bearer")
            demo_store_ok _ Demo.t4 _))).
  - vm_compute. reflexivity.
  - vm_compute. discriminate.
Defined.

(** The stale row of [db_stale] stays when alice's token is presented. *)
Lemma refresh_and_logout_touch_one_session_witness :
  Session.mk 4 1 (Opaque "never-signed") 1000000 0
  ∈ sessions (AuthService.refresh_access_token
                Demo.cfg (Demo.T Demo.t1) Demo.t2 Demo.db_stale).2
  /\ Session.mk 4 1 (Opaque "never-signed") 1000000 0
     ∈ sessions (AuthService.logout (Demo.T Demo.t1) Demo.db_stale).2.
Proof.
  assert (Hids : NoDup (Session.id <$> sessions Demo.db_stale))
    by apply NoDup_singleton.
  pose proof (refresh_and_logout_touch_one_session
                Demo.cfg (Demo.T Demo.t1) Demo.t2 Demo.db_stale Hids)
    as [(Hrefresh & _) (Hlogout & _)].
  split.
  - apply Hrefresh; [apply list_elem_of_here|discriminate].
  - apply Hlogout; [apply list_elem_of_here|discriminate].
Defined.

(** Alice logs out of the session of [db1]. *)
Lemma logout_retires_token_witness :
  AuthService.logout (Demo.T Demo.t1) DemoFiles.db1_out
  = (Return false, DemoFiles.db1_out)
  /\ AuthService.refresh_access_token
       Demo.cfg (Demo.T Demo.t1) Demo.t2 DemoFiles.db1_out
     = (Return None, DemoFiles.db1_out).
Proof.
  assert (Hout : AuthService.logout (Demo.T Demo.t1) Demo.db1
                 = (Return true, DemoFiles.db1_out)) by (vm_compute; reflexivity).
  pose proof (logout_retires_token
                Demo.cfg (Demo.T Demo.t1) Demo.db1 DemoFiles.db1_out Hout)
    as (Hagain & _ & Hrefresh).
  split; [exact Hagain|]. exact (proj1 (Hrefresh Demo.t2)).
Defined.

(** A viewer restricted to [team/alpha] lists a folder below it. *)
Lemma listing_prefix_is_accessible_witness :
  _effective_prefix DemoFiles.viewer " team/alpha/2024/ " = Return " team/alpha/2024/ "
  /\ user_can_access_path DemoFiles.viewer " team/alpha/2024/ " = true.
Proof.
  split; [reflexivity|].
  apply (listing_prefix_is_accessible DemoFiles.viewer " team/alpha/2024/ ").
  reflexivity.
Defined.

(** ** User management *)

Lemma filter_by_unique {A B : Type} `{EqDecision B} (f : A -> B) (v : B)
      (l : list A) :
  NoDup (f <$> l) ->
  filter (fun x => f x = v) l = []
  \/ exists x, filter (fun x => f x = v) l = [x].
Proof.
  induction l as [|a l IH]; intros Hnd; [now left|].
  rewrite fmap_cons in Hnd. apply NoDup_cons in Hnd as [Hnotin Hnd].
  destruct (decide (f a = v)) as [Ha|Ha].
  - rewrite filter_cons_True by exact Ha. right. exists a. f_equal.
    destruct (filter (fun x => f x = v) l) as [|b rest] eqn:E; [reflexivity|].
    exfalso. assert (Hb : b ∈ filter (fun x => f x = v) l) by (rewrite E; left).
    apply list_elem_of_filter in Hb as [Hfb Hb].
    apply Hnotin. rewrite Ha, <- Hfb. now apply list_elem_of_fmap_2.
  - rewrite filter_cons_False by exact Ha. now apply IH.
Qed.

Lemma filter_nil_none {A : Type} (P : A -> Prop) `{forall x, Decision (P x)}
      (l : list A) :
  filter P l = [] -> forall x, x ∈ l -> ~ P x.
Proof.
  intros Hnil x Hx HP.
  assert (Hin : x ∈ filter P l) by now apply list_elem_of_filter.
  rewrite Hnil in Hin. now apply elem_of_nil in Hin.
Qed.

Lemma filter_single_elem {A : Type} (P : A -> Prop) `{forall x, Decision (P x)}
      (l : list A) (x : A) :
  filter P l = [x] -> P x /\ x ∈ l.
Proof.
  intros Hone.
  assert (Hin : x ∈ filter P l) by (rewrite Hone; left).
  now apply list_elem_of_filter in Hin.
Qed.

Lemma email_taken_false (self_id : Z) (email : string) (db : Db) :
  email_taken self_id email db = false ->
  Forall (fun u => User.id u <> self_id -> User.email u <> email) (users db).
Proof.
  intros H. apply bool_decide_eq_false in H.
  apply Forall_forall. intros u Hu Hid Hemail.
  apply H. apply Exists_exists. now exists u.
Qed.

Lemma email_free (self_id : Z) (email : string) (db : Db) :
  (forall u, u ∈ users db -> User.id u <> self_id -> User.email u <> email) ->
  email_taken self_id email db = false.
Proof.
  intros H. apply bool_decide_eq_false. intros Hex.
  apply Exists_exists in Hex as (u & Hu & Hid & Hemail).
  now apply (H u Hu Hid).
Qed.

Lemma id_taken_false (user_id : Z) (db : Db) :
  id_taken user_id db = false -> user_id ∉ User.id <$> users db.
Proof.
  intros H Hin. apply bool_decide_eq_false in H. apply H.
  apply list_elem_of_fmap in Hin as (u & -> & Hu).
  apply Exists_exists. now exists u.
Qed.

(** Replacing a row keeps the emails unique when no other row holds the
    email of the new row. *)
Lemma NoDup_emails_replaced (user' : User.t) (l : list User.t) :
  NoDup (User.id <$> l) ->
  NoDup (User.email <$> l) ->
  Forall (fun r => User.id r <> User.id user'
                   -> User.email r <> User.email user') l ->
  NoDup (User.email
           <$> map (fun r => if bool_decide (User.id r = User.id user')
                             then user' else r) l).
Proof.
  induction l as [|r l IH]; intros Hids Hemails Hothers; [constructor|].
  rewrite fmap_cons in Hids. rewrite fmap_cons in Hemails.
  apply NoDup_cons in Hids as [Hrid Hids].
  apply NoDup_cons in Hemails as [Hremail Hemails].
  apply Forall_cons in Hothers as [Hr Hothers].
  cbn [map]. rewrite fmap_cons. apply NoDup_cons. split; [|now apply IH].
  intros Hin. apply list_elem_of_fmap in Hin as (x' & Hx' & Hin).
  apply list_elem_of_fmap in Hin as (x & -> & Hx).
  rewrite Forall_forall in Hothers.
  case_bool_decide as Hrs; case_bool_decide as Hxs.
  - apply Hrid. rewrite Hrs, <- Hxs. now apply list_elem_of_fmap_2.
  - apply (Hothers x Hx Hxs). now symmetry.
  - now apply (Hr Hrs).
  - apply Hremail. rewrite Hx'. now apply list_elem_of_fmap_2.
Qed.

Lemma commit_new_user_ok (user : User.t) (db : Db) :
  store_ok db ->
  id_taken (User.id user) db = false ->
  (forall u, u ∈ users db -> User.email u <> User.email user) ->
  commit_new_user user db
  = (Return user, mkDb (users db ++ [user])%list (sessions db) (sessions_id_seq db))
  /\ store_ok (mkDb (users db ++ [user])%list (sessions db) (sessions_id_seq db)).
Proof.
  intros [Huid Hemail Hsid Htok Hseq] Hid Hfree. split.
  - unfold commit_new_user. rewrite Hid, email_free; [reflexivity|].
    intros u Hu _. now apply Hfree.
  - split; cbn [users sessions sessions_id_seq]; try assumption.
    + rewrite fmap_app. apply NoDup_app. split; [exact Huid|]. split.
      * intros i Hi Hnew. cbn in Hnew. apply list_elem_of_singleton in Hnew.
        subst i. now apply (id_taken_false _ _ Hid).
      * apply NoDup_singleton.
    + rewrite fmap_app. apply NoDup_app. split; [exact Hemail|]. split.
      * intros e He Hnew. cbn in Hnew. apply list_elem_of_singleton in Hnew.
        subst e. apply list_elem_of_fmap in He as (u & Heq & Hu).
        now apply (Hfree u Hu).
      * apply NoDup_singleton.
Qed.

Lemma commit_user_ok (user' : User.t) (db : Db) :
  store_ok db ->
  (forall u, u ∈ users db -> User.id u <> User.id user'
             -> User.email u <> User.email user') ->
  commit_user user' db
  = (Return user',
     mkDb (map (fun u => if bool_decide (User.id u = User.id user')
                         then user' else u) (users db))
          (sessions db) (sessions_id_seq db))
  /\ store_ok (mkDb (map (fun u => if bool_decide (User.id u = User.id user')
                                   then user' else u) (users db))
                    (sessions db) (sessions_id_seq db)).
Proof.
  intros [Huid Hemail Hsid Htok Hseq] Hfree. split.
  - unfold commit_user. now rewrite email_free.
  - split; cbn [users sessions sessions_id_seq]; try assumption.
    + rewrite (fmap_replace_same User.id); [exact Huid|].
      intros x _ Hx. now rewrite Hx.
    + apply NoDup_emails_replaced; [exact Huid|exact Hemail|].
      apply Forall_forall. intros u Hu. now apply Hfree.
Qed.

(** X21. [create_user] reports every email conflict as 409.  On a store
    that meets the schema constraints and for an id that the sequence has
    not handed out, the call ends in one of two ways: a user holds the
    email, the result is 409 "Email already registered" and the store is
    as before; or no user holds it, and the store gains one row at the
    end of the users table, with the given id, email, name, role, flag
    and restriction (as given, not trimmed), the digest of the password
    and no last login, and meets the constraints again.  It never ends in
    [IntegrityError] or [MultipleResultsFound]. *)
Theorem create_user_reports_conflicts
        (get_password_hash : string -> string -> string)
        (user_in : UserCreate.t) (salt : string) (new_id : Z) (db : Db) :
  store_ok db ->
  id_taken new_id db = false ->
  ((exists u, u ∈ users db /\ User.email u = UserCreate.email user_in)
   /\ UserService.create_user get_password_hash user_in salt new_id db
      = (Raise email_registered, db))
  \/ ((forall u, u ∈ users db -> User.email u <> UserCreate.email user_in)
      /\ UserService.create_user get_password_hash user_in salt new_id db
         = (Return (User.mk new_id
                            (UserCreate.email user_in)
                            (get_password_hash salt (UserCreate.password user_in))
                            (UserCreate.full_name user_in)
                            (UserCreate.role user_in)
                            (UserCreate.is_active user_in)
                            (UserCreate.allowed_path_prefix user_in)
                            None),
            (UserService.create_user get_password_hash user_in salt new_id db).2)
      /\ users (UserService.create_user get_password_hash user_in salt new_id db).2
         = (users db
              ++ [User.mk new_id
                          (UserCreate.email user_in)
                          (get_password_hash salt (UserCreate.password user_in))
                          (UserCreate.full_name user_in)
                          (UserCreate.role user_in)
                          (UserCreate.is_active user_in)
                          (UserCreate.allowed_path_prefix user_in)
                          None])%list
      /\ sessions (UserService.create_user get_password_hash user_in salt new_id db).2
         = sessions db
      /\ store_ok (UserService.create_user get_password_hash user_in salt new_id db).2).
Proof.
  intros Hok Hid.
  unfold UserService.create_user, UserService.get_user_by_email,
    select_user_by_email.
  rewrite bind_run.
  destruct (filter_by_unique User.email (UserCreate.email user_in) (users db)
                             (emails_unique db Hok)) as [Hnone|[u Hone]].
  - right. rewrite Hnone. cbn [scalar_one_or_none].
    pose proof (filter_nil_none _ _ Hnone) as Hfree.
    split; [exact Hfree|].
    destruct (commit_new_user_ok
                (User.mk new_id
                         (UserCreate.email user_in)
                         (get_password_hash salt (UserCreate.password user_in))
                         (UserCreate.full_name user_in)
                         (UserCreate.role user_in)
                         (UserCreate.is_active user_in)
                         (UserCreate.allowed_path_prefix user_in)
                         None) db Hok Hid Hfree) as [Hrun Hok'].
    rewrite Hrun. cbn [snd users sessions].
    split; [reflexivity|]. split; [reflexivity|]. split; [reflexivity|exact Hok'].
  - left. rewrite Hone. cbn [scalar_one_or_none].
    apply filter_single_elem in Hone as [Hemail Hu].
    split; [now exists u|reflexivity].
Qed.

Lemma other_rows_differ (user : User.t) (db : Db) :
  store_ok db -> user ∈ users db ->
  forall u, u ∈ users db -> User.id u <> User.id user ->
            User.email u <> User.email user.
Proof.
  intros Hok Huser u Hu Hid Hemail. apply Hid. f_equal.
  exact (NoDup_fmap_same User.email (users db) u user
                         (emails_unique db Hok) Hu Huser Hemail).
Qed.

Lemma update_user_keeps_email
      (get_password_hash : string -> string -> string)
      (user : User.t) (user_in : UserUpdate.t) (salt : string) (db : Db) :
  store_ok db -> user ∈ users db ->
  UserUpdate.email user_in = None
  \/ UserUpdate.email user_in = Some (User.email user) ->
  UserService.update_user get_password_hash user user_in salt db
  = (Return (UserService.updated get_password_hash user (User.email user)
                                 user_in salt),
     with_user (UserService.updated get_password_hash user (User.email user)
                                    user_in salt) db)
  /\ store_ok (with_user (UserService.updated get_password_hash user
                                              (User.email user) user_in salt) db).
Proof.
  intros Hok Huser Hemail.
  destruct (commit_user_ok
              (UserService.updated get_password_hash user (User.email user)
                                   user_in salt) db Hok
              (other_rows_differ user db Hok Huser)) as [Hrun Hok'].
  split; [|exact Hok'].
  unfold UserService.update_user.
  destruct Hemail as [-> | ->].
  - rewrite bind_run, ret_run. exact Hrun.
  - rewrite String.eqb_refl. cbn [negb]. rewrite bind_run, ret_run. exact Hrun.
Qed.

Lemma update_user_new_email
      (get_password_hash : string -> string -> string)
      (user : User.t) (user_in : UserUpdate.t) (salt : string) (db : Db)
      (email : string) :
  store_ok db -> user ∈ users db ->
  UserUpdate.email user_in = Some email ->
  email <> User.email user ->
  ((exists other, other ∈ users db /\ User.email other = email
                  /\ User.id other <> User.id user)
   /\ UserService.update_user get_password_hash user user_in salt db
      = (Raise email_registered, db))
  \/ ((forall u, u ∈ users db -> User.email u <> email)
      /\ UserService.update_user get_password_hash user user_in salt db
         = (Return (UserService.updated get_password_hash user email user_in salt),
            with_user (UserService.updated get_password_hash user email
                                           user_in salt) db)
      /\ store_ok (with_user (UserService.updated get_password_hash user email
                                                  user_in salt) db)).
Proof.
  intros Hok Huser Hemail Hnew.
  unfold UserService.update_user. rewrite Hemail.
  apply String.eqb_neq in Hnew as Hneq. rewrite Hneq. cbn [negb].
  unfold UserService.get_user_by_email, select_user_by_email.
  rewrite !bind_run.
  destruct (filter_by_unique User.email email (users db) (emails_unique db Hok))
    as [Hnone|[other Hone]].
  - right. rewrite Hnone. cbn [scalar_one_or_none]. rewrite ret_run.
    pose proof (filter_nil_none _ _ Hnone) as Hfree.
    split; [exact Hfree|].
    apply (commit_user_ok
             (UserService.updated get_password_hash user email user_in salt) db Hok).
    intros u Hu _. now apply Hfree.
  - left. rewrite Hone. cbn [scalar_one_or_none].
    apply filter_single_elem in Hone as [Hother Hin].
    assert (Hid : User.id other <> User.id user).
    { intros Hid. apply Hnew. rewrite <- Hother. f_equal.
      exact (NoDup_fmap_same User.id (users db) other user
                             (user_ids_unique db Hok) Hin Huser Hid). }
    split; [now exists other|].
    apply Z.eqb_neq in Hid. now rewrite Hid.
Qed.


Lemma create_user_success
      (get_password_hash : string -> string -> string)
      (user_in : UserCreate.t) (salt : string) (new_id : Z) (db db' : Db)
      (user : User.t) :
  store_ok db ->
  UserService.create_user get_password_hash user_in salt new_id db
  = (Return user, db') ->
  user = User.mk new_id
                 (UserCreate.email user_in)
                 (get_password_hash salt (UserCreate.password user_in))
                 (UserCreate.full_name user_in)
                 (UserCreate.role user_in)
                 (UserCreate.is_active user_in)
                 (UserCreate.allowed_path_prefix user_in)
                 None
  /\ db' = mkDb (users db ++ [user])%list (sessions db) (sessions_id_seq db)
  /\ filter (fun u => User.email u = UserCreate.email user_in) (users db') = [user]
  /\ store_ok db'.
Proof.
  intros Hok H.
  unfold UserService.create_user, UserService.get_user_by_email,
    select_user_by_email in H.
  rewrite bind_run in H.
  destruct (filter_by_unique User.email (UserCreate.email user_in) (users db)
                             (emails_unique db Hok)) as [Hnone|[u Hone]].
  - rewrite Hnone in H. cbn [scalar_one_or_none] in H.
    cbv zeta in H. unfold commit_new_user in H. cbn [User.id User.email] in H.
    destruct (id_taken new_id db) eqn:Hid; [discriminate|].
    destruct (email_taken new_id (UserCreate.email user_in) db) eqn:He;
      [discriminate|].
    cbn [orb] in H. injection H as <- <-.
    split; [reflexivity|]. split; [reflexivity|]. split.
    + cbn [users]. rewrite filter_app, Hnone.
      now rewrite filter_cons_True by reflexivity.
    + apply commit_new_user_ok; [exact Hok|exact Hid|].
      now apply (filter_nil_none _ _ Hnone).
  - rewrite Hone in H. discriminate.
Qed.

(** X23. A signup can log in, as a viewer.  On a store that meets the
    schema constraints and with a hasher whose digests verify, a signup
    that succeeds has created an active viewer without restriction, who
    may neither write nor delete files; and a login with the email and
    the password of the signup, at any later time, passes the
    authentication: it returns the token pair minted for that user, or
    fails only with an integrity error because the refresh token it would
    mint is already held by a session row, which costs the store one id
    of the sequence of sessions and nothing else. *)
Theorem signup_then_login
        (settings : Settings.t) (verify_password : string -> string -> bool)
        (get_password_hash : string -> string -> string)
        (signup_data : SignupRequest.t) (salt : string) (new_id : Z)
        (db db' : Db) (user : User.t) :
  (forall salt password,
      verify_password password (get_password_hash salt password) = true) ->
  store_ok db ->
  registration.signup get_password_hash signup_data salt new_id db
  = (Return user, db') ->
  (User.role user = VIEWER /\ User.is_active user = true
   /\ User.allowed_path_prefix user = None
   /\ has_permission user "files:write" = false
   /\ has_permission user "files:delete" = false)
  /\ forall now,
      (exists db'',
          auth.login settings verify_password (SignupRequest.email signup_data)
                     (SignupRequest.password signup_data) now db'
          = (Return (Tokens.mk
                       (Security.create_access_token
                          settings (AuthService.token_data user) None now)
                       (Security.create_refresh_token
                          settings (AuthService.token_data user) now)
                       "bearer"), db''))
      \/ auth.login settings verify_password (SignupRequest.email signup_data)
                    (SignupRequest.password signup_data) now db'
         = (Raise IntegrityError,
            mkDb (users db') (sessions db') (sessions_id_seq db' + 1)).
Proof.
  intros Hhash Hok Hsignup.
  unfold registration.signup in Hsignup.
  destruct (create_user_success _ _ _ _ _ _ _ Hok Hsignup)
    as (Huser & _ & Hrow & _).
  cbn [UserCreate.email UserCreate.password UserCreate.full_name UserCreate.role
       UserCreate.is_active UserCreate.allowed_path_prefix] in Huser, Hrow.
  split; [now subst user|].
  intros now.
  assert (Hpw : verify_password (SignupRequest.password signup_data)
                                (User.hashed_password user) = true).
  { subst user. apply Hhash. }
  assert (Hactive : User.is_active user = true) by now subst user.
  rewrite (login_authenticated settings verify_password _ _ now db' user
                               Hrow Hpw Hactive).
  cbv zeta. destruct (token_taken _ _ db'); [now right|left; eauto].
Qed.

(** Carol signs up on the store of the examples and logs in. *)
Lemma signup_then_login_witness :
  registration.signup DemoUsers.hash DemoUsers.carol "salt" 3 Demo.db0
  = (Return (User.mk 3 "c@x.com" "tr0ub4dor" (Some "Carol") VIEWER true
                     None None),
     DemoUsers.db_carol)
  /\ ((exists db'',
          auth.login Demo.cfg Demo.verify "c@x.com" "tr0ub4dor" Demo.t1
                     DemoUsers.db_carol
          = (Return (Tokens.mk
                       (Security.create_access_token
                          Demo.cfg
                          (AuthService.token_data
                             (User.mk 3 "c@x.com" "tr0ub4dor" (Some "Carol")
                                      VIEWER true None None))
                          None Demo.t1)
                       (Security.create_refresh_token
                          Demo.cfg
                          (AuthService.token_data
                             (User.mk 3 "c@x.com" "tr0ub4dor" (Some "Carol")
                                      VIEWER true None None))
                          Demo.t1)
                       "bearer"), db''))
      \/ auth.login Demo.cfg Demo.verify "c@x.com" "tr0ub4dor" Demo.t1
                    DemoUsers.db_carol
         = (Raise IntegrityError,
            mkDb (users DemoUsers.db_carol) (sessions DemoUsers.db_carol)
                 (sessions_id_seq DemoUsers.db_carol + 1))).
Proof.
  assert (Hhash : forall salt password,
             Demo.verify password (DemoUsers.hash salt password) = true).
  { intros salt password. apply String.eqb_refl. }
  assert (Hsignup :
            registration.signup DemoUsers.hash DemoUsers.carol "salt" 3 Demo.db0
            = (Return (User.mk 3 "c@x.com" "tr0ub4dor" (Some "Carol") VIEWER true
                               None None),
               DemoUsers.db_carol)) by (vm_compute; reflexivity).
  split; [exact Hsignup|].
  exact (proj2 (signup_then_login
                  Demo.cfg Demo.verify DemoUsers.hash DemoUsers.carol "salt" 3
                  Demo.db0 DemoUsers.db_carol _ Hhash demo_store_ok Hsignup)
               Demo.t1).
Defined.







Lemma require_role_admin (u : User.t) :
  require_role ["admin"] (Some u)
  = if bool_decide (User.role u = ADMIN) then Return u
    else Raise (role_required ["admin"]).
Proof.
  unfold require_role. cbv zeta.
  destruct (User.role u); reflexivity.
Qed.

(** X25. User management is for admins only.  Whatever the request and the
    store, [create_user], [get_user] and [update_user] of the users API
    answer 401 without a user and 403 "Role required: admin" to an
    editor, a viewer or an external viewer, and leave the store as it
    is; for an admin they are the service calls. *)
Theorem user_management_is_admin_only
        (get_password_hash : string -> string -> string)
        (user_in : UserCreate.t) (update : UserUpdate.t) (salt : string)
        (user_id new_id : Z) (db : Db) :
  (users.create_user get_password_hash user_in salt new_id None db
   = (Raise unauthenticated, db)
   /\ users.get_user user_id None db = (Raise unauthenticated, db)
   /\ users.update_user get_password_hash user_id update salt None db
      = (Raise unauthenticated, db))
  /\ (forall caller,
         User.role caller <> ADMIN ->
         users.create_user get_password_hash user_in salt new_id (Some caller) db
         = (Raise (HTTPException HTTP_403_FORBIDDEN "Role required: admin" []), db)
         /\ users.get_user user_id (Some caller) db
            = (Raise (HTTPException HTTP_403_FORBIDDEN "Role required: admin" []),
               db)
         /\ users.update_user get_password_hash user_id update salt (Some caller) db
            = (Raise (HTTPException HTTP_403_FORBIDDEN "Role required: admin" []),
               db))
  /\ (forall caller,
         User.role caller = ADMIN ->
         users.create_user get_password_hash user_in salt new_id (Some caller) db
         = UserService.create_user get_password_hash user_in salt new_id db).
Proof.
  split; [now repeat split|]. split.
  - intros caller Hrole.
    unfold users.create_user, users.get_user, users.update_user, users.guarded.
    rewrite require_role_admin, bool_decide_eq_false_2 by exact Hrole.
    now repeat split.
  - intros caller Hrole.
    unfold users.create_user, users.guarded.
    now rewrite require_role_admin, bool_decide_eq_true_2 by exact Hrole.
Qed.

(** An editor asks for a new admin. *)
Lemma user_management_is_admin_only_witness :
  users.create_user DemoUsers.hash
                    (UserCreate.mk "e@x.com" None ADMIN true None "pw") "salt" 9
                    (Some (restricted_to EDITOR None)) Demo.db0
  = (Raise (HTTPException HTTP_403_FORBIDDEN "Role required: admin" []), Demo.db0).
Proof.
  apply (proj1 (proj2 (user_management_is_admin_only
                         DemoUsers.hash
                         (UserCreate.mk "e@x.com" None ADMIN true None "pw")
                         DemoUsers.deactivate "salt" 1 9 Demo.db0))
               (restricted_to EDITOR None)).
  discriminate.
Defined.

Lemma replaced_rows_none (user' : User.t) (l : list User.t) :
  User.id user' ∉ User.id <$> l ->
  filter (fun u => User.id u = User.id user')
         (map (fun u => if bool_decide (User.id u = User.id user')
                        then user' else u) l) = [].
Proof.
  induction l as [|r l IH]; intros Hnotin; [reflexivity|].
  rewrite fmap_cons in Hnotin. apply not_elem_of_cons in Hnotin as [Hr Hl].
  cbn [map]. rewrite bool_decide_eq_false_2 by congruence.
  rewrite filter_cons_False by congruence. now apply IH.
Qed.

Lemma replaced_row (user' : User.t) (l : list User.t) :
  NoDup (User.id <$> l) ->
  User.id user' ∈ User.id <$> l ->
  filter (fun u => User.id u = User.id user')
         (map (fun u => if bool_decide (User.id u = User.id user')
                        then user' else u) l) = [user'].
Proof.
  induction l as [|r l IH]; intros Hnd Hin; [now apply elem_of_nil in Hin|].
  rewrite fmap_cons in Hnd, Hin. apply NoDup_cons in Hnd as [Hr Hnd].
  cbn [map]. destruct (decide (User.id r = User.id user')) as [Hid|Hid].
  - rewrite bool_decide_eq_true_2 by exact Hid.
    rewrite filter_cons_True by reflexivity. f_equal.
    apply replaced_rows_none. now rewrite <- Hid.
  - rewrite bool_decide_eq_false_2 by exact Hid.
    rewrite filter_cons_False by exact Hid. apply IH; [exact Hnd|].
    apply elem_of_cons in Hin as [Hin|Hin]; [congruence|exact Hin].
Qed.

Lemma with_user_row (user' : User.t) (db : Db) :
  NoDup (User.id <$> users db) ->
  (exists user, user ∈ users db /\ User.id user = User.id user') ->
  filter (fun u => User.id u = User.id user') (users (with_user user' db))
  = [user'].
Proof.
  intros Hnd (user & Hin & Hid). unfold with_user. cbn [users].
  apply replaced_row; [exact Hnd|].
  rewrite <- Hid. now apply list_elem_of_fmap_2.
Qed.

(** X26. Deactivating a user ends their logins and keeps their
    sessions.  On a store that meets the schema constraints, once
    [update_user] has set [is_active] to false for a user, the sessions
    table is as before, and a login with the user's email is refused
    with the 401 of a wrong password, whatever the password. *)
Theorem deactivation_blocks_login
        (settings : Settings.t) (verify_password : string -> string -> bool)
        (get_password_hash : string -> string -> string)
        (user user' : User.t) (user_in : UserUpdate.t) (salt : string)
        (db db' : Db) :
  store_ok db ->
  user ∈ users db ->
  UserUpdate.is_active user_in = Some false ->
  UserService.update_user get_password_hash user user_in salt db
  = (Return user', db') ->
  sessions db' = sessions db
  /\ (forall password now,
         auth.login settings verify_password (User.email user') password now db'
         = (Raise auth.invalid_credentials, db')).
Proof.
  intros Hok Huser Hoff Hupdate.
  assert (Hshape :
            exists email,
              user' = UserService.updated get_password_hash user email user_in salt
              /\ db' = with_user user' db /\ store_ok db').
  { destruct (UserUpdate.email user_in) as [email|] eqn:Hemail.
    - destruct (decide (email = User.email user)) as [->|Hnew].
      + destruct (update_user_keeps_email get_password_hash user user_in salt db
                                          Hok Huser (or_intror Hemail))
          as [Hrun Hok'].
        rewrite Hrun in Hupdate. injection Hupdate as <- <-. eauto.
      + destruct (update_user_new_email get_password_hash user user_in salt db
                                        email Hok Huser Hemail Hnew)
          as [[_ Hrun]|(_ & Hrun & Hok')];
          rewrite Hrun in Hupdate; [discriminate|].
        injection Hupdate as <- <-. eauto.
    - destruct (update_user_keeps_email get_password_hash user user_in salt db
                                        Hok Huser (or_introl Hemail))
        as [Hrun Hok'].
      rewrite Hrun in Hupdate. injection Hupdate as <- <-. eauto. }
  destruct Hshape as (email & Huser' & Hdb' & Hok').
  assert (Hid : User.id user' = User.id user) by now subst user'.
  assert (Hinactive : User.is_active user' = false).
  { subst user'. unfold UserService.updated. cbn [User.is_active].
    now rewrite Hoff. }
  assert (Hrow : filter (fun u => User.id u = User.id user') (users db') = [user']).
  { rewrite Hdb'. apply with_user_row; [apply (user_ids_unique db Hok)|].
    exists user. now split. }
  assert (Hin' : user' ∈ users db').
  { now apply (filter_single_elem _ _ _ Hrow). }
  split; [now rewrite Hdb'|].
  intros password now.
  assert (Hmail :
            filter (fun u => User.email u = User.email user') (users db')
            = [user']).
  { destruct (filter_by_unique User.email (User.email user') (users db')
                               (emails_unique db' Hok')) as [Hnone|[x Hone]].
    - exfalso. now apply (filter_nil_none _ _ Hnone user' Hin').
    - rewrite Hone. f_equal.
      apply filter_single_elem in Hone as [Hx Hxin].
      exact (NoDup_fmap_same User.email (users db') x user'
                             (emails_unique db' Hok') Hxin Hin' Hx). }
  apply login_failure_result.
  destruct (verify_password password (User.hashed_password user')) eqn:Hpw.
  - now apply (user_inactive _ _ _ _ user').
  - now apply (password_mismatch _ _ _ _ user').
Qed.

(** Alice is deactivated while her session of [Demo.db1] is open. *)
Lemma deactivation_blocks_login_witness :
  sessions DemoUsers.db1_off = sessions Demo.db1
  /\ auth.login Demo.cfg Demo.verify "a@x.com" "secret" Demo.t2 DemoUsers.db1_off
     = (Raise auth.invalid_credentials, DemoUsers.db1_off).
Proof.
  assert (Hok : store_ok Demo.db1).
  { exact (login_keeps_store_ok Demo.cfg Demo.verify Demo.db0
                                "a@x.com" "secret" Demo.t1 demo_store_ok). }
  assert (Hin : DemoUsers.alice1 ∈ users Demo.db1) by apply list_elem_of_here.
  assert (Hrun :
            UserService.update_user DemoUsers.hash DemoUsers.alice1
                                    DemoUsers.deactivate "salt" Demo.db1
            = (Return (UserService.updated DemoUsers.hash DemoUsers.alice1
                                           "a@x.com" DemoUsers.deactivate "salt"),
               DemoUsers.db1_off)) by (vm_compute; reflexivity).
  destruct (deactivation_blocks_login
              Demo.cfg Demo.verify DemoUsers.hash DemoUsers.alice1 _
              DemoUsers.deactivate "salt" Demo.db1 DemoUsers.db1_off
              Hok Hin eq_refl Hrun) as (Hsessions & Hlogin).
  split; [exact Hsessions|]. exact (Hlogin "secret" Demo.t2).
Defined.

(** ** Analytics *)

Lemma counted_empty : counted ∅ = 0.
Proof. unfold counted. apply map_fold_empty. Qed.

Lemma counted_insert (histogram : gmap string Z) (ext : string) (n : Z) :
  histogram !! ext = None ->
  counted (<[ext := n]> histogram) = n + counted histogram.
Proof.
  intros Hnone. unfold counted.
  rewrite map_fold_insert_L; [reflexivity| |exact Hnone].
  intros. lia.
Qed.

(** Counting one more key adds one to the sum of the histogram. *)
Lemma counted_count (histogram : gmap string Z) (ext : string) :
  counted (AnalyticsService.count histogram ext) = counted histogram + 1.
Proof.
  unfold AnalyticsService.count.
  destruct (histogram !! ext) as [n|] eqn:Hext; cbn [default].
  - rewrite <- (insert_delete_eq histogram ext (n + 1)).
    rewrite counted_insert by apply lookup_delete_eq.
    rewrite <- (insert_delete_id histogram ext n Hext) at 2.
    rewrite counted_insert by apply lookup_delete_eq. lia.
  - rewrite counted_insert by exact Hext. lia.
Qed.

Lemma counted_foldl (exts : list string) (histogram : gmap string Z) :
  counted (foldl AnalyticsService.count histogram exts)
  = counted histogram + Z.of_nat (length exts).
Proof.
  revert histogram. induction exts as [|ext exts IH]; intros histogram.
  - cbn. lia.
  - cbn [foldl length]. rewrite IH, counted_count. lia.
Qed.

Lemma mem_cons (c d : ascii) (s : string) :
  Py.mem c (String d s) = Ascii.eqb c d || Py.mem c s.
Proof. cbn. now destruct (Ascii.eqb c d). Qed.

(** The last part of a string cut at its last separator holds no
    separator. *)
Lemma rsplit1_shape (sep : ascii) (s : string) :
  (PyText.rsplit1 sep s = [s] /\ Py.mem sep s = false)
  \/ exists head tail,
      PyText.rsplit1 sep s = [head; tail] /\ Py.mem sep tail = false.
Proof.
  induction s as [|c s [[IH Hs]|(head & tail & IH & Htail)]].
  - now left.
  - cbn [PyText.rsplit1]. rewrite IH.
    destruct (Ascii.eqb c sep) eqn:Hc.
    + right. now exists "", s.
    + left. split; [reflexivity|].
      now rewrite mem_cons, Ascii.eqb_sym, Hc, Hs.
  - cbn [PyText.rsplit1]. rewrite IH. right. now exists (String c head), tail.
Qed.

Lemma rsplit1_last_no_sep (sep : ascii) (s : string) :
  Py.mem sep (PyMore.last_of (PyText.rsplit1 sep s)) = false.
Proof.
  destruct (rsplit1_shape sep s) as [[-> Hs]|(head & tail & -> & Htail)];
    assumption.
Qed.

Lemma lower_char_dot (c : ascii) :
  Ascii.eqb "." (PyText.lower_char c) = Ascii.eqb "." c.
Proof. destruct c as [[] [] [] [] [] [] [] []]; reflexivity. Qed.

Lemma lower_no_dot (s : string) : Py.mem "." (PyText.lower s) = Py.mem "." s.
Proof.
  induction s as [|c s IH]; [reflexivity|].
  cbn [PyText.lower]. now rewrite !mem_cons, lower_char_dot, IH.
Qed.

(** The label a key is counted under holds no dot. *)
Lemma extension_no_dot (key : string) :
  Py.mem "." (AnalyticsService.extension key) = false.
Proof.
  unfold AnalyticsService.extension.
  destruct (Py.mem "." key); [|reflexivity].
  rewrite lower_no_dot. apply rsplit1_last_no_sep.
Qed.

Lemma counted_keys (exts : list string) (histogram : gmap string Z) (ext : string) :
  is_Some (foldl AnalyticsService.count histogram exts !! ext) ->
  is_Some (histogram !! ext) \/ ext ∈ exts.
Proof.
  revert histogram. induction exts as [|e exts IH]; intros histogram H;
    [now left|].
  cbn [foldl] in H. destruct (IH _ H) as [Hhere|Hlater].
  - unfold AnalyticsService.count in Hhere.
    destruct (decide (e = ext)) as [->|Hne]; [right; left|].
    rewrite lookup_insert_ne in Hhere by exact Hne. now left.
  - right. now right.
Qed.

Lemma histogram_labels (keys : list string) (ext : string) :
  is_Some (foldl AnalyticsService.count ∅
                 (map AnalyticsService.extension keys) !! ext) ->
  Py.mem "." ext = false.
Proof.
  intros H. apply counted_keys in H as [H|H].
  - rewrite lookup_empty in H. now destruct H.
  - apply list_elem_of_fmap in H as (key & -> & _). apply extension_no_dot.
Qed.

Lemma analytics_permission (u : User.t) :
  has_permission u "analytics:read"
  = negb (bool_decide (User.role u = EXTERNAL_VIEWER)).
Proof. unfold has_permission. now destruct (User.role u). Qed.

Lemma cache_unused (force_refresh : bool) (cached : option AnalyticsStats.t) :
  force_refresh = true \/ cached = None ->
  (if negb force_refresh then cached else None) = None.
Proof. intros [-> | ->]; [reflexivity|]. now destruct force_refresh. Qed.

(** X27. Statistics that are computed anew add up.  For a user who may
    read analytics, with storage configured and the cache skipped or
    empty, [get_stats] makes one call, the listing of the first 1000 keys
    of the whole bucket; and whatever S3 replies, the counts of
    [by_extension] add up to [total_files], no label of [by_extension]
    holds a dot, [by_content_type] is empty,
    the reply is marked refreshed, and the same dictionary is written to
    the cache under the cache key for the configured time to live. *)
Theorem fresh_stats_add_up
        (cfg : StorageSettings.t) (REDIS_CACHE_TTL : Z) (bucket_name : string)
        (force_refresh : bool) (cached : option AnalyticsStats.t) (ttl : Z)
        (u : User.t) :
  User.role u <> EXTERNAL_VIEWER ->
  get_s3_client cfg = inr bucket_name ->
  force_refresh = true \/ cached = None ->
  exists k,
    analytics.get_stats cfg REDIS_CACHE_TTL force_refresh cached ttl (Some u)
    = Ask (boto3.list_objects_v2 bucket_name "" None 1000 None) k
    /\ forall r, exists result,
        k r = Done (Respond result) /\ fresh_stats REDIS_CACHE_TTL result.
Proof.
  intros Hrole Hcfg Hcache.
  unfold analytics.get_stats, files.guarded.
  rewrite require_permission_pass
    by (rewrite analytics_permission; now rewrite bool_decide_eq_false_2).
  unfold AnalyticsService.get_analytics.
  rewrite (cache_unused _ _ Hcache), Hcfg.
  unfold S3Client.list_files. rewrite !S3_bind_ask.
  eexists. split; [reflexivity|].
  intros [e|page]; (eexists; split; [reflexivity|]);
    unfold fresh_stats;
    cbn [fst snd AnalyticsStats.by_extension AnalyticsStats.total_files
         AnalyticsStats.by_content_type AnalyticsStats.refreshed
         AnalyticsStats.cache_ttl_seconds];
    (split; [rewrite counted_foldl, counted_empty, length_map; lia|]);
    (split; [lia|]);
    (split; [intros ext;
             rewrite <- (map_map S3Client.key AnalyticsService.extension);
             apply histogram_labels|]);
    now repeat split.
Qed.

(** A viewer restricted to [team/alpha] forces a refresh. *)
Lemma fresh_stats_add_up_witness :
  exists k,
    analytics.get_stats DemoFiles.storage 3600 true None 0 (Some DemoFiles.viewer)
    = Ask (boto3.list_objects_v2 "maxon-files" "" None 1000 None) k
    /\ forall r, exists result,
        k r = Done (Respond result) /\ fresh_stats 3600 result.
Proof.
  apply (fresh_stats_add_up DemoFiles.storage 3600 "maxon-files" true None 0
                            DemoFiles.viewer);
    [discriminate|reflexivity|now left].
Defined.

(** X28. Who gets statistics, and from where.  An external viewer is
    refused with 403 and no call is made.  For every other user the
    reply does not depend on the user, be they restricted to a path or
    not: a cached dictionary, unless a refresh is forced, is returned
    marked not refreshed with the time to live that Redis reports, with
    no call to S3 and no write to the cache; with storage that is not
    configured the reply is the empty statistics with the error's message
    as detail, and nothing is cached; and the only call ever made is the
    listing of the first 1000 keys of the whole bucket. *)
Theorem stats_cache_and_scope
        (cfg : StorageSettings.t) (REDIS_CACHE_TTL : Z)
        (force_refresh : bool) (cached : option AnalyticsStats.t) (ttl : Z) :
  (forall u,
      User.role u = EXTERNAL_VIEWER ->
      analytics.get_stats cfg REDIS_CACHE_TTL force_refresh cached ttl (Some u)
      = Done (Fail (permission_denied "analytics:read")))
  /\ (forall u v,
         User.role u <> EXTERNAL_VIEWER -> User.role v <> EXTERNAL_VIEWER ->
         analytics.get_stats cfg REDIS_CACHE_TTL force_refresh cached ttl (Some u)
         = analytics.get_stats cfg REDIS_CACHE_TTL force_refresh cached ttl
                               (Some v))
  /\ (forall u data,
         User.role u <> EXTERNAL_VIEWER ->
         force_refresh = false -> cached = Some data ->
         analytics.get_stats cfg REDIS_CACHE_TTL force_refresh cached ttl (Some u)
         = Done (Respond
                   (AnalyticsStats.mk (AnalyticsStats.total_files data)
                                      (AnalyticsStats.total_bytes data)
                                      (AnalyticsStats.by_extension data)
                                      (AnalyticsStats.by_content_type data)
                                      false (Some ttl)
                                      (AnalyticsStats.detail data),
                    None)))
  /\ (forall u message,
         User.role u <> EXTERNAL_VIEWER ->
         force_refresh = true \/ cached = None ->
         get_s3_client cfg = inl message ->
         analytics.get_stats cfg REDIS_CACHE_TTL force_refresh cached ttl (Some u)
         = Done (Respond (AnalyticsStats.mk 0 0 ∅ ∅ false None (Some message),
                          None)))
  /\ (forall u,
         every_call (fun c =>
                       c = boto3.list_objects_v2
                             (StorageSettings.S3_BUCKET_NAME cfg) "" None 1000 None)
                    (analytics.get_stats cfg REDIS_CACHE_TTL force_refresh cached
                                         ttl (Some u))).
Proof.
  assert (Hpass : forall u, User.role u <> EXTERNAL_VIEWER ->
                            require_permission "analytics:read" (Some u) = Return u).
  { intros u Hrole. apply require_permission_pass.
    rewrite analytics_permission. now rewrite bool_decide_eq_false_2. }
  split; [|split; [|split; [|split]]].
  - intros u Hrole. unfold analytics.get_stats, files.guarded.
    rewrite require_permission_fail; [reflexivity|].
    rewrite analytics_permission. now rewrite bool_decide_eq_true_2.
  - intros u v Hu Hv. unfold analytics.get_stats, files.guarded.
    now rewrite (Hpass u Hu), (Hpass v Hv).
  - intros u data Hu -> ->. unfold analytics.get_stats, files.guarded.
    now rewrite (Hpass u Hu).
  - intros u message Hu Hcache Hcfg.
    unfold analytics.get_stats, files.guarded, AnalyticsService.get_analytics.
    now rewrite (Hpass u Hu), (cache_unused _ _ Hcache), Hcfg.
  - intros u. unfold analytics.get_stats, files.guarded.
    destruct (require_permission "analytics:read" (Some u)); [|constructor].
    unfold AnalyticsService.get_analytics.
    destruct (if negb force_refresh then cached else None); [constructor|].
    storage cfg; [constructor|].
    unfold S3Client.list_files. rewrite !S3_bind_ask.
    constructor; [reflexivity|]. intros [e|page]; constructor.
Qed.

(** A second account for alice's email is refused. *)
Lemma create_user_reports_conflicts_witness :
  UserService.create_user
    DemoUsers.hash (UserCreate.mk "a@x.com" None EDITOR true None "pw") "salt" 3
    Demo.db0
  = (Raise email_registered, Demo.db0).
Proof.
  destruct (create_user_reports_conflicts
              DemoUsers.hash (UserCreate.mk "a@x.com" None EDITOR true None "pw")
              "salt" 3 Demo.db0 demo_store_ok eq_refl)
    as [[_ Hrun]|[Hfree _]]; [exact Hrun|].
  exfalso. apply (Hfree Demo.alice); [apply list_elem_of_here|reflexivity].
Defined.


(** ** The live connection *)

Lemma lower_char_letter (c l : ascii) :
  l = "p"%char \/ l = "i"%char \/ l = "n"%char \/ l = "g"%char ->
  PyText.lower_char c = l <-> c = l \/ c = ascii_of_nat (nat_of_ascii l - 32).
Proof.
  intros [-> | [-> | [-> | ->]]];
    destruct c as [[] [] [] [] [] [] [] []];
    vm_compute; (split; [intros H; try discriminate H; auto
                        |intros [H|H]; try discriminate H; reflexivity]).
Qed.

(** The spellings of ping. *)
Lemma lower_ping (msg : string) :
  PyText.lower msg = "ping" <-> spells_ping msg.
Proof.
  unfold spells_ping. split.
  - destruct msg as [|p [|i [|n [|g [|x rest]]]]]; try discriminate.
    cbn [PyText.lower]. intros H. injection H as Hp Hi Hn Hg.
    exists p, i, n, g. split; [reflexivity|].
    apply (lower_char_letter p "p") in Hp; [|auto].
    apply (lower_char_letter i "i") in Hi; [|auto].
    apply (lower_char_letter n "n") in Hn; [|auto].
    apply (lower_char_letter g "g") in Hg; [|auto].
    auto.
  - intros (p & i & n & g & -> & Hp & Hi & Hn & Hg). cbn [PyText.lower].
    f_equal; [|f_equal; [|f_equal; [|f_equal]]].
    + apply (lower_char_letter p "p"); auto.
    + apply (lower_char_letter i "i"); auto.
    + apply (lower_char_letter n "n"); auto.
    + apply (lower_char_letter g "g"); auto.
Qed.

(** X29. The live connection echoes.  For the texts received on a
    connection, in any number, [websocket_endpoint] sends one text for
    each, in order; a text is answered by itself unless it spells ping in
    some mix of upper and lower case, which is answered "pong"; and what
    is sent, when sent back, is answered unchanged. *)
Theorem websocket_echoes (received : list string) :
  length (websocket.websocket_endpoint received) = length received
  /\ (forall n msg,
         received !! n = Some msg ->
         (spells_ping msg ->
          websocket.websocket_endpoint received !! n = Some "pong")
         /\ (~ spells_ping msg ->
             websocket.websocket_endpoint received !! n = Some msg))
  /\ websocket.websocket_endpoint (websocket.websocket_endpoint received)
     = websocket.websocket_endpoint received.
Proof.
  unfold websocket.websocket_endpoint. split; [apply length_map|]. split.
  - intros n msg Hn.
    change (map websocket.reply received) with (websocket.reply <$> received).
    rewrite list_lookup_fmap, Hn. cbn. unfold websocket.reply. split.
    + intros Hspell. apply lower_ping in Hspell. now rewrite Hspell.
    + intros Hother.
      destruct (String.eqb (PyText.lower msg) "ping") eqn:H; [|reflexivity].
      exfalso. now apply Hother, lower_ping, String.eqb_eq.
  - rewrite map_map. apply map_ext. intros msg. unfold websocket.reply.
    destruct (String.eqb (PyText.lower msg) "ping") eqn:H; [reflexivity|].
    now rewrite H.
Qed.
